(** * SheetApps template: the sheet client and the API manager

    A shallow embedding of [src/api/client.ts] (class [SheetClient]),
    [src/api/sheetApi.ts] (class [SheetApi]), [src/api/apiManager.ts]
    (class [ApiManager]) and the configuration test of
    [src/api/connectionTest.ts] (class [ConnectionTester]), with the
    properties of the data-shaping layer and of the request cache.

    Conventions of the embedding.
    - A JavaScript string is a [string]: one [ascii] per code unit, read as
      Latin-1 (code units 0..255). Strings with code units above 255 are
      outside the embedding.
    - A JavaScript number that the code uses as an index, a row number or a
      time in milliseconds is a [Z]; the embedding covers the integers on
      which JavaScript arithmetic is exact. A number that a caller passes
      (an identifier, a value of a cell or of a query) is a [Z] too; it
      prints in decimal notation when it is a safe integer, and the text
      of any other number is left to a parameter ([numberText]).
    - A [Map<string, _>] is a [gmap string _]. An object used as a record
      with an index signature ([SheetRow]) is a [gmap string JsVal] that
      holds the properties of the object itself; a read [row[key]] falls
      back to the members of [Object.prototype] ([getProp], and [dataGet]
      for the data of a new row). Writing a header named [__proto__] into
      a row, which JavaScript treats specially, is outside the embedding.
    - An [async] method of the client is a computation over an explicit
      state (cache, clock, network oracle, request log); a promise that
      rejects is the result [Throw].
    - The methods of [ApiManager] interleave at their [await]s; they are
      run by an event loop whose events are calls, resumptions of suspended
      calls, settlements of requests, clock ticks and timers. *)

From Stdlib Require Import ZArith Ascii String List Lia Bool.
#[local] Set Warnings "-clear-no-such-hyp".
From stdpp Require Import base decidable option list strings gmap fin_maps pretty.

Local Open Scope string_scope.
Local Open Scope Z_scope.

(** ** JavaScript string primitives *)

Module Js.

(** Code unit of a character. *)
Definition code (a : ascii) : Z := Z.of_N (N_of_ascii a).

(** [String.fromCharCode(n)] for a code unit [n]. *)
Definition fromCharCode (n : Z) : ascii := ascii_of_N (Z.to_N n).

(** White space and line terminators that [String.prototype.trim]
    removes, among the Latin-1 code units: TAB, LF, VT, FF, CR, SPACE and
    NBSP. *)
Definition is_ws (a : ascii) : bool :=
  let c := code a in
  ((9 <=? c) && (c <=? 13)) || (c =? 32) || (c =? 160).

Fixpoint trimStart (s : string) : string :=
  match s with
  | EmptyString => EmptyString
  | String a s' => if is_ws a then trimStart s' else s
  end.

Fixpoint trimEnd (s : string) : string :=
  match s with
  | EmptyString => EmptyString
  | String a s' =>
      match trimEnd s' with
      | EmptyString => if is_ws a then EmptyString else String a EmptyString
      | r => String a r
      end
  end.

(** [s.trim()] *)
Definition trim (s : string) : string := trimEnd (trimStart s).

(** [toLowerCase] of one Latin-1 code unit: A..Z and the accented capitals
    U+00C0..U+00DE (but not the multiplication sign U+00D7) move up by 32. *)
Definition lower_char (a : ascii) : ascii :=
  let c := code a in
  if ((65 <=? c) && (c <=? 90)) || ((192 <=? c) && (c <=? 222) && negb (c =? 215))
  then fromCharCode (c + 32) else a.

(** [s.toLowerCase()] *)
Fixpoint toLowerCase (s : string) : string :=
  match s with
  | EmptyString => EmptyString
  | String a s' => String (lower_char a) (toLowerCase s')
  end.

(** [s.includes(sub)] *)
Fixpoint includes (s sub : string) : bool :=
  if String.prefix sub s then true
  else match s with
       | EmptyString => false
       | String _ s' => includes s' sub
       end.

(** [arr.includes(x)] on an array of strings. *)
Definition arr_includes (arr : list string) (x : string) : bool :=
  existsb (String.eqb x) arr.

(** [`${n}`] for an integer [n]. *)
Definition num_to_string (n : Z) : string := pretty n.

(** [Number.isSafeInteger(n)]: the integers that print in plain decimal
    notation, digit for digit. *)
Definition isSafeInteger (n : Z) : bool := Z.abs n <? 2 ^ 53.

(** [a || b] on optional strings: [a] when it is a non-empty string. *)
Definition str_or (a : option string) (b : string) : string :=
  match a with
  | Some x => if String.eqb x "" then b else x
  | None => b
  end.

End Js.

(** ** Values *)

(** The members of [Object.prototype]. A row, the data of a new row and the
    configured data types are plain objects: reading a name under which
    the object has no property of its own yields the member of
    [Object.prototype] of that name, if there is one. *)
Inductive ProtoMember : Type :=
| PConstructor
| PToString
| PToLocaleString
| PValueOf
| PHasOwnProperty
| PIsPrototypeOf
| PPropertyIsEnumerable
| PDefineGetter
| PDefineSetter
| PLookupGetter
| PLookupSetter
| PProto.

#[global] Instance ProtoMember_eq_dec : EqDecision ProtoMember.
Proof. solve_decision. Defined.

Definition protoMembers : list ProtoMember :=
  [ PConstructor; PToString; PToLocaleString; PValueOf; PHasOwnProperty;
    PIsPrototypeOf; PPropertyIsEnumerable; PDefineGetter; PDefineSetter;
    PLookupGetter; PLookupSetter; PProto ].

(** The property name of a member. *)
Definition memberName (m : ProtoMember) : string :=
  match m with
  | PConstructor => "constructor"
  | PToString => "toString"
  | PToLocaleString => "toLocaleString"
  | PValueOf => "valueOf"
  | PHasOwnProperty => "hasOwnProperty"
  | PIsPrototypeOf => "isPrototypeOf"
  | PPropertyIsEnumerable => "propertyIsEnumerable"
  | PDefineGetter => "__defineGetter__"
  | PDefineSetter => "__defineSetter__"
  | PLookupGetter => "__lookupGetter__"
  | PLookupSetter => "__lookupSetter__"
  | PProto => "__proto__"
  end.

(** The JavaScript values that occur in sheet rows, in identifiers and in
    the data that callers pass. [VBuiltin m] is the object that
    [Object.prototype] holds under the member [m]: a built-in function,
    and for [__proto__] the prototype object itself. Two reads of one
    member yield the same object, and different members hold different
    objects. *)
Inductive JsVal : Type :=
| VUndef
| VNull
| VBool (b : bool)
| VNum (n : Z)
| VStr (s : string)
| VBuiltin (m : ProtoMember).

#[global] Instance JsVal_eq_dec : EqDecision JsVal.
Proof. solve_decision. Defined.

(** [a === b] *)
Definition strict_eq (a b : JsVal) : bool := bool_decide (a = b).

(** [Object.prototype[key]] *)
Definition objectPrototype (key : string) : option JsVal :=
  VBuiltin <$> find (fun m => String.eqb (memberName m) key) protoMembers.

(** [SheetRow]: an object with the properties [_id] and [_rowIndex] and one
    property per header, all in one key space. The map holds the
    properties of the object itself. *)
Abbreviation SheetRow := (gmap string JsVal).

(** [row[key]]: the property of the row itself, else the member of
    [Object.prototype] of that name, else [undefined]. *)
Definition getProp (row : SheetRow) (key : string) : JsVal :=
  match row !! key with
  | Some v => v
  | None => default VUndef (objectPrototype key)
  end.

(** A thrown value: an [Error] with its message, or anything else. *)
Inductive Thrown : Type :=
| ErrorObj (message : string)
| NonError.

Inductive Result (A : Type) : Type :=
| Ok (a : A)
| Throw (e : Thrown).
Arguments Ok {A} a.
Arguments Throw {A} e.

(** [error instanceof Error ? error.message : fallback] *)
Definition errorMessage (e : Thrown) (fallback : string) : string :=
  match e with
  | ErrorObj m => m
  | NonError => fallback
  end.

(** The response type of [src/types]. *)
Module Types.

(** [ApiResponse<T>]; [timestamp] holds the instant that
    [new Date().toISOString()] renders. *)
Record ApiResponse (T : Type) := {
  success : bool;
  data : option T;
  error : option string;
  message : option string;
  timestamp : option Z
}.
Arguments success {T} _.
Arguments data {T} _.
Arguments error {T} _.
Arguments message {T} _.
Arguments timestamp {T} _.

End Types.

Import Types.

(** ** [SheetClient] ([src/api/client.ts]) *)

Module SheetClient.

(** *** A1 notation *)

(** The [while (num >= 0)] loop of [numberToColumnLetter]; [fuel] bounds
    the number of iterations and [None] means that it ran out. *)
Fixpoint numberToColumnLetter_loop (fuel : nat) (num : Z) (result : string)
  : option string :=
  if 0 <=? num then
    match fuel with
    | O => None
    | S fuel' =>
        numberToColumnLetter_loop fuel'
          (num / 26 - 1)
          (String (Js.fromCharCode (65 + Z.rem num 26)) result)
    end
  else Some result.

Definition numberToColumnLetter (num : Z) : option string :=
  numberToColumnLetter_loop (Z.to_nat (num + 1)) num "".

Definition getA1Notation (row col : Z) : option string :=
  colLetter ← numberToColumnLetter col;
  Some (colLetter +:+ Js.num_to_string row).

(** *** Heuristic boolean detection *)

Definition booleanColumnNames : list string :=
  ["done"; "completed"; "finished"; "active"; "visited"].

Definition booleanValues : list string :=
  ["true"; "false"; "yes"; "no"; "y"; "n"; "1"; "0"; "done"; "completed"].

Definition truthyValues : list string :=
  ["true"; "yes"; "y"; "1"; "done"; "completed"; "active"; "visited"].

Definition isBooleanColumn (columnName value : string) : bool :=
  existsb (fun name => Js.includes columnName name) booleanColumnNames
  || Js.arr_includes booleanValues value.

Definition convertToBoolean (value : string) : bool :=
  Js.arr_includes truthyValues value.

(** [!value || value.trim() === ''] guards the conversion; a string is
    falsy exactly when it is empty. *)
Definition smartTypeConversion (value columnName : string) : JsVal :=
  if String.eqb value "" || String.eqb (Js.trim value) "" then VStr ""
  else
    let trimmedValue := Js.trim value in
    let lowerColumnName := Js.toLowerCase columnName in
    let lowerValue := Js.toLowerCase trimmedValue in
    if isBooleanColumn lowerColumnName lowerValue
    then VBool (convertToBoolean lowerValue)
    else VStr trimmedValue.

(** *** Rows *)

Record SheetConfig := {
  apiBaseUrl : string;
  apiKey : string;
  sheetId : string;
  headers : list string;
  dataTypes : gmap string string
}.

(** [row[0] || `row_${index + 1}`] *)
Definition inferredId (row : list string) (index : nat) : string :=
  match row !! 0%nat with
  | Some c => if String.eqb c "" then "row_" +:+ Js.num_to_string (Z.of_nat index + 1) else c
  | None => "row_" +:+ Js.num_to_string (Z.of_nat index + 1)
  end.

(** [let cellValue = ''; if (colIndex < row.length) cellValue = row[colIndex] || ''] *)
Definition cellValue (row : list string) (colIndex : nat) : string :=
  if bool_decide (colIndex < length row)%nat then
    match row !! colIndex with
    | Some c => if String.eqb c "" then "" else c
    | None => ""
    end
  else "".

(** [effectiveHeaders.forEach((header, colIndex) => ...)], from column
    [colIndex] on: each header assigns its property of [rowObject]. *)
Fixpoint fillRow (row : list string) (hs : list string) (colIndex : nat)
    (rowObject : SheetRow) : SheetRow :=
  match hs with
  | [] => rowObject
  | header :: hs' =>
      fillRow row hs' (S colIndex)
        (<[header := smartTypeConversion (cellValue row colIndex) header]> rowObject)
  end.

Definition effectiveHeaders (config : SheetConfig) (sheetHeaders : list string)
  : list string :=
  if bool_decide (0 < length (headers config))%nat then headers config
  else sheetHeaders.

Definition transformRawDataToRows (config : SheetConfig)
    (rawData : list (list string)) : list SheetRow :=
  match rawData with
  | [] => []
  | sheetHeaders :: dataRows =>
      let effectiveHeaders := effectiveHeaders config sheetHeaders in
      imap (fun index row =>
              let rowObject : SheetRow :=
                <["_rowIndex" := VNum (Z.of_nat index + 1)]>
                  (<["_id" := VStr (inferredId row index)]> ∅) in
              fillRow row effectiveHeaders 0 rowObject)
           dataRows
  end.

(** *** Asynchronous methods

    A method runs against a state that holds the client's cache, the clock
    and the network. [net k] is what the [k]-th [fetch] of the run takes
    and yields; [sent] is the log of the requests issued so far. A promise
    that rejects is the result [Throw]. *)

(** The [data] of a REST response: an object that may carry [values]. *)
Record Payload := { values : option (list (list string)) }.

(** The JSON body of an HTTP reply. *)
Record JsonBody := {
  body_success : bool;
  body_data : option Payload;
  body_error : option string
}.

Inductive FetchOutcome : Type :=
| FetchThrows (e : Thrown)
    (* [fetch] or [response.json()] throws [e] *)
| FetchReply (ok : bool) (statusLine : string) (result : JsonBody).
    (* [response.ok], [`HTTP ${status}: ${statusText}`], the parsed body *)

Record UpdateBody := {
  range : string;
  update_values : list (list string);
  valueInputOption : string
}.

Record Request := {
  req_method : string;
  req_url : string;
  req_authorization : string;
  req_body : option UpdateBody
}.

Record ClientState := {
  cache : gmap string (list SheetRow * Z);   (* key to (data, timestamp) *)
  now : Z;                                   (* [Date.now()] *)
  net : nat -> N * FetchOutcome;
  sent : list Request
}.

Definition M (A : Type) : Type := ClientState -> Result A * ClientState.

Definition ret {A} (a : A) : M A := fun s => (Ok a, s).
Definition throw {A} (e : Thrown) : M A := fun s => (Throw e, s).
Definition bind {A B} (m : M A) (k : A -> M B) : M B :=
  fun s => match m s with
           | (Ok a, s') => k a s'
           | (Throw e, s') => (Throw e, s')
           end.
Definition try_catch {A} (m : M A) (handler : Thrown -> M A) : M A :=
  fun s => match m s with
           | (Ok a, s') => (Ok a, s')
           | (Throw e, s') => handler e s'
           end.

#[global] Instance client_ret : MRet M := @ret.
#[global] Instance client_bind : MBind M := fun A B k m => bind m k.

Definition set_cache (c : gmap string (list SheetRow * Z)) (s : ClientState)
  : ClientState :=
  {| cache := c; now := now s; net := net s; sent := sent s |}.

Definition CACHE_TTL : Z := 30000.

(** [string | number] *)
Inductive Identifier : Type :=
| IdStr (s : string)
| IdNum (n : Z).

Definition idVal (i : Identifier) : JsVal :=
  match i with
  | IdStr s => VStr s
  | IdNum n => VNum n
  end.

(** [arr.findIndex(p)] *)
Fixpoint findIndex_from {A} (p : A -> bool) (l : list A) (i : Z) : Z :=
  match l with
  | [] => -1
  | x :: l' => if p x then i else findIndex_from p l' (i + 1)
  end.
Definition findIndex {A} (p : A -> bool) (l : list A) : Z := findIndex_from p l 0.

(** [arr.indexOf(x)] on an array of strings. *)
Definition indexOf (l : list string) (x : string) : Z :=
  findIndex (String.eqb x) l.

Record UpdateOperation := {
  identifier : Identifier;
  field : string;
  newValue : JsVal;
  oldValue : JsVal          (* [VUndef] when not provided *)
}.

(** [String(n)] for a number [n]. A safe integer prints in decimal
    notation. Any other number prints rounded digits, and in exponent
    notation from [1e21] on: its text is left to [numberToString], the
    conversion [String(Number(v) || 0)], which is [String(v)] for every
    number [v] ([0] prints as [0] either way). *)
Definition numberText (numberToString : JsVal -> string) (n : Z) : string :=
  if Js.isSafeInteger n then Js.num_to_string n else numberToString (VNum n).

(** [`${identifier}`] *)
Definition idToString (numberToString : JsVal -> string) (i : Identifier)
  : string :=
  match i with
  | IdStr s => s
  | IdNum n => numberText numberToString n
  end.

(** The text of a built-in object, in the form that V8 and JavaScriptCore
    print (ECMAScript fixes the shape of the text of a built-in function,
    not its white space). *)
Definition builtinText (m : ProtoMember) : string :=
  match m with
  | PProto => "[object Object]"
  | PConstructor => "function Object() { [native code] }"
  | _ => "function " +:+ memberName m +:+ "() { [native code] }"
  end.

(** [String(v)] *)
Definition toStringJs (numberToString : JsVal -> string) (v : JsVal) : string :=
  match v with
  | VUndef => "undefined"
  | VNull => "null"
  | VBool true => "true"
  | VBool false => "false"
  | VNum n => numberText numberToString n
  | VStr s => s
  | VBuiltin m => builtinText m
  end.

(** [Boolean(v)] *)
Definition toBooleanJs (v : JsVal) : bool :=
  match v with
  | VUndef | VNull => false
  | VBool b => b
  | VNum n => negb (n =? 0)
  | VStr s => negb (String.eqb s "")
  | VBuiltin _ => true
  end.

(** *** Methods *)

Section Methods.

(** The two conversions of [formatValue] that go through floating point
    and date parsing stay abstract: [String(Number(value) || 0)] and
    [new Date(value).toISOString().split('T')[0]] (which throws on an
    invalid date). *)
Variable numberToString : JsVal -> string.
Variable dateToISODate : JsVal -> Result string.

Variable config : SheetConfig.

(** [dataType] is what [this.config.dataTypes[field]] yields: the
    configured type, or nothing. A member of [Object.prototype] that the
    read falls back to is no string, so that it selects the [default] of
    the [switch], as a field without a type does. *)
Definition formatValue (value : JsVal) (dataType : option string)
  : Result string :=
  match value with
  | VNull | VUndef => Ok ""
  | _ =>
      let dt := default "" dataType in
      if String.eqb dt "number" then Ok (numberToString value)
      else if String.eqb dt "date" then dateToISODate value
      else if String.eqb dt "email"
           then Ok (Js.trim (Js.toLowerCase (toStringJs numberToString value)))
      else if String.eqb dt "boolean"
           then Ok (if toBooleanJs value then "true" else "false")
      else if String.eqb dt "url"
           then Ok (Js.trim (toStringJs numberToString value))
      else Ok (toStringJs numberToString value)
  end.

(** [fetch(url, ...)] and [response.json()], then the wrapping of
    [makeRequest]: every failure is rethrown as
    [Error(`API request failed: ...`)]. *)
Definition makeRequest (method endpoint : string) (body : option UpdateBody)
  : M (ApiResponse Payload) :=
  fun s =>
    let request := {| req_method := method;
                      req_url := apiBaseUrl config +:+ endpoint;
                      req_authorization := "Bearer " +:+ apiKey config;
                      req_body := body |} in
    let '(delay, outcome) := net s (length (sent s)) in
    let s' := {| cache := cache s; now := now s + Z.of_N delay;
                 net := net s; sent := sent s ++ [request] |} in
    let failed (e : Thrown) : Result (ApiResponse Payload) :=
      Throw (ErrorObj ("API request failed: " +:+ errorMessage e "Unknown error")) in
    match outcome with
    | FetchThrows e => (failed e, s')
    | FetchReply ok statusLine result =>
        if negb ok
        then (failed (ErrorObj (Js.str_or (body_error result) statusLine)), s')
        else if body_success result
        then (Ok {| success := true; data := body_data result; error := None;
                    message := None; timestamp := None |}, s')
        else (Ok {| success := false; data := None; error := body_error result;
                    message := None; timestamp := None |}, s')
    end.

Definition dataEndpoint : string :=
  "/sheets/" +:+ sheetId config +:+ "/data?range=A1:Z1000".

Definition updateEndpoint : string :=
  "/sheets/" +:+ sheetId config +:+ "/update".

Definition noDataError : Thrown :=
  ErrorObj "No data found in the specified sheet. Please check your sheet ID and ensure the sheet contains data.".

Definition getAllData : M (list SheetRow) :=
  fun s =>
    let fetchData : M (list SheetRow) :=
      response ← makeRequest "GET" dataEndpoint None;
      match data response ≫= values with
      | None | Some [] => throw noDataError
      | Some vs =>
          let rows := transformRawDataToRows config vs in
          fun s' =>
            (Ok rows, set_cache (<["all_data" := (rows, now s')]> (cache s')) s')
      end in
    match cache s !! "all_data" with
    | Some (cached_data, cached_timestamp) =>
        if now s - cached_timestamp <? CACHE_TTL then (Ok cached_data, s)
        else fetchData s
    | None => fetchData s
    end.

(** [this.config.headers[0]] used as a property key: [undefined] becomes
    the key ["undefined"]. *)
Definition primaryKey : string :=
  match headers config with
  | h :: _ => h
  | [] => "undefined"
  end.

Definition rowMatchesId (ident : Identifier) (row : SheetRow) : bool :=
  strict_eq (getProp row "_id") (idVal ident)
  || strict_eq (getProp row primaryKey) (idVal ident).

Definition getRowById (ident : Identifier) : M (option SheetRow) :=
  allData ← getAllData;
  mret (find (rowMatchesId ident) allData).

(** [Object.values(row).some(value => value === identifier)] *)
Definition someValueIs (ident : Identifier) (row : SheetRow) : bool :=
  existsb (fun kv => strict_eq kv.2 (idVal ident)) (map_to_list row).

Definition rowMatchesIdentifier (ident : Identifier) (row : SheetRow) : bool :=
  rowMatchesId ident row || someValueIs ident row.

Definition findRowByIdentifier (ident : Identifier) : M Z :=
  allData ← getAllData;
  mret (findIndex (rowMatchesIdentifier ident) allData).

(** [allData[rowIndex][header]] with [header = this.config.headers[columnIndex]]:
    reading a property of a row that does not exist throws a [TypeError]; a
    header that does not exist is the key ["undefined"]. *)
Definition getCellValue (rowIndex columnIndex : Z) : M JsVal :=
  allData ← getAllData;
  if (Z.of_nat (length allData) <=? rowIndex)
     || (Z.of_nat (length (headers config)) <=? columnIndex)
  then mret VNull
  else
    let header := if columnIndex <? 0 then None
                  else headers config !! Z.to_nat columnIndex in
    let row := if rowIndex <? 0 then None else allData !! Z.to_nat rowIndex in
    match row with
    | Some row => mret (getProp row (default "undefined" header))
    | None => throw (ErrorObj "Cannot read properties of undefined")
    end.

Definition invalidateCache : M unit :=
  fun s => (Ok tt, set_cache ∅ s).

(** Lifts a pure computation that may throw. *)
Definition lift {A} (r : Result A) : M A := fun s => (r, s).

Definition failure {T} (e : Thrown) : ApiResponse T :=
  {| success := false; data := None;
     error := Some (errorMessage e "Unknown error");
     message := None; timestamp := None |}.

(** The body of the [try] block, then the [catch]. [getA1Notation] is
    reached with a column index that is not negative, where its loop
    terminates (the [None] of the fuel has no counterpart in the code). *)
Definition updateField (params : UpdateOperation) : M (ApiResponse Payload) :=
  try_catch
    (rowIndex ← findRowByIdentifier (identifier params);
     let columnIndex := indexOf (headers config) (field params) in
     if rowIndex =? -1 then
       throw (ErrorObj ("Row with identifier "
                        +:+ idToString numberToString (identifier params)
                        +:+ " not found"))
     else if columnIndex =? -1 then
       throw (ErrorObj ("Field " +:+ field params +:+ " not found in headers"))
     else
       (if negb (strict_eq (oldValue params) VUndef) then
          currentValue ← getCellValue rowIndex columnIndex;
          if negb (strict_eq currentValue (oldValue params)) then
            throw (ErrorObj "Optimistic lock failed: value was changed by another user")
          else mret tt
        else mret tt);;
       range ← lift (match getA1Notation (rowIndex + 1) columnIndex with
                     | Some r => Ok r
                     | None => Throw NonError
                     end);
       formatted ← lift (formatValue (newValue params)
                                     (dataTypes config !! field params));
       response ← makeRequest "POST" updateEndpoint
                    (Some {| range := range;
                             update_values := [[formatted]];
                             valueInputOption := "USER_ENTERED" |});
       invalidateCache;;
       mret response)
    (fun e => mret (failure e)).

End Methods.

(** *** Adding rows and searching *)

(** [arr.join(sep)] on an array of strings. *)
Fixpoint join (sep : string) (l : list string) : string :=
  match l with
  | [] => ""
  | [x] => x
  | x :: l' => x +:+ sep +:+ join sep l'
  end.

(** [arr.map(f)] where [f] may throw: the first throw ends the map. *)
Fixpoint mapResult {A B} (f : A -> Result B) (l : list A) : Result (list B) :=
  match l with
  | [] => Ok []
  | x :: l' =>
      match f x with
      | Throw e => Throw e
      | Ok y =>
          match mapResult f l' with
          | Throw e => Throw e
          | Ok ys => Ok (y :: ys)
          end
      end
  end.

(** A [Record<string, any>] passed by a caller, as the list of its entries
    in the order of [Object.entries]; the keys of an object are distinct. *)
Abbreviation RowData := (list (string * JsVal)).

(** [data[key]]: the entry of the object itself, else the member of
    [Object.prototype] of that name, else [undefined]. *)
Definition dataGet (data : RowData) (key : string) : JsVal :=
  match find (fun kv => String.eqb kv.1 key) data with
  | Some kv => kv.2
  | None => default VUndef (objectPrototype key)
  end.

(** [v || ''] *)
Definition orEmpty (v : JsVal) : JsVal :=
  if toBooleanJs v then v else VStr "".

Inductive Operator : Type :=
| Equals
| Contains
| StartsWith
| GreaterThan
| LessThan.

(** [SearchQuery]: every property is optional; an absent [value] is
    [VUndef]. *)
Record SearchQuery := {
  query_field : option string;
  query_value : JsVal;
  query_operator : option Operator
}.

(** Truthiness of an optional string: [undefined] and [''] are falsy. *)
Definition truthyString (o : option string) : bool :=
  match o with
  | Some s => negb (String.eqb s "")
  | None => false
  end.

Section MoreMethods.

Variable numberToString : JsVal -> string.
Variable dateToISODate : JsVal -> Result string.

(** [Number(a) < Number(b)], a comparison of floating-point numbers that
    stays abstract. *)
Variable numberLt : JsVal -> JsVal -> bool.

Variable config : SheetConfig.

(** The cells of the row that [addRow] sends: one per configured header,
    in the order of the headers. *)
Definition rowValues (data : RowData) : Result (list string) :=
  mapResult
    (fun header =>
       formatValue numberToString dateToISODate
                   (orEmpty (dataGet data header)) (dataTypes config !! header))
    (headers config).

Definition addRow (data : RowData) : M (ApiResponse Payload) :=
  try_catch
    (values ← lift (rowValues data);
     response ← makeRequest config "PUT" (updateEndpoint config)
                  (Some {| range := "A:A";
                           update_values := [values];
                           valueInputOption := "USER_ENTERED" |});
     invalidateCache;;
     mret response)
    (fun e => mret (failure e)).

(** The predicate of [data.filter] in [filterData]. *)
Definition rowPasses (query : SearchQuery) (row : SheetRow) : bool :=
  let fieldValue := match query_field query with
                    | Some f => if String.eqb f "" then VNull else getProp row f
                    | None => VNull
                    end in
  let searchValue := query_value query in
  if negb (toBooleanJs fieldValue) && negb (toBooleanJs searchValue) then true
  else
    let contains :=
      Js.includes (Js.toLowerCase (toStringJs numberToString fieldValue))
                  (Js.toLowerCase (toStringJs numberToString searchValue)) in
    match query_operator query with
    | Some Equals => strict_eq fieldValue searchValue
    | Some Contains => contains
    | Some StartsWith =>
        String.prefix (Js.toLowerCase (toStringJs numberToString searchValue))
                      (Js.toLowerCase (toStringJs numberToString fieldValue))
    | Some GreaterThan => numberLt searchValue fieldValue
    | Some LessThan => numberLt fieldValue searchValue
    | None => contains
    end.

Definition filterData (data : list SheetRow) (query : SearchQuery)
  : list SheetRow :=
  if negb (truthyString (query_field query))
     && negb (toBooleanJs (query_value query))
  then data
  else List.filter (rowPasses query) data.

Definition search (query : SearchQuery) : M (list SheetRow) :=
  allData ← getAllData config;
  mret (filterData allData query).

(** [getHeaders] returns a copy of the configured headers. *)
Definition getHeaders : list string := headers config.

(** [this.config.dataTypes[fieldName] || 'text']: the configured type when
    it is not empty; for a field without a type of its own the member of
    [Object.prototype] of that name, if there is one; else ['text']. *)
Definition getFieldType (fieldName : string) : JsVal :=
  match dataTypes config !! fieldName with
  | Some t => VStr (if String.eqb t "" then "text" else t)
  | None => default (VStr "text") (objectPrototype fieldName)
  end.

End MoreMethods.

End SheetClient.

(** ** Regular expressions

    The fragment of JavaScript regular expressions that the validation
    uses: character classes, concatenation, alternation and repetition,
    matched against a whole string ([^...$]). [test] is decided with
    derivatives. *)

Module Regex.

Inductive re : Type :=
| Never                          (* matches nothing *)
| Eps                            (* the empty string *)
| Class (p : ascii -> bool)      (* one character of a class *)
| Cat (r1 r2 : re)
| Alt (r1 r2 : re)
| Star (r : re).

(** [r+] *)
Definition Plus (r : re) : re := Cat r (Star r).

Fixpoint nullable (r : re) : bool :=
  match r with
  | Never => false
  | Eps => true
  | Class _ => false
  | Cat r1 r2 => nullable r1 && nullable r2
  | Alt r1 r2 => nullable r1 || nullable r2
  | Star _ => true
  end.

Fixpoint deriv (a : ascii) (r : re) : re :=
  match r with
  | Never => Never
  | Eps => Never
  | Class p => if p a then Eps else Never
  | Cat r1 r2 =>
      if nullable r1 then Alt (Cat (deriv a r1) r2) (deriv a r2)
      else Cat (deriv a r1) r2
  | Alt r1 r2 => Alt (deriv a r1) (deriv a r2)
  | Star r => Cat (deriv a r) (Star r)
  end.

(** [/^r$/.test(s)] *)
Fixpoint test (r : re) (s : string) : bool :=
  match s with
  | EmptyString => nullable r
  | String a s' => test (deriv a r) s'
  end.

(** The strings that a regular expression denotes. *)
Inductive lang : re -> string -> Prop :=
| lang_eps : lang Eps ""
| lang_class p a : p a = true -> lang (Class p) (String a "")
| lang_cat r1 r2 s1 s2 : lang r1 s1 -> lang r2 s2 -> lang (Cat r1 r2) (s1 +:+ s2)
| lang_alt_l r1 r2 s : lang r1 s -> lang (Alt r1 r2) s
| lang_alt_r r1 r2 s : lang r2 s -> lang (Alt r1 r2) s
| lang_star_nil r : lang (Star r) ""
| lang_star_cons r s1 s2 :
    lang r s1 -> lang (Star r) s2 -> lang (Star r) (s1 +:+ s2).

End Regex.

(** ** [SheetApi] ([src/api/sheetApi.ts]) *)

Module SheetApi.

Import SheetClient.

Section Methods.

Variable config : SheetConfig.

(** The instant of [new Date()]. *)
Definition currentTime : M Z := fun s => (Ok (now s), s).

Definition noDataMessage : string :=
  "No data found in the sheet. Please ensure your Google Sheet contains data and check your configuration.".

Definition getAllData : M (ApiResponse (list SheetRow)) :=
  try_catch
    (rows ← SheetClient.getAllData config;
     if bool_decide (length rows = 0%nat) then
       ts ← currentTime;
       mret {| success := false; data := None; error := Some noDataMessage;
               message := None; timestamp := Some ts |}
     else
       ts ← currentTime;
       mret {| success := true; data := Some rows; error := None;
               message := Some ("Successfully retrieved "
                                +:+ Js.num_to_string (Z.of_nat (length rows))
                                +:+ " rows from Google Sheets");
               timestamp := Some ts |})
    (fun e =>
       let errorMessage := errorMessage e "Failed to retrieve data from Google Sheets" in
       ts ← currentTime;
       mret {| success := false; data := None;
               error := Some ("Google Sheets API Error: " +:+ errorMessage);
               message := None; timestamp := Some ts |}).

(** [data] is the row or [null]. *)
Definition getRow (ident : Identifier) : M (ApiResponse (option SheetRow)) :=
  try_catch
    (row ← SheetClient.getRowById config ident;
     ts ← currentTime;
     mret {| success := true; data := Some row; error := None;
             message := Some (match row with
                              | Some _ => "Row found"
                              | None => "Row not found"
                              end);
             timestamp := Some ts |})
    (fun e =>
       ts ← currentTime;
       mret {| success := false; data := None;
               error := Some (errorMessage e "Failed to retrieve row");
               message := None; timestamp := Some ts |}).

End Methods.


(** *** Search, writes and validation *)

Section MoreMethods.

Variable numberToString : JsVal -> string.
Variable dateToISODate : JsVal -> Result string.
Variable numberLt : JsVal -> JsVal -> bool.

(** The checks of [isValidType] that go through [Number], [Date.parse] and
    [new URL] stay abstract: [!isNaN(Number(s)) && s !== ''],
    [!isNaN(Date.parse(s))], and whether [new URL(s)] returns. *)
Variable isValidNumber : string -> bool.
Variable isValidDate : string -> bool.
Variable isValidUrl : string -> bool.

Variable config : SheetConfig.

Definition search (query : SearchQuery) : M (ApiResponse (list SheetRow)) :=
  try_catch
    (results ← SheetClient.search numberToString numberLt config query;
     ts ← currentTime;
     mret {| success := true; data := Some results; error := None;
             message := Some ("Found "
                              +:+ Js.num_to_string (Z.of_nat (length results))
                              +:+ " matching rows");
             timestamp := Some ts |})
    (fun e =>
       ts ← currentTime;
       mret {| success := false; data := None;
               error := Some (errorMessage e "Search failed");
               message := None; timestamp := Some ts |}).

(** [[^\s@]]: any character but white space and [@]. *)
Definition emailAtom : Regex.re :=
  Regex.Class (fun a => negb (Js.is_ws a || Ascii.eqb a "@")).

(** [/^[^\s@]+@[^\s@]+\.[^\s@]+$/] *)
Definition emailPattern : Regex.re :=
  Regex.Cat (Regex.Plus emailAtom)
    (Regex.Cat (Regex.Class (Ascii.eqb "@"))
       (Regex.Cat (Regex.Plus emailAtom)
          (Regex.Cat (Regex.Class (Ascii.eqb "."))
             (Regex.Plus emailAtom)))).

Definition isValidType (value : JsVal) (expectedType : string) : bool :=
  let stringValue := Js.trim (toStringJs numberToString value) in
  if String.eqb expectedType "email" then Regex.test emailPattern stringValue
  else if String.eqb expectedType "number" then isValidNumber stringValue
  else if String.eqb expectedType "date" then isValidDate stringValue
  else if String.eqb expectedType "url" then isValidUrl stringValue
  else if String.eqb expectedType "boolean"
       then Js.arr_includes ["true"; "false"; "yes"; "no"; "1"; "0"]
                            (Js.toLowerCase stringValue)
  else true.

Record ValidationError := {
  error_field : string;
  error_message : string;
  error_code : string
}.

(** The error that [validateRowData] pushes for the primary field. *)
Definition requiredErrors (data : RowData) : list ValidationError :=
  match getHeaders config with
  | [] => []
  | primaryField :: _ =>
      let v := dataGet data primaryField in
      if negb (toBooleanJs v)
         || String.eqb (Js.trim (toStringJs numberToString v)) ""
      then [ {| error_field := primaryField;
                error_message := primaryField +:+ " is required";
                error_code := "REQUIRED_FIELD" |} ]
      else []
  end.

(** The error that [validateRowData] pushes for one entry of the data.
    The field type is a string, or a member of [Object.prototype]; such a
    member equals no label of the [switch] of [isValidType], and neither
    does its text, under which it is passed here. *)
Definition typeErrors (entry : string * JsVal) : list ValidationError :=
  let '(field, value) := entry in
  if negb (strict_eq value VNull) && negb (strict_eq value VUndef)
     && negb (String.eqb (Js.trim (toStringJs numberToString value)) "")
  then
    let fieldType := toStringJs numberToString (getFieldType config field) in
    if negb (isValidType value fieldType)
    then [ {| error_field := field;
              error_message := field +:+ " must be a valid " +:+ fieldType;
              error_code := "INVALID_TYPE" |} ]
    else []
  else [].

(** [{ isValid, errors }] *)
Definition validateRowData (data : RowData) : bool * list ValidationError :=
  let errors := (requiredErrors data ++ flat_map typeErrors data)%list in
  (bool_decide (length errors = 0%nat), errors).

Definition addRow (data : RowData) : M (ApiResponse bool) :=
  try_catch
    (let validation := validateRowData data in
     if negb validation.1 then
       ts ← currentTime;
       mret {| success := false; data := None;
               error := Some ("Validation failed: "
                              +:+ join ", " (map error_message validation.2));
               message := None; timestamp := Some ts |}
     else
       result ← SheetClient.addRow numberToString dateToISODate config data;
       ts ← currentTime;
       if success result then
         mret {| success := true; data := Some true; error := None;
                 message := Some "Row added successfully"; timestamp := Some ts |}
       else
         mret {| success := false; data := None;
                 error := Some (Js.str_or (error result) "Failed to add row");
                 message := None; timestamp := Some ts |})
    (fun e =>
       ts ← currentTime;
       mret {| success := false; data := None;
               error := Some (errorMessage e "Failed to add row");
               message := None; timestamp := Some ts |}).

Definition updateField (params : UpdateOperation) : M (ApiResponse bool) :=
  try_catch
    (result ← SheetClient.updateField numberToString dateToISODate config params;
     ts ← currentTime;
     if success result then
       mret {| success := true; data := Some true; error := None;
               message := Some "Field updated successfully"; timestamp := Some ts |}
     else
       mret {| success := false; data := None;
               error := Some (Js.str_or (error result) "Failed to update field");
               message := None; timestamp := Some ts |})
    (fun e =>
       ts ← currentTime;
       mret {| success := false; data := None;
               error := Some (errorMessage e "Failed to update field");
               message := None; timestamp := Some ts |}).

(** The [data] of the response of [bulkUpdate]. *)
Record BulkSummary := {
  successful : nat;
  failed : nat;
  errors : list string
}.

(** [bulkUpdate], given what [this.client.bulkUpdate(changes)] does: the
    client runs the updates concurrently ([Promise.all]), and its outcome
    is a parameter here. *)
Definition bulkUpdate (clientBulkUpdate : M (list (ApiResponse Payload)))
  : M (ApiResponse BulkSummary) :=
  try_catch
    (results ← clientBulkUpdate;
     let successful := length (List.filter (fun r => success r) results) in
     let failed := length (List.filter (fun r => negb (success r)) results) in
     let errors := map (fun r => Js.str_or (error r) "Unknown error")
                       (List.filter (fun r => negb (success r)) results) in
     ts ← currentTime;
     mret {| success := true;
             data := Some {| successful := successful; failed := failed;
                             errors := errors |};
             error := None;
             message := Some ("Bulk update completed: "
                              +:+ Js.num_to_string (Z.of_nat successful)
                              +:+ " successful, "
                              +:+ Js.num_to_string (Z.of_nat failed) +:+ " failed");
             timestamp := Some ts |})
    (fun e =>
       ts ← currentTime;
       mret {| success := false; data := None;
               error := Some (errorMessage e "Bulk update failed");
               message := None; timestamp := Some ts |}).

End MoreMethods.

End SheetApi.

(** ** [ApiManager] ([src/api/apiManager.ts])

    The manager is an object with three fields; its [async] methods
    interleave at their [await]s. A run is a sequence of events of the
    event loop: a caller invokes a method, which runs up to its first
    [await]; a suspended call is resumed once what it awaits has settled;
    an underlying [sheetApi.getAllData()] request settles; the clock
    advances; a timer fires [cleanup]. *)

Module ApiManager.

Abbreviation DataResponse := (ApiResponse (list SheetRow)).

(** The result type of [quickConnectionTest]. *)
Record ConnectionStatus := {
  connected : bool;
  connection_error : option string;
  rowCount : option Z
}.

(** The cache holds values of type [any]: data responses and connection
    statuses. *)
Inductive CachedData : Type :=
| CData (r : DataResponse)
| CStatus (c : ConnectionStatus).

Record CachedResponse := {
  data : CachedData;
  timestamp : Z;
  ttl : Z
}.

Inductive Endpoint : Type :=
| GetAllData
| QuickTest.

#[global] Instance Endpoint_eq_dec : EqDecision Endpoint.
Proof. solve_decision. Defined.

Definition cacheKey (e : Endpoint) : string :=
  match e with
  | GetAllData => "getAllData"
  | QuickTest => "quickTest"
  end.

(** A promise handed to [pendingRequests]: for [GetAllData] the promise of
    the underlying request number [request] itself, for [QuickTest] the
    promise of the [performQuickTest()] call that wraps it. *)
Record PromiseRef := {
  kind : Endpoint;
  request : nat
}.

Record PendingRequest := {
  promise : PromiseRef;
  pending_timestamp : Z
}.

(** The fields of the object. *)
Record Manager := {
  cache : gmap string CachedResponse;
  pendingRequests : gmap string PendingRequest;
  lastRequestTime : Z
}.

Definition MIN_REQUEST_INTERVAL : Z := 1000.
Definition DEFAULT_TTL : Z := 30000.

(** Where a suspended call resumes. *)
Inductive Continuation : Type :=
| AwaitPending (p : PromiseRef)
    (* [return await pending.promise] *)
| AwaitTimer (wake : Z)
    (* in [enforceRateLimit]: [await new Promise(resolve => setTimeout(resolve, waitTime))] *)
| AwaitRateLimit
    (* [await this.enforceRateLimit()], which has settled *)
| AwaitRequest (p : PromiseRef)
    (* in [makeNewRequest] / [makeQuickTestRequest]: [await requestPromise] *)
| AwaitOwn (o : Result CachedData).
    (* [await requestPromise] in the public method; the inner method has
       settled with [o] *)

Record Call := {
  endpoint : Endpoint;
  continuation : Continuation
}.

Record State := {
  manager : Manager;
  clock : Z;                                  (* [Date.now()] *)
  started : nat;                              (* [sheetApi.getAllData()] calls so far *)
  settled : gmap nat (Result DataResponse);   (* the requests that have settled *)
  calls : gmap nat Call;                      (* the suspended calls *)
  nextCall : nat;
  returned : gmap nat (Result CachedData)     (* the calls that have settled *)
}.

Inductive Event : Type :=
| Tick (t : Z)                                (* the clock reaches [t] *)
| Invoke (e : Endpoint)                       (* [getAllData()] or [quickConnectionTest()] is called *)
| Resume (c : nat)                            (* the suspended call [c] continues *)
| Settle (r : nat) (o : Result DataResponse)  (* the request [r] settles with [o] *)
| ClearCache                                  (* [clearCache()] *)
| ClearCacheEntry (key : string)              (* [clearCacheEntry(key)] *)
| GetCacheStats                               (* [getCacheStats()] *)
| Cleanup.                                    (* the interval timer runs [cleanup()] *)

(** *** Methods on the fields *)

(** [customTtl || cached.ttl]: an absent or zero [customTtl] is falsy. *)
Definition effectiveTtl (customTtl : option Z) (cached : CachedResponse) : Z :=
  match customTtl with
  | Some c => if c =? 0 then ttl cached else c
  | None => ttl cached
  end.

Definition getCachedResponse (key : string) (customTtl : option Z) (now : Z)
    (m : Manager) : option CachedData * Manager :=
  match cache m !! key with
  | None => (None, m)
  | Some cached =>
      let ttl := effectiveTtl customTtl cached in
      let isExpired := ttl <? now - timestamp cached in
      if isExpired then
        (None, {| cache := delete key (cache m);
                  pendingRequests := pendingRequests m;
                  lastRequestTime := lastRequestTime m |})
      else (Some (data cached), m)
  end.

Definition setCacheEntry (key : string) (d : CachedData) (ttl : Z) (now : Z)
    (m : Manager) : Manager :=
  {| cache := <[key := {| data := d; timestamp := now; ttl := ttl |}]> (cache m);
     pendingRequests := pendingRequests m;
     lastRequestTime := lastRequestTime m |}.

Definition setPending (key : string) (p : PendingRequest) (m : Manager) : Manager :=
  {| cache := cache m;
     pendingRequests := <[key := p]> (pendingRequests m);
     lastRequestTime := lastRequestTime m |}.

Definition deletePending (key : string) (m : Manager) : Manager :=
  {| cache := cache m;
     pendingRequests := delete key (pendingRequests m);
     lastRequestTime := lastRequestTime m |}.

Definition setLastRequestTime (t : Z) (m : Manager) : Manager :=
  {| cache := cache m;
     pendingRequests := pendingRequests m;
     lastRequestTime := t |}.

Definition clearCache (m : Manager) : Manager :=
  {| cache := ∅;
     pendingRequests := pendingRequests m;
     lastRequestTime := lastRequestTime m |}.

Definition clearCacheEntry (key : string) (m : Manager) : Manager :=
  {| cache := delete key (cache m);
     pendingRequests := pendingRequests m;
     lastRequestTime := lastRequestTime m |}.

Definition isExpired (now : Z) (cached : CachedResponse) : Prop :=
  now - timestamp cached > ttl cached.

Definition isStale (now : Z) (pending : PendingRequest) : Prop :=
  now - pending_timestamp pending > 30000.

#[global] Instance isExpired_dec now cached : Decision (isExpired now cached).
Proof. unfold isExpired. apply _. Defined.

#[global] Instance isStale_dec now pending : Decision (isStale now pending).
Proof. unfold isStale. apply _. Defined.

Definition cleanup (now : Z) (m : Manager) : Manager :=
  {| cache := filter (fun kv => ~ isExpired now kv.2) (cache m);
     pendingRequests := filter (fun kv => ~ isStale now kv.2) (pendingRequests m);
     lastRequestTime := lastRequestTime m |}.

(** [performQuickTest]: the status computed from what the underlying
    request settles with; it never rejects. *)
Definition performQuickTest (o : Result DataResponse) : ConnectionStatus :=
  match o with
  | Ok result =>
      match Types.data result with
      | Some rows =>
          if success result
          then {| connected := true; connection_error := None;
                  rowCount := Some (Z.of_nat (length rows)) |}
          else {| connected := false;
                  connection_error := Some (Js.str_or (error result) "Unknown error");
                  rowCount := None |}
      | None =>
          {| connected := false;
             connection_error := Some (Js.str_or (error result) "Unknown error");
             rowCount := None |}
      end
  | Throw e =>
      {| connected := false;
         connection_error := Some (errorMessage e "Connection failed");
         rowCount := None |}
  end.

(** What the promise [p] has settled with, if it has. *)
Definition promiseOutcome (settled : gmap nat (Result DataResponse))
    (p : PromiseRef) : option (Result CachedData) :=
  match settled !! request p with
  | None => None
  | Some o =>
      Some match kind p with
           | GetAllData =>
               match o with
               | Ok result => Ok (CData result)
               | Throw e => Throw e
               end
           | QuickTest => Ok (CStatus (performQuickTest o))
           end
  end.

(** The custom TTL that a method passes to [getCachedResponse]. *)
Definition customTtl (e : Endpoint) : option Z :=
  match e with
  | GetAllData => None
  | QuickTest => Some 10000
  end.

(** [makeNewRequest] caches successful responses only ([if
    (result.success)]); [makeQuickTestRequest] caches every result for 10
    seconds. *)
Definition cacheResult (e : Endpoint) (key : string) (d : CachedData) (now : Z)
    (m : Manager) : Manager :=
  match e with
  | GetAllData =>
      match d with
      | CData result =>
          if success result then setCacheEntry key d DEFAULT_TTL now m else m
      | CStatus _ => m
      end
  | QuickTest => setCacheEntry key d 10000 now m
  end.

(** *** The event loop *)

Definition withManager (m : Manager) (s : State) : State :=
  {| manager := m; clock := clock s; started := started s; settled := settled s;
     calls := calls s; nextCall := nextCall s; returned := returned s |}.

(** The call [c] suspends (or stays suspended) at [k]. *)
Definition suspend (c : nat) (e : Endpoint) (k : Continuation) (s : State) : State :=
  {| manager := manager s; clock := clock s; started := started s;
     settled := settled s;
     calls := <[c := {| endpoint := e; continuation := k |}]> (calls s);
     nextCall := nextCall s; returned := returned s |}.

(** The call [c] settles with [o]. *)
Definition finish (c : nat) (o : Result CachedData) (s : State) : State :=
  {| manager := manager s; clock := clock s; started := started s;
     settled := settled s; calls := delete c (calls s);
     nextCall := nextCall s; returned := <[c := o]> (returned s) |}.

(** [enforceRateLimit] up to its [await]: when the last request is less
    than a second old it sets a timer for the rest of the second;
    otherwise it records the time of the request at once and returns. *)
Definition enforceRateLimit (now : Z) (m : Manager) : Continuation * Manager :=
  let timeSinceLastRequest := now - lastRequestTime m in
  if timeSinceLastRequest <? MIN_REQUEST_INTERVAL then
    let waitTime := MIN_REQUEST_INTERVAL - timeSinceLastRequest in
    (AwaitTimer (now + waitTime), m)
  else (AwaitRateLimit, setLastRequestTime now m).

(** [getAllData()] and [quickConnectionTest()] up to their first [await];
    the two methods differ in their key, in the custom TTL of the read and
    in the request they go on to make. The cache is read; on a miss the
    call awaits the pending promise of its key if there is one; otherwise
    it enters [enforceRateLimit]. *)
Definition invoke (e : Endpoint) (s : State) : State :=
  let cacheKey := cacheKey e in
  let c := nextCall s in
  let '(cached, m) := getCachedResponse cacheKey (customTtl e) (clock s) (manager s) in
  let s := {| manager := m; clock := clock s; started := started s;
              settled := settled s; calls := calls s;
              nextCall := S (nextCall s); returned := returned s |} in
  match cached with
  | Some d => finish c (Ok d) s
  | None =>
      match pendingRequests m !! cacheKey with
      | Some pending => suspend c e (AwaitPending (promise pending)) s
      | None =>
          let '(k, m) := enforceRateLimit (clock s) m in
          suspend c e k (withManager m s)
      end
  end.

Definition getAllData : State -> State := invoke GetAllData.
Definition quickConnectionTest : State -> State := invoke QuickTest.

(** [makeNewRequest] and [makeQuickTestRequest] up to their [await]: the
    underlying request starts and its promise is stored as pending. *)
Definition startRequest (c : nat) (e : Endpoint) (s : State) : State :=
  let requestPromise := {| kind := e; request := started s |} in
  let m := setPending (cacheKey e)
             {| promise := requestPromise; pending_timestamp := clock s |}
             (manager s) in
  {| manager := m; clock := clock s; started := S (started s);
     settled := settled s;
     calls := <[c := {| endpoint := e; continuation := AwaitRequest requestPromise |}]>
                (calls s);
     nextCall := nextCall s; returned := returned s |}.

Definition makeNewRequest (c : nat) : State -> State := startRequest c GetAllData.
Definition makeQuickTestRequest (c : nat) : State -> State := startRequest c QuickTest.

(** The suspended call [c] continues, if what it awaits has settled. *)
Definition resume (c : nat) (s : State) : option State :=
  match calls s !! c with
  | None => None
  | Some call =>
      let e := endpoint call in
      let cacheKey := cacheKey e in
      match continuation call with
      | AwaitPending p =>
          match promiseOutcome (settled s) p with
          | Some o => Some (finish c o s)
          | None => None
          end
      | AwaitTimer wake =>
          if wake <=? clock s
          then Some (suspend c e AwaitRateLimit
                       (withManager (setLastRequestTime (clock s) (manager s)) s))
          else None
      | AwaitRateLimit =>
          Some match e with
               | GetAllData => makeNewRequest c s
               | QuickTest => makeQuickTestRequest c s
               end
      | AwaitRequest p =>
          match promiseOutcome (settled s) p with
          | Some (Ok result) =>
              let m := cacheResult e cacheKey result (clock s) (manager s) in
              let m := deletePending cacheKey m in
              Some (suspend c e (AwaitOwn (Ok result)) (withManager m s))
          | Some (Throw error) =>
              let m := deletePending cacheKey (manager s) in
              Some (suspend c e (AwaitOwn (Throw error)) (withManager m s))
          | None => None
          end
      | AwaitOwn (Ok result) => Some (finish c (Ok result) s)
      | AwaitOwn (Throw error) =>
          let m := deletePending cacheKey (manager s) in
          Some (finish c (Throw error) (withManager m s))
      end
  end.

Definition step (ev : Event) (s : State) : option State :=
  match ev with
  | Tick t =>
      if clock s <=? t
      then Some {| manager := manager s; clock := t; started := started s;
                   settled := settled s; calls := calls s;
                   nextCall := nextCall s; returned := returned s |}
      else None
  | Invoke GetAllData => Some (getAllData s)
  | Invoke QuickTest => Some (quickConnectionTest s)
  | Resume c => resume c s
  | Settle r o =>
      if bool_decide (r < started s)%nat then
        match settled s !! r with
        | None =>
            Some {| manager := manager s; clock := clock s; started := started s;
                    settled := <[r := o]> (settled s); calls := calls s;
                    nextCall := nextCall s; returned := returned s |}
        | Some _ => None
        end
      else None
  | ClearCache => Some (withManager (clearCache (manager s)) s)
  | ClearCacheEntry key => Some (withManager (clearCacheEntry key (manager s)) s)
  | GetCacheStats => Some s
  | Cleanup => Some (withManager (cleanup (clock s) (manager s)) s)
  end.

(** The manager as constructed at time [t0]. *)
Definition init (t0 : Z) : State :=
  {| manager := {| cache := ∅; pendingRequests := ∅; lastRequestTime := 0 |};
     clock := t0; started := 0; settled := ∅; calls := ∅; nextCall := 0;
     returned := ∅ |}.

Inductive reachable : State -> Prop :=
| reachable_init (t0 : Z) : reachable (init t0)
| reachable_step (s s' : State) (ev : Event) :
    reachable s -> step ev s = Some s' -> reachable s'.

Fixpoint run (evs : list Event) (s : State) : option State :=
  match evs with
  | [] => Some s
  | ev :: evs' =>
      match step ev s with
      | Some s' => run evs' s'
      | None => None
      end
  end.

End ApiManager.

(** * [ConnectionTester] (src/api/connectionTest.ts) *)

Module ConnectionTester.

Import SheetClient.

(** The [details] object of the configuration test. *)
Record ConfigDetails := {
  details_apiUrl : string;
  details_apiKey : string;
  details_sheetId : string;
  details_headers : Z
}.

(** [TestResult]; of the [details] only those of the configuration test
    are modelled. *)
Record TestResult := {
  name : string;
  success : bool;
  message : string;
  details : option ConfigDetails;
  error : option string
}.

(** The double quote character. *)
Definition quote : string := String (Ascii.ascii_of_nat 34) EmptyString.

(** [testConfiguration]: each [issues.push] appends to the list. *)
Definition testConfiguration (config : SheetConfig) : TestResult :=
  let issues : list string := [] in
  let issues :=
    if String.eqb (apiBaseUrl config) ""
    then (issues ++ ["Missing VITE_SHEETAPPS_API_URL"])%list
    else if negb (String.prefix "http" (apiBaseUrl config))
         then (issues ++ ["Invalid API URL format"])%list
         else issues in
  let issues :=
    if String.eqb (apiKey config) ""
    then (issues ++ ["Missing VITE_SHEETAPPS_API_KEY"])%list
    else if negb (String.prefix "sk_" (apiKey config))
         then (issues ++ ["API key should start with " +:+ quote +:+ "sk_" +:+ quote])%list
         else issues in
  let issues :=
    if String.eqb (sheetId config) ""
    then (issues ++ ["Missing VITE_SHEET_ID"])%list
    else issues in
  let issues :=
    if (length (headers config) =? 0)%nat
    then (issues ++ ["Missing VITE_SHEET_HEADERS configuration"])%list
    else issues in
  let setOrMissing (s : string) :=
    if String.eqb s "" then "Missing" else "Set" in
  {| name := "Configuration Validation";
     success := (length issues =? 0)%nat;
     message :=
       if (length issues =? 0)%nat
       then "All configuration variables are present"
       else "Configuration issues: " +:+ join ", " issues;
     details :=
       Some {| details_apiUrl := setOrMissing (apiBaseUrl config);
               details_apiKey := setOrMissing (apiKey config);
               details_sheetId := setOrMissing (sheetId config);
               details_headers := Z.of_nat (length (headers config)) |};
     error :=
       if (0 <? length issues)%nat then Some (join "; " issues) else None |}.

Record Tests := {
  configValidation : TestResult;
  apiReachability : TestResult;
  authentication : TestResult;
  sheetAccess : TestResult;
  dataRetrieval : TestResult
}.

Record Summary := {
  totalTests : Z;
  passed : Z;
  failed : Z;
  warnings : list string
}.

Record Diagnostics := {
  diag_apiUrl : string;
  hasApiKey : bool;
  diag_sheetId : string;
  configuredHeaders : list string;
  responseTime : Z
}.

Record ConnectionTestResult := {
  result_success : bool;
  tests : Tests;
  summary : Summary;
  diagnostics : Diagnostics
}.

(** [Object.values(tests)] *)
Definition values (t : Tests) : list TestResult :=
  [ configValidation t; apiReachability t; authentication t; sheetAccess t;
    dataRetrieval t ].

(** [runFullTest]. The four tests that go to the network catch whatever
    they meet and resolve to a [TestResult]; what they resolve to, and the
    time the five tests took, are the arguments here. *)
Definition runFullTest (config : SheetConfig)
    (reachability auth access retrieval : TestResult) (elapsed : Z)
  : ConnectionTestResult :=
  let tests := {| configValidation := testConfiguration config;
                  apiReachability := reachability;
                  authentication := auth;
                  sheetAccess := access;
                  dataRetrieval := retrieval |} in
  let responseTime := elapsed in
  let testResults := values tests in
  let passed := Z.of_nat (length (List.filter (fun t => success t) testResults)) in
  let failed :=
    Z.of_nat (length (List.filter (fun t => negb (success t)) testResults)) in
  let warnings : list string := [] in
  let warnings :=
    if 5000 <? responseTime
    then (warnings ++ ["Slow API response time detected"])%list else warnings in
  let warnings :=
    if (size (dataTypes config) =? 0)%nat
    then (warnings
          ++ ["No data types configured - field validation may not work properly"])%list
    else warnings in
  {| result_success := passed =? Z.of_nat (length testResults);
     tests := tests;
     summary := {| totalTests := Z.of_nat (length testResults);
                   passed := passed;
                   failed := failed;
                   warnings := warnings |};
     diagnostics := {| diag_apiUrl := apiBaseUrl config;
                       hasApiKey := negb (String.eqb (apiKey config) "");
                       diag_sheetId := sheetId config;
                       configuredHeaders := headers config;
                       responseTime := responseTime |} |}.

End ConnectionTester.

(** ** Predicates of the specification *)

(** Bijective base-26 numerals over A..Z: the digit of a letter is 1 for
    [A] up to 26 for [Z], and a numeral [d_k ... d_0] denotes
    [d_k * 26^k + ... + d_0]. *)
Definition letter_digit (a : ascii) : Z := Js.code a - 64.

Fixpoint bijective26_from (acc : Z) (s : string) : Z :=
  match s with
  | EmptyString => acc
  | String a s' => bijective26_from (26 * acc + letter_digit a) s'
  end.

Definition bijective26_value (s : string) : Z := bijective26_from 0 s.

Fixpoint upper_letters (s : string) : Prop :=
  match s with
  | EmptyString => True
  | String a s' => 1 <= letter_digit a <= 26 /\ upper_letters s'
  end.


(** A string made of white space only (the empty string included). *)
Fixpoint only_whitespace (s : string) : Prop :=
  match s with
  | EmptyString => True
  | String a s' => Js.is_ws a = true /\ only_whitespace s'
  end.

(** [sub] occurs in [s]. *)
Definition contains (s sub : string) : Prop :=
  exists pre post, s = pre +:+ sub +:+ post.

Definition is_boolean (v : JsVal) : Prop := exists b, v = VBool b.


(** The GET request that reads the sheet. *)
Definition dataRequest (config : SheetClient.SheetConfig) : SheetClient.Request :=
  {| SheetClient.req_method := "GET";
     SheetClient.req_url :=
       SheetClient.apiBaseUrl config +:+ SheetClient.dataEndpoint config;
     SheetClient.req_authorization := "Bearer " +:+ SheetClient.apiKey config;
     SheetClient.req_body := None |}.

(** A row matches an identifier for [getRowById]: its [_id], or its value
    in the first configured header, is the identifier. *)
Definition id_matches (config : SheetClient.SheetConfig)
    (ident : SheetClient.Identifier) (row : SheetRow) : Prop :=
  getProp row "_id" = SheetClient.idVal ident
  \/ getProp row (SheetClient.primaryKey config) = SheetClient.idVal ident.

(** A row matches an identifier for a write: one of its values is the
    identifier. *)
Definition row_has_value (ident : SheetClient.Identifier) (row : SheetRow) : Prop :=
  exists key, row !! key = Some (SheetClient.idVal ident).

(** Every character of a string satisfies [p]. *)
Fixpoint all_chars (p : ascii -> bool) (s : string) : Prop :=
  match s with
  | EmptyString => True
  | String a s' => p a = true /\ all_chars p s'
  end.

(** A non-empty string without white space and without [@]. *)
Definition email_part (s : string) : Prop :=
  s ≠ "" /\ all_chars (fun a => negb (Js.is_ws a || Ascii.eqb a "@")) s.

Import SheetClient.

(** ** Concrete scenarios *)



(** A client with a cold cache in front of a sheet with the header [h] and
    one data row [a]; every fetch takes 50 ms and succeeds. *)
Definition config_h : SheetConfig :=
  {| apiBaseUrl := "http://localhost:3000/api/v1"; apiKey := "k"; sheetId := "s";
     headers := ["h"]; dataTypes := ∅ |}.

Definition cold_client : ClientState :=
  {| cache := ∅;
     now := 1000;
     net := fun _ =>
              (50%N,
               FetchReply true "HTTP 200: OK"
                 {| body_success := true;
                    body_data := Some {| values := Some [["h"]; ["a"]] |};
                    body_error := None |});
     sent := [] |}.

(** An update of a row that does not exist. *)
Definition update_missing_row : UpdateOperation :=
  {| identifier := IdStr "zzz"; field := "h"; newValue := VStr "x";
     oldValue := VUndef |}.

(** A successful data response with one row, and a failed one. *)
Definition okResponse : ApiManager.DataResponse :=
  {| success := true;
     data := Some [ {[ "_id" := VStr "a"; "_rowIndex" := VNum 1; "h" := VStr "a" ]} ];
     error := None;
     message := Some "Successfully retrieved 1 rows from Google Sheets";
     timestamp := Some 5400 |}.

Definition failedResponse : ApiManager.DataResponse :=
  {| success := false;
     data := None;
     error := Some "Google Sheets API Error: API request failed: Failed to fetch";
     message := None;
     timestamp := Some 6200 |}.

(** Two components call [getAllData()] in the same tick of a manager
    constructed at time 5000: call 0 passes the rate limit at once and
    suspends before it has registered anything; call 1 finds neither a
    cache entry nor a pending request and waits on the rate-limit timer
    until 6000. Call 0 then starts request 0, which is still in flight
    when the timer of call 1 fires. *)
Definition two_callers_trace : list ApiManager.Event :=
  [ ApiManager.Invoke ApiManager.GetAllData;
    ApiManager.Invoke ApiManager.GetAllData;
    ApiManager.Resume 0;
    ApiManager.Tick 6000;
    ApiManager.Resume 1 ].

(** One [getAllData()] served by the network, then one
    [quickConnectionTest()] a second later. *)
Definition both_endpoints_trace : list ApiManager.Event :=
  [ ApiManager.Invoke ApiManager.GetAllData;
    ApiManager.Resume 0;
    ApiManager.Tick 5400;
    ApiManager.Settle 0 (Ok okResponse);
    ApiManager.Resume 0;
    ApiManager.Resume 0;
    ApiManager.Tick 6000;
    ApiManager.Invoke ApiManager.QuickTest;
    ApiManager.Resume 1;
    ApiManager.Tick 6300;
    ApiManager.Settle 1 (Ok okResponse);
    ApiManager.Resume 1;
    ApiManager.Resume 1 ].

(** As [two_callers_trace], but request 0 settles at 5500 and is cached;
    call 1 still starts request 1 at 6000, and that request is still in
    flight at 35501, when the cache entry of 5500 has expired. *)
Definition slow_second_request_trace : list ApiManager.Event :=
  [ ApiManager.Invoke ApiManager.GetAllData;
    ApiManager.Invoke ApiManager.GetAllData;
    ApiManager.Resume 0;
    ApiManager.Tick 5500;
    ApiManager.Settle 0 (Ok okResponse);
    ApiManager.Resume 0;
    ApiManager.Resume 0;
    ApiManager.Tick 6000;
    ApiManager.Resume 1;
    ApiManager.Resume 1;
    ApiManager.Tick 35501 ].

(** What follows [slow_second_request_trace]: a third [getAllData()] is
    called at 35501, and request 1 settles at 36000. The continuations
    then run in the order in which the code registered them on the promise
    of request 1: first [makeNewRequest] of call 1, which stores the
    result, then call 2, which awaited the pending promise, and last
    [getAllData] of call 1, which awaited [makeNewRequest]. *)
Definition third_caller_events : list ApiManager.Event :=
  [ ApiManager.Invoke ApiManager.GetAllData;
    ApiManager.Tick 36000;
    ApiManager.Settle 1 (Ok okResponse);
    ApiManager.Resume 1;
    ApiManager.Resume 2;
    ApiManager.Resume 1 ].

(** As [two_callers_trace], but request 0 settles at 5500 and is cached,
    and request 1, which call 1 starts at 6000, settles at 6200 with a
    failed response. *)
Definition failed_second_request_trace : list ApiManager.Event :=
  [ ApiManager.Invoke ApiManager.GetAllData;
    ApiManager.Invoke ApiManager.GetAllData;
    ApiManager.Resume 0;
    ApiManager.Tick 5500;
    ApiManager.Settle 0 (Ok okResponse);
    ApiManager.Resume 0;
    ApiManager.Resume 0;
    ApiManager.Tick 6000;
    ApiManager.Resume 1;
    ApiManager.Resume 1;
    ApiManager.Tick 6200;
    ApiManager.Settle 1 (Ok failedResponse);
    ApiManager.Resume 1;
    ApiManager.Resume 1 ].

(** The state a trace leads to from a manager constructed at time 5000
    (that initial state itself if the trace cannot run). *)
Definition state_after (trace : list ApiManager.Event) : ApiManager.State :=
  default (ApiManager.init 5000) (ApiManager.run trace (ApiManager.init 5000)).

(** A manager whose cache holds one entry, stored at time 0 with the
    default TTL. *)
Definition manager_with_entry : ApiManager.Manager :=
  {| ApiManager.cache :=
       {[ "getAllData" := {| ApiManager.data := ApiManager.CData okResponse;
                             ApiManager.timestamp := 0;
                             ApiManager.ttl := 30000 |} ]};
     ApiManager.pendingRequests := ∅;
     ApiManager.lastRequestTime := 0 |}.

(** A client with a cold cache in front of a sheet with the headers [h]
    and [g] and one data row [a, b]. *)
Definition config_hg : SheetConfig :=
  {| apiBaseUrl := "http://localhost:3000/api/v1"; apiKey := "k"; sheetId := "s";
     headers := ["h"; "g"]; dataTypes := ∅ |}.

Definition cold_client_hg : ClientState :=
  {| cache := ∅;
     now := 1000;
     net := fun _ =>
              (50%N,
               FetchReply true "HTTP 200: OK"
                 {| body_success := true;
                    body_data := Some {| values := Some [["h"; "g"]; ["a"; "b"]] |};
                    body_error := None |});
     sent := [] |}.

(** An update that names its row by the value [b] of the second column. *)
Definition update_by_other_cell : UpdateOperation :=
  {| identifier := IdStr "b"; field := "g"; newValue := VStr "x";
     oldValue := VUndef |}.

(** The one data row of the sheet behind [cold_client], as the client
    holds it. *)
Definition row_a : SheetRow :=
  {[ "_id" := VStr "a"; "_rowIndex" := VNum 1; "h" := VStr "a" ]}.

(** An update of the cell [h] of the row [a], without and with an old
    value that differs from the current one. *)
Definition update_cell : UpdateOperation :=
  {| identifier := IdStr "a"; field := "h"; newValue := VStr "x";
     oldValue := VUndef |}.

Definition update_cell_locked : UpdateOperation :=
  {| identifier := IdStr "a"; field := "h"; newValue := VStr "x";
     oldValue := VStr "A" |}.

(** ** Predicates on the manager *)

Module ManagerSpec.

Import ApiManager.

(** The TTL that decides a read: the custom TTL when one is given and is
    not zero, else the TTL stored with the entry. *)
Definition read_ttl (custom : option Z) (entry : CachedResponse) : Z :=
  match custom with
  | Some t => if bool_decide (t = 0) then ttl entry else t
  | None => ttl entry
  end.

(** How one event changes the cache: not at all; a read deletes the entry
    it finds expired; a resumed request stores its result under the key of
    its endpoint (a data response only when it succeeded, with the default
    TTL; a connection status with 10 seconds); the cache is cleared or
    cleaned. *)
Inductive cache_change (ev : Event) (s s' : State) : Prop :=
| cache_same :
    cache (manager s') = cache (manager s) -> cache_change ev s s'
| cache_expired_on_read (e : Endpoint) (cached : CachedResponse) :
    ev = Invoke e ->
    cache (manager s) !! cacheKey e = Some cached ->
    clock s - timestamp cached > effectiveTtl (customTtl e) cached ->
    cache (manager s') = delete (cacheKey e) (cache (manager s)) ->
    cache_change ev s s'
| cache_store_data (c : nat) (r : DataResponse) :
    ev = Resume c ->
    success r = true ->
    cache (manager s')
    = <["getAllData" := {| data := CData r; timestamp := clock s; ttl := DEFAULT_TTL |}]>
        (cache (manager s)) ->
    cache_change ev s s'
| cache_store_status (c : nat) (d : CachedData) :
    ev = Resume c ->
    cache (manager s')
    = <["quickTest" := {| data := d; timestamp := clock s; ttl := 10000 |}]>
        (cache (manager s)) ->
    cache_change ev s s'
| cache_cleared :
    ev = ClearCache -> cache (manager s') = ∅ -> cache_change ev s s'
| cache_entry_cleared (key : string) :
    ev = ClearCacheEntry key ->
    cache (manager s') = delete key (cache (manager s)) ->
    cache_change ev s s'
| cache_cleaned :
    ev = Cleanup ->
    cache (manager s')
    = filter (fun kv => ~ isExpired (clock s) kv.2) (cache (manager s)) ->
    cache_change ev s s'.

(** What a cache entry can be: a successful data response under
    ['getAllData'] with the default TTL, or an entry under ['quickTest']
    with a TTL of 10 seconds. *)
Definition cache_entry_ok (key : string) (cached : CachedResponse) : Prop :=
  (key = "getAllData" /\ ttl cached = DEFAULT_TTL
   /\ exists r, data cached = CData r /\ success r = true)
  \/ (key = "quickTest" /\ ttl cached = 10000).

End ManagerSpec.

(** ** Well-typed states of the manager

    The cache is typed [any] and its reads are cast ([cached.data as T]);
    these predicates say what each endpoint may hold and return. *)

Module ManagerInv.

Import ApiManager.

(** What a call of an endpoint may settle with: [getAllData()] with a data
    response or a rejection, [quickConnectionTest()] with a connection
    status. *)
Definition outcome_ok (e : Endpoint) (o : Result CachedData) : Prop :=
  match e with
  | GetAllData => (exists r, o = Ok (CData r)) \/ (exists err, o = Throw err)
  | QuickTest => exists c, o = Ok (CStatus c)
  end.

(** The data that the cache may hold under the key of an endpoint. *)
Definition data_ok (e : Endpoint) (d : CachedData) : Prop :=
  match e with
  | GetAllData => exists r, d = CData r
  | QuickTest => exists c, d = CStatus c
  end.

Definition promise_ok (started : nat) (e : Endpoint) (p : PromiseRef) : Prop :=
  kind p = e /\ (request p < started)%nat.

Definition continuation_ok (started : nat) (e : Endpoint) (k : Continuation)
  : Prop :=
  match k with
  | AwaitPending p => promise_ok started e p
  | AwaitRequest p => promise_ok started e p
  | AwaitOwn o => outcome_ok e o
  | AwaitTimer _ => True
  | AwaitRateLimit => True
  end.

Record well_typed (s : State) : Prop := {
  wt_cache : forall e cached,
      cache (manager s) !! cacheKey e = Some cached -> data_ok e (data cached);
  wt_pending : forall e pending,
      pendingRequests (manager s) !! cacheKey e = Some pending ->
      promise_ok (started s) e (promise pending);
  wt_calls : forall c call,
      calls s !! c = Some call ->
      (c < nextCall s)%nat
      /\ continuation_ok (started s) (endpoint call) (continuation call);
  wt_returned : forall c o,
      returned s !! c = Some o -> (c < nextCall s)%nat
}.

(** A suspended call has not settled. *)
Definition unsettled (s : State) : Prop :=
  forall c call, calls s !! c = Some call -> returned s !! c = None.

End ManagerInv.

(** Three calls in one tick: [getAllData()], [quickConnectionTest()] and
    [getAllData()] again. The first passes the rate limiter; the other two
    find nothing cached and nothing pending and both set a timer for
    6000. *)
Definition two_timers_trace : list ApiManager.Event :=
  [ ApiManager.Invoke ApiManager.GetAllData;
    ApiManager.Invoke ApiManager.QuickTest;
    ApiManager.Invoke ApiManager.GetAllData;
    ApiManager.Tick 6000 ].

(** One [getAllData()] whose request is in flight. *)
Definition one_request_trace : list ApiManager.Event :=
  [ ApiManager.Invoke ApiManager.GetAllData; ApiManager.Resume 0 ].

(** A connection test whose underlying request has thrown. *)
Definition quick_test_failed_trace : list ApiManager.Event :=
  [ ApiManager.Invoke ApiManager.QuickTest; ApiManager.Resume 0;
    ApiManager.Settle 0 (Throw NonError) ].

(** * Properties *)

(** [String.append] is declared [simpl never] by stdpp; this unfolds one
  layer of it. *)
Ltac simpl_append := unfold String.append; fold String.append; simpl.

Section A1_notation.

Lemma bijective26_from_snoc acc s a :
  bijective26_from acc (s +:+ String a "") =
  26 * bijective26_from acc s + letter_digit a.
Proof.
  revert acc. induction s as [|b s IH]; intros acc; simpl_append; [reflexivity|].
  apply IH.
Qed.

Lemma upper_letters_snoc s a :
  upper_letters s -> 1 <= letter_digit a <= 26 ->
  upper_letters (s +:+ String a "").
Proof.
  induction s as [|b s IH]; simpl_append; [tauto|].
  intros [Hb Hs] Ha. split; [exact Hb | apply IH; assumption].
Qed.

Lemma append_snoc_assoc s a r :
  (s +:+ String a "") +:+ r = s +:+ String a r.
Proof.
  induction s as [|b s IH]; simpl_append; [reflexivity | f_equal; exact IH].
Qed.

Lemma letter_digit_fromCharCode d :
  0 <= d < 26 -> letter_digit (Js.fromCharCode (65 + d)) = d + 1.
Proof.
  intros Hd. unfold letter_digit, Js.code, Js.fromCharCode.
  rewrite N_ascii_embedding by lia. lia.
Qed.

(** The loop prepends to [result] the numeral of [num + 1]. *)
Lemma numberToColumnLetter_loop_spec fuel :
  forall num result,
    -1 <= num -> (Z.to_nat (num + 1) <= fuel)%nat ->
    exists letters,
      numberToColumnLetter_loop fuel num result = Some (letters +:+ result)
      /\ upper_letters letters
      /\ bijective26_value letters = num + 1.
Proof.
  induction fuel as [|fuel IH]; intros num result Hlo Hfuel.
  - assert (num = -1) by lia. subst num. exists "". simpl. auto.
  - destruct (Z.leb_spec 0 num) as [Hnn|Hneg].
    + simpl. destruct (0 <=? num) eqn:E; [|lia].
      assert (Hq : 0 <= num / 26 <= num).
      { split; [apply Z.div_pos; lia|].
        apply Z.div_le_upper_bound; lia. }
      assert (Hr : Z.rem num 26 = num mod 26) by (apply Z.rem_mod_nonneg; lia).
      assert (Hm : 0 <= num mod 26 < 26) by (apply Z.mod_pos_bound; lia).
      destruct (IH (num / 26 - 1)
                  (String (Js.fromCharCode (65 + Z.rem num 26)) result))
        as (l' & Hrun & Hup & Hval); [lia | lia |].
      exists (l' +:+ String (Js.fromCharCode (65 + Z.rem num 26)) "").
      rewrite Hrun, append_snoc_assoc. split; [reflexivity|].
      rewrite Hr. split.
      * apply upper_letters_snoc; [exact Hup|].
        rewrite letter_digit_fromCharCode; lia.
      * unfold bijective26_value in *. rewrite bijective26_from_snoc, Hval.
        rewrite letter_digit_fromCharCode by lia.
        pose proof (Z.div_mod num 26). lia.
    + assert (num = -1) by lia. subst num. exists "". simpl. auto.
Qed.

Lemma letter_digit_inj a b : letter_digit a = letter_digit b -> a = b.
Proof.
  unfold letter_digit, Js.code. intros H.
  rewrite <- (ascii_N_embedding a), <- (ascii_N_embedding b).
  f_equal. lia.
Qed.

Lemma bijective26_from_fold acc s :
  bijective26_from acc s =
  fold_left (fun v a => 26 * v + letter_digit a) (list_ascii_of_string s) acc.
Proof.
  revert acc. induction s as [|a s IH]; intros acc; simpl; [reflexivity | apply IH].
Qed.

Lemma upper_letters_Forall s :
  upper_letters s <->
  Forall (fun a => 1 <= letter_digit a <= 26) (list_ascii_of_string s).
Proof.
  induction s as [|a s IH]; simpl.
  - split; [constructor | trivial].
  - rewrite Forall_cons, IH. reflexivity.
Qed.

Lemma numeral_list_unique (l1 : list ascii) :
  forall l2,
    Forall (fun a => 1 <= letter_digit a <= 26) l1 ->
    Forall (fun a => 1 <= letter_digit a <= 26) l2 ->
    fold_left (fun v a => 26 * v + letter_digit a) l1 0
    = fold_left (fun v a => 26 * v + letter_digit a) l2 0 ->
    l1 = l2.
Proof.
  assert (Hnonneg : forall l, Forall (fun a => 1 <= letter_digit a <= 26) l ->
            0 <= fold_left (fun v a => 26 * v + letter_digit a) l 0).
  { intros l. induction l as [|a l IH] using rev_ind; intros Hl; simpl; [lia|].
    rewrite fold_left_app. simpl. apply Forall_app in Hl as [Hl Ha].
    apply Forall_cons in Ha as [Ha _]. specialize (IH Hl). lia. }
  induction l1 as [|a l1 IH] using rev_ind; intros l2 H1 H2 Heq.
  - destruct l2 as [|b l2 _] using rev_ind; [reflexivity|].
    rewrite fold_left_app in Heq. simpl in Heq.
    apply Forall_app in H2 as [H2 Hb]. apply Forall_cons in Hb as [Hb _].
    specialize (Hnonneg l2 H2). lia.
  - apply Forall_app in H1 as [H1 Ha]. apply Forall_cons in Ha as [Ha _].
    destruct l2 as [|b l2 _] using rev_ind.
    + rewrite fold_left_app in Heq. simpl in Heq.
      specialize (Hnonneg l1 H1). lia.
    + apply Forall_app in H2 as [H2 Hb]. apply Forall_cons in Hb as [Hb _].
      rewrite !fold_left_app in Heq. simpl in Heq.
      assert (letter_digit a = letter_digit b) as Hd by lia.
      rewrite (IH l2 H1 H2) by lia.
      now rewrite (letter_digit_inj a b Hd).
Qed.

(** A number has at most one bijective base-26 numeral. *)
Lemma bijective26_unique s1 s2 :
  upper_letters s1 -> upper_letters s2 ->
  bijective26_value s1 = bijective26_value s2 -> s1 = s2.
Proof.
  intros H1 H2 Heq. unfold bijective26_value in Heq.
  rewrite !bijective26_from_fold in Heq.
  apply upper_letters_Forall in H1, H2.
  rewrite <- (string_of_list_ascii_of_string s1),
          <- (string_of_list_ascii_of_string s2).
  f_equal. now apply numeral_list_unique.
Qed.

End A1_notation.

(** C10. For every row >= 1 and column index col >= 0, [getA1Notation row
  col] returns the bijective base-26 numeral over A..Z of [col + 1] (so
  0 gives A, 25 gives Z, 26 gives AA), immediately followed by the
  decimal row number. *)
Theorem getA1Notation_bijective_base26 (row col : Z) :
1 <= row -> 0 <= col ->
exists letters,
  numberToColumnLetter col = Some letters
  /\ upper_letters letters
  /\ bijective26_value letters = col + 1
  /\ getA1Notation row col = Some (letters +:+ pretty row)
  /\ numberToColumnLetter 0 = Some "A"
  /\ numberToColumnLetter 25 = Some "Z"
  /\ numberToColumnLetter 26 = Some "AA".
Proof.
intros Hrow Hcol.
destruct (numberToColumnLetter_loop_spec (Z.to_nat (col + 1)) col "")
  as (letters & Hrun & Hup & Hval); [lia | lia |].
exists letters. unfold getA1Notation, numberToColumnLetter.
rewrite Hrun.
assert (Hnil : letters +:+ "" = letters).
{ clear. induction letters as [|a s IH]; simpl_append;
    [reflexivity | f_equal; exact IH]. }
rewrite Hnil. simpl. repeat split; auto.
Qed.

Lemma getA1Notation_witness :
exists letters,
  numberToColumnLetter 27 = Some letters
  /\ upper_letters letters
  /\ bijective26_value letters = 27 + 1
  /\ getA1Notation 3 27 = Some (letters +:+ pretty 3)
  /\ numberToColumnLetter 0 = Some "A"
  /\ numberToColumnLetter 25 = Some "Z"
  /\ numberToColumnLetter 26 = Some "AA".
Proof. apply (getA1Notation_bijective_base26 3 27); lia. Defined.

Section Strings.

Lemma prefix_spec sub s :
  String.prefix sub s = true <-> exists post, s = sub +:+ post.
Proof.
  revert s. induction sub as [|a sub IH]; intros s.
  - split; [intros _; exists s; reflexivity | intros _; destruct s; reflexivity].
  - destruct s as [|b s]; simpl; simpl_append.
    + split; [discriminate | intros [post H]; discriminate].
    + destruct (ascii_dec a b) as [->|Hne].
      * rewrite IH. split; intros [post H]; exists post; congruence.
      * split; [discriminate | intros [post H]; congruence].
Qed.

Lemma includes_unfold s sub :
  Js.includes s sub =
  if String.prefix sub s then true
  else match s with
       | EmptyString => false
       | String _ s' => Js.includes s' sub
       end.
Proof. destruct s; reflexivity. Qed.

Lemma includes_spec s sub : Js.includes s sub = true <-> contains s sub.
Proof.
  unfold contains. induction s as [|a s IH]; rewrite includes_unfold.
  - destruct (String.prefix sub "") eqn:E.
    + apply prefix_spec in E as [post E].
      split; [intros _; exists "", post; exact E | reflexivity].
    + split; [discriminate|]. intros (pre & post & H).
      destruct pre; [|discriminate H]. simpl_append.
      assert (String.prefix sub "" = true) as E'
          by (apply prefix_spec; exists post; exact H).
      congruence.
  - destruct (String.prefix sub (String a s)) eqn:E.
    + apply prefix_spec in E as [post E].
      split; [intros _; exists "", post; exact E | reflexivity].
    + rewrite IH. split.
      * intros (pre & post & H). exists (String a pre), post.
        simpl_append. now rewrite H.
      * intros (pre & post & H). destruct pre as [|b pre].
        -- assert (String.prefix sub (String a s) = true) as E'
             by (apply prefix_spec; exists post; exact H).
           congruence.
        -- revert H. simpl_append. intros H. exists pre, post. congruence.
Qed.

Lemma arr_includes_spec arr x : Js.arr_includes arr x = true <-> In x arr.
Proof.
  unfold Js.arr_includes. rewrite existsb_exists. split.
  - intros (y & Hin & Heq). apply String.eqb_eq in Heq. now subst.
  - intros Hin. exists x. split; [exact Hin | apply String.eqb_refl].
Qed.

Lemma trimStart_empty s : Js.trimStart s = "" <-> only_whitespace s.
Proof.
  induction s as [|a s IH]; simpl; [tauto|].
  destruct (Js.is_ws a); [rewrite IH; tauto|].
  split; [discriminate | intros [H _]; discriminate].
Qed.

Lemma trimEnd_empty s : Js.trimEnd s = "" <-> only_whitespace s.
Proof.
  induction s as [|a s IH]; simpl; [tauto|].
  destruct (Js.trimEnd s) eqn:E.
  - destruct (Js.is_ws a); [tauto|].
    split; [discriminate | intros [H _]; discriminate].
  - split; [discriminate|]. intros [_ H]. apply IH in H. discriminate.
Qed.

Lemma trimStart_only_whitespace s :
  only_whitespace (Js.trimStart s) <-> only_whitespace s.
Proof.
  induction s as [|a s IH]; simpl; [tauto|].
  destruct (Js.is_ws a) eqn:E; [rewrite IH; tauto|].
  simpl. rewrite E. tauto.
Qed.

Lemma trim_empty s : Js.trim s = "" <-> only_whitespace s.
Proof.
  unfold Js.trim. rewrite trimEnd_empty. apply trimStart_only_whitespace.
Qed.

Lemma only_whitespace_dec s : {only_whitespace s} + {~ only_whitespace s}.
Proof.
  induction s as [|a s [IH|IH]]; simpl; [left; exact I | |right; tauto].
  destruct (Js.is_ws a); [left; tauto | right; intros [H _]; discriminate].
Defined.

(** [trim] removes exactly the white space around a string: the string is
    [l ++ trim s ++ r] with [l] and [r] white space, and [trim s] neither
    starts nor ends with white space. *)
Lemma trimStart_decompose s :
  exists l, only_whitespace l /\ s = l +:+ Js.trimStart s.
Proof.
  induction s as [|a s (l & Hl & IH)]; simpl.
  - exists "". split; [exact I | reflexivity].
  - destruct (Js.is_ws a) eqn:E.
    + exists (String a l). split; [split; assumption|].
      simpl_append. now rewrite <- IH.
    + exists "". split; [exact I | reflexivity].
Qed.

Lemma trimEnd_decompose s :
  exists r, only_whitespace r /\ s = Js.trimEnd s +:+ r.
Proof.
  induction s as [|a s (r & Hr & IH)]; simpl.
  - exists "". split; [exact I | reflexivity].
  - destruct (Js.trimEnd s) as [|b t] eqn:E.
    + revert IH. simpl_append. intros <-. destruct (Js.is_ws a) eqn:Ea.
      * exists (String a s). split; [split; assumption | reflexivity].
      * exists s. split; [exact Hr | reflexivity].
    + exists r. split; [exact Hr|].
      change (String a s = String a (String b t +:+ r)). now f_equal.
Qed.

Lemma trimEnd_last s t a :
  Js.trimEnd s = t +:+ String a "" -> Js.is_ws a = false.
Proof.
  revert t. induction s as [|b s IH]; intros t; simpl.
  - destruct t; discriminate.
  - destruct (Js.trimEnd s) as [|c u] eqn:E.
    + destruct (Js.is_ws b) eqn:Eb; [destruct t; discriminate|].
      destruct t as [|b' t]; simpl_append.
      * now intros [= <-].
      * intros [= _ H]. destruct t; discriminate.
    + destruct t as [|b' t]; simpl_append; [discriminate|].
      intros [= _ H]. now apply (IH t).
Qed.

Lemma trimEnd_first a s :
  Js.is_ws a = false -> exists t, Js.trimEnd (String a s) = String a t.
Proof.
  intros Ha. simpl. destruct (Js.trimEnd s); rewrite ?Ha; eauto.
Qed.

Lemma trim_decompose s :
  (exists l r, only_whitespace l /\ only_whitespace r
               /\ s = l +:+ Js.trim s +:+ r)
  /\ (forall a t, Js.trim s = String a t -> Js.is_ws a = false)
  /\ (forall a t, Js.trim s = t +:+ String a "" -> Js.is_ws a = false).
Proof.
  unfold Js.trim. split; [|split].
  - destruct (trimStart_decompose s) as (l & Hl & Hs).
    destruct (trimEnd_decompose (Js.trimStart s)) as (r & Hr & Ht).
    exists l, r. split; [exact Hl|]. split; [exact Hr|]. now rewrite <- Ht.
  - intros a t. destruct (Js.trimStart s) as [|b u] eqn:E; [discriminate|].
    assert (Hb : Js.is_ws b = false).
    { clear -E. induction s as [|c s IH]; simpl in E; [discriminate|].
      destruct (Js.is_ws c) eqn:Ec; [now apply IH | congruence]. }
    destruct (trimEnd_first b u Hb) as [t' ->]. now intros [= <- _].
  - intros a t. apply trimEnd_last.
Qed.

End Strings.

(** C1. [smartTypeConversion value columnName] returns the empty string when
  [value] is empty or only white space; otherwise, with [v] the trimmed
  value lowercased and [c] the column name lowercased, the result is a
  boolean exactly when [c] contains one of the boolean column names or [v]
  is one of the boolean values; that boolean is true exactly when [v] is
  one of the truthy values; in every other case the result is the trimmed
  original string. *)
Theorem smartTypeConversion_heuristic (value columnName : string) :
let v := Js.toLowerCase (Js.trim value) in
let c := Js.toLowerCase columnName in
let r := smartTypeConversion value columnName in
(only_whitespace value -> r = VStr "")
/\ (~ only_whitespace value ->
    (is_boolean r <->
       (exists name, In name ["done"; "completed"; "finished"; "active"; "visited"]
                     /\ contains c name)
       \/ In v ["true"; "false"; "yes"; "no"; "y"; "n"; "1"; "0"; "done";
                "completed"])
    /\ (forall b, r = VBool b ->
          (b = true <->
           In v ["true"; "yes"; "y"; "1"; "done"; "completed"; "active";
                 "visited"]))
    /\ (~ is_boolean r -> r = VStr (Js.trim value))).
Proof.
intros v c r. subst r. unfold smartTypeConversion. split.
- intros Hws. apply trim_empty in Hws. rewrite Hws.
  rewrite orb_true_r. reflexivity.
- intros Hns.
  assert (Ht : String.eqb (Js.trim value) "" = false).
  { apply String.eqb_neq. intros H. apply Hns, trim_empty, H. }
  assert (Hv : String.eqb value "" = false).
  { apply String.eqb_neq. intros ->. apply Hns. exact I. }
  rewrite Ht, Hv. simpl orb. cbv zeta. fold v c.
  assert (Hcol : isBooleanColumn c v = true <->
                 (exists name, In name booleanColumnNames /\ contains c name)
                 \/ In v booleanValues).
  { unfold isBooleanColumn. rewrite orb_true_iff, existsb_exists, arr_includes_spec.
    split; (intros [(name & Hin & Hc)|H]; [left; exists name; split; [exact Hin|] | right; exact H]);
      apply includes_spec; exact Hc. }
  destruct (isBooleanColumn c v) eqn:E.
  + split; [|split].
    * split; [intros _; apply Hcol; reflexivity | intros _; eexists; reflexivity].
    * intros b [= <-]. unfold convertToBoolean. apply arr_includes_spec.
    * intros Hnb. exfalso. apply Hnb. eexists; reflexivity.
  + split; [|split].
    * split; [intros [b Hb]; discriminate Hb|].
      intros H. apply Hcol in H. discriminate H.
    * intros b Hb. discriminate Hb.
    * reflexivity.
Qed.

Example smartTypeConversion_examples :
smartTypeConversion "  Yes " "Status" = VBool true
/\ smartTypeConversion "pending" "Is Done?" = VBool false
/\ smartTypeConversion " Alice  " "Name" = VStr "Alice"
/\ smartTypeConversion "   " "Done" = VStr ""
/\ smartTypeConversion "Active" "Is Active" = VBool true.
Proof. vm_compute. repeat split. Qed.

Section Rows.





End Rows.



Example transformRawDataToRows_example :
  let config := {| apiBaseUrl := ""; apiKey := ""; sheetId := "s";
                   headers := []; dataTypes := ∅ |} in
  transformRawDataToRows config [["Task"; "Done"]; ["write"; "yes"]; [""]]
  = [ {[ "_id" := VStr "write"; "_rowIndex" := VNum 1;
         "Task" := VStr "write"; "Done" := VBool true ]};
      {[ "_id" := VStr "row_2"; "_rowIndex" := VNum 2;
         "Task" := VStr ""; "Done" := VStr "" ]} ].
Proof. vm_compute. reflexivity. Qed.


(** ** Reading and writing through the client *)

Ltac unfold_client :=
  unfold mbind, client_bind, bind, mret, client_ret, ret, throw, try_catch, lift in *.

Section Client_lemmas.

Context (config : SheetConfig).

Lemma find_Some_first {A} (p : A -> bool) (l : list A) (x : A) :
  find p l = Some x <->
  exists i : nat, l !! i = Some x /\ p x = true
             /\ forall (j : nat) y, (j < i)%nat -> l !! j = Some y -> p y = false.
Proof.
  induction l as [|a l IH]; simpl.
  - split; [discriminate | intros (i & H & _); discriminate H].
  - destruct (p a) eqn:Ea.
    + split.
      * intros [= <-]. exists 0%nat. repeat split; [exact Ea | intros; lia].
      * intros (i & Hi & Hp & Hfirst). destruct i as [|i]; [simpl in Hi; congruence|].
        specialize (Hfirst 0%nat a ltac:(lia) eq_refl). congruence.
    + rewrite IH. split.
      * intros (i & Hi & Hp & Hfirst). exists (S i). repeat split; auto.
        intros [|j] y Hlt Hy; simpl in Hy; [congruence|].
        apply (Hfirst j); [lia | exact Hy].
      * intros (i & Hi & Hp & Hfirst). destruct i as [|i]; [simpl in Hi; congruence|].
        exists i. repeat split; auto.
        intros j y Hlt Hy. apply (Hfirst (S j)); [lia | exact Hy].
Qed.

Lemma find_None_all {A} (p : A -> bool) (l : list A) :
  find p l = None <-> forall x, x ∈ l -> p x = false.
Proof.
  induction l as [|a l IH]; simpl.
  - split; [intros _ x Hx; inversion Hx | reflexivity].
  - destruct (p a) eqn:Ea.
    + split; [discriminate|]. intros H. specialize (H a ltac:(left)). congruence.
    + rewrite IH. split.
      * intros H x Hx. apply elem_of_cons in Hx as [->|Hx]; auto.
      * intros H x Hx. apply H. now right.
Qed.

Lemma findIndex_from_range {A} (p : A -> bool) (l : list A) (i : Z) :
  0 <= i -> findIndex_from p l i = -1 \/ i <= findIndex_from p l i.
Proof.
  revert i. induction l as [|a l IH]; intros i Hi; simpl; [now left|].
  destruct (p a); [right; lia|].
  destruct (IH (i + 1) ltac:(lia)); [now left | right; lia].
Qed.

Lemma findIndex_from_none {A} (p : A -> bool) (l : list A) (i : Z) :
  0 <= i -> (findIndex_from p l i = -1 <-> forall x, x ∈ l -> p x = false).
Proof.
  revert i. induction l as [|a l IH]; intros i Hi; simpl.
  - split; [intros _ x Hx; inversion Hx | reflexivity].
  - destruct (p a) eqn:Ea.
    + split; [lia|]. intros H. specialize (H a ltac:(left)). congruence.
    + rewrite IH by lia. split.
      * intros H x Hx. apply elem_of_cons in Hx as [->|Hx]; auto.
      * intros H x Hx. apply H. now right.
Qed.

Lemma findIndex_none {A} (p : A -> bool) (l : list A) :
  findIndex p l = -1 <-> forall x, x ∈ l -> p x = false.
Proof. apply findIndex_from_none. lia. Qed.

Lemma indexOf_none (l : list string) (x : string) : indexOf l x = -1 <-> x ∉ l.
Proof.
  unfold indexOf. rewrite findIndex_none. split.
  - intros H Hin. specialize (H x Hin). rewrite String.eqb_refl in H. discriminate.
  - intros H y Hy. apply String.eqb_neq. congruence.
Qed.

Lemma strict_eq_true a b : strict_eq a b = true <-> a = b.
Proof. unfold strict_eq. apply bool_decide_eq_true. Qed.

Lemma rowMatchesId_spec ident row :
  rowMatchesId config ident row = true <-> id_matches config ident row.
Proof.
  unfold rowMatchesId, id_matches.
  rewrite orb_true_iff, !strict_eq_true. reflexivity.
Qed.

Lemma idVal_defined ident : idVal ident ≠ VUndef.
Proof. destruct ident; discriminate. Qed.

Lemma objectPrototype_cases key :
  objectPrototype key = None \/ exists m, objectPrototype key = Some (VBuiltin m).
Proof.
  unfold objectPrototype. destruct (find _ protoMembers) as [m|]; simpl; eauto.
Qed.

Lemma getProp_own (row : SheetRow) key v :
  row !! key = Some v -> getProp row key = v.
Proof. unfold getProp. now intros ->. Qed.

Lemma getProp_idVal row key ident :
  getProp row key = idVal ident -> row !! key = Some (idVal ident).
Proof.
  unfold getProp. destruct (row !! key) as [v|]; simpl; [congruence|].
  destruct (objectPrototype_cases key) as [->|[m ->]]; simpl;
    destruct ident; discriminate.
Qed.

Lemma rowMatchesIdentifier_spec ident row :
  rowMatchesIdentifier config ident row = true <-> row_has_value ident row.
Proof.
  unfold rowMatchesIdentifier, row_has_value, someValueIs.
  rewrite orb_true_iff, rowMatchesId_spec, existsb_exists. split.
  - intros [[H|H]|((k & v) & Hin & Hv)].
    + exists "_id". now apply getProp_idVal.
    + exists (primaryKey config). now apply getProp_idVal.
    + exists k. apply strict_eq_true in Hv. simpl in Hv. subst v.
      apply elem_of_map_to_list. now apply list_elem_of_In.
  - intros [k Hk]. right. exists (k, idVal ident). split.
    + apply list_elem_of_In, elem_of_map_to_list. exact Hk.
    + now apply strict_eq_true.
Qed.

(** What a read of the current data does to the state: served from a fresh
    cache entry it changes nothing; otherwise it issues the GET request
    and, when that yields rows, stores them under ['all_data']. *)
Lemma getAllData_effect (s : ClientState) :
  match getAllData config s with
  | (Ok rows, s1) =>
      (s1 = s /\ exists t, cache s !! "all_data" = Some (rows, t)
                           /\ now s - t < CACHE_TTL)
      \/ (sent s1 = (sent s ++ [dataRequest config])%list
          /\ cache s1 = <["all_data" := (rows, now s1)]> (cache s))
  | (Throw e, s1) =>
      sent s1 = (sent s ++ [dataRequest config])%list /\ cache s1 = cache s
  end.
Proof.
  unfold getAllData. cbv zeta.
  match goal with
  | |- context [mbind ?k ?m s] => set (fetchData := mbind k m)
  end.
  assert (Hfetch :
    match fetchData s with
    | (Ok rows, s1) =>
        sent s1 = (sent s ++ [dataRequest config])%list
        /\ cache s1 = <["all_data" := (rows, now s1)]> (cache s)
    | (Throw e, s1) =>
        sent s1 = (sent s ++ [dataRequest config])%list /\ cache s1 = cache s
    end).
  { subst fetchData. unfold_client. unfold makeRequest.
    destruct (net s (length (sent s))) as [delay [e|ok statusLine result]]; simpl.
    - split; reflexivity.
    - destruct ok; simpl; [|split; reflexivity].
      destruct (body_success result); simpl.
      + destruct (body_data result) as [[[[|v vs]|]]|]; simpl;
          split; reflexivity.
      + split; reflexivity. }
  clearbody fetchData.
  destruct (cache s !! "all_data") as [[cached_data cached_timestamp]|] eqn:Ec.
  - destruct (Z.ltb_spec (now s - cached_timestamp) CACHE_TTL) as [Hlt|Hge].
    + left. split; [reflexivity|]. exists cached_timestamp. auto.
    + destruct (fetchData s) as [[rows|e] s1]; [right|]; tauto.
  - destruct (fetchData s) as [[rows|e] s1]; [right|]; tauto.
Qed.

End Client_lemmas.

(** C6. [getRowById] returns the first row of the current data whose [_id]
    or whose value in the first configured header is the identifier, and
    [null] when no row matches; [SheetApi.getRow] wraps the result in a
    [success = true] response whether or not a row was found. *)
Theorem getRowById_first_match (config : SheetConfig) (ident : Identifier)
    (s s1 : ClientState) (allData : list SheetRow) :
  SheetClient.getAllData config s = (Ok allData, s1) ->
  exists found : option SheetRow,
    getRowById config ident s = (Ok found, s1)
    /\ (forall row, found = Some row <->
          exists i : nat,
            allData !! i = Some row /\ id_matches config ident row
            /\ forall (j : nat) r, (j < i)%nat -> allData !! j = Some r ->
                                   ~ id_matches config ident r)
    /\ (found = None <-> forall r, r ∈ allData -> ~ id_matches config ident r)
    /\ (forall h rest, headers config = h :: rest -> primaryKey config = h)
    /\ exists resp,
        SheetApi.getRow config ident s = (Ok resp, s1)
        /\ success resp = true
        /\ data resp = Some found
        /\ timestamp resp = Some (now s1).
Proof.
  intros Hread. exists (find (rowMatchesId config ident) allData).
  split; [|split; [|split; [|split]]].
  - unfold getRowById. unfold_client. rewrite Hread. reflexivity.
  - intros row. rewrite find_Some_first. split.
    + intros (i & Hi & Hp & Hfirst). exists i. split; [exact Hi|].
      split; [now apply rowMatchesId_spec|].
      intros j r Hlt Hr Hm. apply rowMatchesId_spec in Hm.
      rewrite (Hfirst j r Hlt Hr) in Hm. discriminate.
    + intros (i & Hi & Hp & Hfirst). exists i. split; [exact Hi|].
      split; [now apply rowMatchesId_spec|].
      intros j r Hlt Hr. apply not_true_is_false. intros Hm.
      apply (Hfirst j r Hlt Hr). now apply rowMatchesId_spec.
  - rewrite find_None_all. split.
    + intros H r Hr Hm. apply rowMatchesId_spec in Hm.
      rewrite (H r Hr) in Hm. discriminate.
    + intros H r Hr. apply not_true_is_false. intros Hm.
      apply (H r Hr). now apply rowMatchesId_spec.
  - intros h rest Hh. unfold primaryKey. now rewrite Hh.
  - eexists. unfold SheetApi.getRow, getRowById, SheetApi.currentTime.
    unfold_client. rewrite Hread. simpl. repeat split.
Qed.

Lemma getRowById_first_match_witness :
  exists found : option SheetRow,
    getRowById config_h (IdStr "a") cold_client
    = (Ok found, (SheetClient.getAllData config_h cold_client).2)
    /\ found = Some {[ "_id" := VStr "a"; "_rowIndex" := VNum 1; "h" := VStr "a" ]}.
Proof.
  destruct (getRowById_first_match config_h (IdStr "a") cold_client
              (SheetClient.getAllData config_h cold_client).2
              [ {[ "_id" := VStr "a"; "_rowIndex" := VNum 1; "h" := VStr "a" ]} ])
    as (found & Hget & Hsome & _).
  - vm_compute. reflexivity.
  - exists found. split; [exact Hget|].
    apply Hsome. exists 0%nat. split; [reflexivity|].
    split; [left; vm_compute; reflexivity | intros j r Hlt; lia].
Defined.

(** When the read of the current data fails, [getRowById] rejects and
    [SheetApi.getRow] resolves to a failure that carries the error. *)
Lemma getRow_read_failure (config : SheetConfig) (ident : Identifier)
    (s s1 : ClientState) (e : Thrown) :
  SheetClient.getAllData config s = (Throw e, s1) ->
  getRowById config ident s = (Throw e, s1)
  /\ exists resp,
      SheetApi.getRow config ident s = (Ok resp, s1)
      /\ success resp = false
      /\ error resp = Some (errorMessage e "Failed to retrieve row").
Proof.
  intros Hread. unfold SheetApi.getRow, getRowById, SheetApi.currentTime.
  unfold_client. rewrite Hread. split; [reflexivity|].
  eexists. repeat split.
Qed.

(** C8. [SheetApi.getAllData] never rejects: whatever the client call does,
    it resolves to a response that carries a timestamp; [success = true]
    implies that [data] is a non-empty array of rows; an empty result or a
    failed read yields [success = false] with a non-empty error message. *)
Theorem SheetApi_getAllData_never_rejects (config : SheetConfig) (s : ClientState) :
  exists (resp : ApiResponse (list SheetRow)) (s' : ClientState),
    SheetApi.getAllData config s = (Ok resp, s')
    /\ s' = (SheetClient.getAllData config s).2
    /\ timestamp resp = Some (now s')
    /\ (success resp = true <->
        exists rows, (SheetClient.getAllData config s).1 = Ok rows /\ rows ≠ [])
    /\ (success resp = true ->
        exists rows, data resp = Some rows /\ rows ≠ [])
    /\ ((SheetClient.getAllData config s).1 = Ok []
        \/ (exists e, (SheetClient.getAllData config s).1 = Throw e) ->
        success resp = false
        /\ exists msg, error resp = Some msg /\ msg ≠ "").
Proof.
  unfold SheetApi.getAllData, SheetApi.currentTime. unfold_client.
  destruct (SheetClient.getAllData config s) as [[rows|e] s1]; simpl.
  - destruct rows as [|r rows]; simpl.
    + eexists _, _. split; [reflexivity|]. simpl.
      split; [reflexivity|]. split; [reflexivity|]. split; [|split].
      * split; [discriminate | intros (rows & [= <-] & H); congruence].
      * discriminate.
      * intros _. split; [reflexivity|]. eexists. split; [reflexivity|].
        discriminate.
    + eexists _, _. split; [reflexivity|]. simpl.
      split; [reflexivity|]. split; [reflexivity|]. split; [|split].
      * split; [intros _; eexists; split; [reflexivity | discriminate] | reflexivity].
      * intros _. eexists; split; [reflexivity | discriminate].
      * intros [H|[e H]]; discriminate H.
  - eexists _, _. split; [reflexivity|]. simpl.
    split; [reflexivity|]. split; [reflexivity|]. split; [|split].
    + split; [discriminate | intros (rows & H & _); discriminate H].
    + discriminate.
    + intros _. split; [reflexivity|]. eexists. split; [reflexivity|].
      unfold String.append. discriminate.
Qed.

(** C7 (as corrected). [updateField] looks for the identifier among all
    the values of each row, not only under [_id] and the first header.
    For an update whose identifier is the value of no property of any row
    of the data read (such an identifier matches no row for [getRowById]
    either), or whose field is not among the configured headers,
    [updateField] resolves to a failure response, issues no write request
    (at most the GET request of the read), and does not invalidate the
    cache: the state it leaves is the one the read leaves, so the only
    possible change of the cache is the ['all_data'] entry that the read
    stores when it has to fetch. When the data can be read, the error
    names the missing row (checked first) or the missing field; when the
    read fails, the error is that of the read. *)
Theorem updateField_missing_target
    (numberToString : JsVal -> string) (dateToISODate : JsVal -> Result string)
    (config : SheetConfig) (params : UpdateOperation) (s : ClientState) :
  let read := SheetClient.getAllData config s in
  (forall rows, read.1 = Ok rows ->
                (forall row, row ∈ rows -> ~ row_has_value (identifier params) row)
                \/ field params ∉ headers config) ->
  exists (resp : ApiResponse Payload) (msg : string),
    updateField numberToString dateToISODate config params s = (Ok resp, read.2)
    /\ success resp = false
    /\ error resp = Some msg
    /\ (forall rows, read.1 = Ok rows ->
          ((forall row, row ∈ rows -> ~ row_has_value (identifier params) row) ->
           msg = "Row with identifier "
                 +:+ idToString numberToString (identifier params)
                 +:+ " not found")
          /\ ((exists row, row ∈ rows /\ row_has_value (identifier params) row) ->
              msg = "Field " +:+ field params +:+ " not found in headers"))
    /\ (forall e, read.1 = Throw e -> msg = errorMessage e "Unknown error")
    /\ (sent read.2 = sent s \/ sent read.2 = (sent s ++ [dataRequest config])%list)
    /\ (cache read.2 = cache s
        \/ exists rows, read.1 = Ok rows
                        /\ cache read.2 = <["all_data" := (rows, now read.2)]> (cache s))
    /\ (forall row, ~ row_has_value (identifier params) row ->
                    ~ id_matches config (identifier params) row).
Proof.
  intros read Hmissing.
  assert (Hweaker : forall row, ~ row_has_value (identifier params) row ->
                                ~ id_matches config (identifier params) row).
  { intros row Hnone Hmatch. apply Hnone.
    apply (rowMatchesIdentifier_spec config). unfold rowMatchesIdentifier.
    apply (rowMatchesId_spec config) in Hmatch. now rewrite Hmatch. }
  pose proof (getAllData_effect config s) as Heff. fold read in Heff.
  unfold updateField, findRowByIdentifier. unfold_client. fold read.
  destruct read as [[rows|e] s1] eqn:Eread; simpl in *.
  - (* the data was read *)
    assert (Hstate :
      (sent s1 = sent s \/ sent s1 = (sent s ++ [dataRequest config])%list)
      /\ (cache s1 = cache s
          \/ exists rows0, Ok rows = Ok rows0
               /\ cache s1 = <["all_data" := (rows0, now s1)]> (cache s))
      /\ (forall row, ~ row_has_value (identifier params) row ->
                      ~ id_matches config (identifier params) row)).
    { destruct Heff as [[-> _]|[Hsent Hcache]].
      - split; [left; reflexivity|]. split; [left; reflexivity | exact Hweaker].
      - split; [right; exact Hsent|].
        split; [right; exists rows; auto | exact Hweaker]. }
    destruct (findIndex (rowMatchesIdentifier config (identifier params)) rows =? -1)
      eqn:Erow.
    + apply Z.eqb_eq in Erow. pose proof (proj1 (findIndex_none _ _) Erow) as Hnomatch.
      eexists _, _. split; [reflexivity|]. simpl.
      split; [reflexivity|]. split; [reflexivity|].
      split; [|split; [intros e [=] | exact Hstate]].
      intros rows0 [= <-]. split; [reflexivity|].
      intros (row & Hin & Hv). apply rowMatchesIdentifier_spec with (config := config) in Hv.
      rewrite (Hnomatch row Hin) in Hv. discriminate.
    + apply Z.eqb_neq in Erow.
      assert (Hsome : exists row, row ∈ rows /\ row_has_value (identifier params) row).
      { destruct (existsb (rowMatchesIdentifier config (identifier params)) rows) eqn:Eex.
        - apply existsb_exists in Eex as (row & Hin & Hp).
          exists row. split; [now apply list_elem_of_In|].
          now apply rowMatchesIdentifier_spec in Hp.
        - exfalso. apply Erow, findIndex_none. intros x Hx.
          apply not_true_is_false. intros Hp.
          assert (existsb (rowMatchesIdentifier config (identifier params)) rows = true)
            by (apply existsb_exists; exists x; split; [now apply list_elem_of_In | exact Hp]).
          congruence. }
      destruct (Hmissing rows eq_refl) as [Hnone|Hfield].
      { destruct Hsome as (row & Hin & Hv). now apply Hnone in Hv. }
      apply indexOf_none in Hfield. rewrite Hfield. simpl.
      eexists _, _. split; [reflexivity|]. simpl.
      split; [reflexivity|]. split; [reflexivity|].
      split; [|split; [intros e [=] | exact Hstate]].
      intros rows0 [= <-]. split; [|reflexivity].
      intros Hnone. destruct Hsome as (row & Hin & Hv). now apply Hnone in Hv.
  - (* the read failed *)
    destruct Heff as [Hsent Hcache].
    eexists _, _. split; [reflexivity|]. simpl.
    split; [reflexivity|]. split; [reflexivity|].
    split; [intros rows [=]|]. split; [intros e0 [= <-]; reflexivity|].
    split; [right; exact Hsent | split; [left; exact Hcache | exact Hweaker]].
Qed.

Lemma updateField_missing_target_witness :
  exists (resp : ApiResponse Payload),
    (updateField (fun _ => "0") (fun _ => Ok "") config_h update_missing_row cold_client).1
    = Ok resp
    /\ success resp = false
    /\ error resp = Some "Row with identifier zzz not found".
Proof.
  destruct (updateField_missing_target (fun _ => "0") (fun _ => Ok "")
              config_h update_missing_row cold_client)
    as (resp & msg & Hrun & Hfail & Herr & Hmsg & _).
  - intros rows Hrows. left. intros row Hin Hv.
    assert (Hread : (SheetClient.getAllData config_h cold_client).1
                    = Ok [ {[ "_id" := VStr "a"; "_rowIndex" := VNum 1;
                              "h" := VStr "a" ]} ]) by (vm_compute; reflexivity).
    rewrite Hread in Hrows. injection Hrows as <-.
    apply list_elem_of_singleton in Hin. subst row.
    apply (rowMatchesIdentifier_spec config_h) in Hv. vm_compute in Hv.
    discriminate Hv.
  - exists resp. rewrite Hrun. split; [reflexivity|]. split; [exact Hfail|].
    rewrite Herr. f_equal.
    eapply Hmsg; [vm_compute; reflexivity|].
    intros row Hin Hv.
    apply list_elem_of_singleton in Hin. subst row.
    apply (rowMatchesIdentifier_spec config_h) in Hv. vm_compute in Hv.
    discriminate Hv.
Defined.

(** The claim as stated fails twice. On a cold cache the update of a row
    that does not exist resolves to a failure and yet changes the client
    cache, because the read that precedes the check stores what it
    fetched. And an identifier that matches no row for [getRowById], by
    [_id] or by the first header, is written all the same when it equals
    another cell of a row: the update named by the cell [b] of the second
    column sends a POST for [B1]. *)
Lemma updateField_not_clean :
  let run := updateField (fun _ => "0") (fun _ => Ok "")
               config_h update_missing_row cold_client in
  let found := getRowById config_hg (IdStr "b") cold_client_hg in
  let written := updateField (fun _ => "0") (fun _ => Ok "")
                   config_hg update_by_other_cell cold_client_hg in
  ((exists resp, run.1 = Ok resp /\ success resp = false
                 /\ error resp = Some "Row with identifier zzz not found")
   /\ cache cold_client !! "all_data" = None
   /\ cache run.2 !! "all_data"
      = Some ([ {[ "_id" := VStr "a"; "_rowIndex" := VNum 1; "h" := VStr "a" ]} ], 1050)
   /\ cache run.2 ≠ cache cold_client)
  /\ (found.1 = Ok None
      /\ (exists resp, written.1 = Ok resp /\ success resp = true)
      /\ map req_method (sent written.2) = ["GET"; "POST"]
      /\ (range <$> (last (sent written.2) ≫= req_body)) = Some "B1").
Proof.
  cbv zeta. split; [split; [|split; [|split]] | split; [|split; [|split]]].
  - eexists. vm_compute. repeat split.
  - reflexivity.
  - vm_compute. reflexivity.
  - intros H. apply (f_equal (fun c => c !! "all_data")) in H.
    vm_compute in H. discriminate H.
  - vm_compute. reflexivity.
  - eexists. vm_compute. split; reflexivity.
  - vm_compute. reflexivity.
  - vm_compute. reflexivity.
Qed.

(** ** Adding rows, searching and writing cells *)

Section Client_more_lemmas.

Lemma mapResult_length {A B} (f : A -> Result B) (l : list A) (ys : list B) :
  mapResult f l = Ok ys -> length ys = length l.
Proof.
  revert ys. induction l as [|x l IH]; intros ys; simpl.
  - now intros [= <-].
  - destruct (f x) as [y|e]; [|discriminate].
    destruct (mapResult f l) as [ys'|e]; [|discriminate].
    intros [= <-]. simpl. f_equal. now apply IH.
Qed.

Lemma mapResult_ext {A B} (f g : A -> Result B) (l : list A) :
  (forall x, x ∈ l -> f x = g x) -> mapResult f l = mapResult g l.
Proof.
  induction l as [|x l IH]; intros H; simpl; [reflexivity|].
  rewrite (H x) by left. rewrite IH; [reflexivity|].
  intros y Hy. apply H. now right.
Qed.

Lemma makeRequest_effect (config : SheetConfig) (method endpoint : string)
    (body : option UpdateBody) (s : ClientState) :
  let request := {| req_method := method;
                    req_url := apiBaseUrl config +:+ endpoint;
                    req_authorization := "Bearer " +:+ apiKey config;
                    req_body := body |} in
  sent (makeRequest config method endpoint body s).2 = (sent s ++ [request])%list
  /\ cache (makeRequest config method endpoint body s).2 = cache s.
Proof.
  unfold makeRequest.
  destruct (net s (length (sent s))) as [delay [e|ok statusLine result]]; simpl.
  - split; reflexivity.
  - destruct ok; simpl; [|split; reflexivity].
    destruct (body_success result); split; reflexivity.
Qed.

End Client_more_lemmas.

(** X1. [addRow] never rejects and sends at most one request. When a cell
    cannot be formatted nothing is sent and the state is unchanged.
    Otherwise one PUT request goes to the update endpoint, for the range
    [A:A], with one row that has exactly one cell per configured header;
    if that exchange throws the cache is left alone and the error is
    returned as a failure; if it does not, the cache is emptied and the
    response is returned, also when the response says [success = false]. *)
Theorem addRow_outcome
    (numberToString : JsVal -> string) (dateToISODate : JsVal -> Result string)
    (config : SheetConfig) (data : RowData) (s : ClientState) :
  exists (resp : ApiResponse Payload) (s' : ClientState),
    addRow numberToString dateToISODate config data s = (Ok resp, s')
    /\ match rowValues numberToString dateToISODate config data with
       | Throw e => s' = s /\ resp = failure e
       | Ok values =>
           let body := {| range := "A:A"; update_values := [values];
                          valueInputOption := "USER_ENTERED" |} in
           length values = length (headers config)
           /\ sent s' = (sent s ++ [ {| req_method := "PUT";
                                        req_url := apiBaseUrl config
                                                   +:+ updateEndpoint config;
                                        req_authorization := "Bearer "
                                                             +:+ apiKey config;
                                        req_body := Some body |} ])%list
           /\ match (makeRequest config "PUT" (updateEndpoint config)
                                 (Some body) s).1 with
              | Ok r => resp = r /\ cache s' = ∅
              | Throw e => resp = failure e /\ cache s' = cache s
              end
       end.
Proof.
  unfold addRow, invalidateCache. unfold_client.
  destruct (rowValues numberToString dateToISODate config data) as [values|e] eqn:Ev.
  - pose proof (makeRequest_effect config "PUT" (updateEndpoint config)
                  (Some {| range := "A:A"; update_values := [values];
                           valueInputOption := "USER_ENTERED" |}) s)
      as [Hsent Hcache].
    cbv zeta in Hsent.
    destruct (makeRequest config "PUT" (updateEndpoint config) _ s)
      as [[r|e] s1]; simpl in *.
    + eexists _, _. split; [reflexivity|].
      split; [apply (mapResult_length _ _ _ Ev)|]. simpl.
      split; [exact Hsent|]. split; reflexivity.
    + eexists _, _. split; [reflexivity|].
      split; [apply (mapResult_length _ _ _ Ev)|].
      split; [exact Hsent|]. split; [reflexivity | exact Hcache].
  - eexists _, _. split; [reflexivity|]. split; reflexivity.
Qed.

(** X2. [addRow] looks at the data only through [data[header] || ''] for
    the configured headers: entries under other keys are dropped, and a
    falsy value ([false], [0], [null], ['']) is written like the empty
    string. A header without an entry in the data is written like the
    empty string too, unless it is named like a member of
    [Object.prototype]: the read then yields that member. *)
Theorem addRow_reads_headers_only
    (numberToString : JsVal -> string) (dateToISODate : JsVal -> Result string)
    (config : SheetConfig) (data1 data2 : RowData) (s : ClientState) :
  ((forall header, header ∈ headers config ->
                   orEmpty (dataGet data1 header) = orEmpty (dataGet data2 header)) ->
   addRow numberToString dateToISODate config data1 s
   = addRow numberToString dateToISODate config data2 s)
  /\ (forall header,
        (forall value, (header, value) ∉ data1) ->
        orEmpty (dataGet data1 header)
        = default (VStr "") (objectPrototype header)).
Proof.
  split.
  - intros Hsame. unfold addRow.
    assert (rowValues numberToString dateToISODate config data1
            = rowValues numberToString dateToISODate config data2) as ->;
      [|reflexivity].
    unfold rowValues. apply mapResult_ext. intros header Hin.
    now rewrite (Hsame header Hin).
  - intros header Habsent. unfold dataGet.
    destruct (find (fun kv : string * JsVal => String.eqb kv.1 header) data1)
      as [[k v]|] eqn:Efind.
    + apply find_some in Efind as [Hin Hk]. simpl in Hk.
      apply String.eqb_eq in Hk. subst k.
      exfalso. apply (Habsent v). now apply list_elem_of_In.
    + destruct (objectPrototype_cases header) as [->|[m ->]]; reflexivity.
Qed.

Lemma addRow_reads_headers_only_witness :
  addRow (fun _ => "0") (fun _ => Ok "") config_h
         [("h", VBool false); ("extra", VStr "x")] cold_client
  = addRow (fun _ => "0") (fun _ => Ok "") config_h [] cold_client.
Proof.
  apply (addRow_reads_headers_only (fun _ => "0") (fun _ => Ok "") config_h
           [("h", VBool false); ("extra", VStr "x")] [] cold_client).
  intros header Hin. apply list_elem_of_singleton in Hin. subst header.
  reflexivity.
Defined.

Section Search_lemmas.

Lemma filter_sublist {A} (p : A -> bool) (l : list A) :
  sublist (List.filter p l) l.
Proof.
  induction l as [|x l IH]; simpl; [constructor|].
  destruct (p x); [now apply sublist_skip | now apply sublist_cons].
Qed.

Lemma elem_of_List_filter {A} (p : A -> bool) (l : list A) (x : A) :
  x ∈ List.filter p l <-> x ∈ l /\ p x = true.
Proof.
  rewrite !list_elem_of_In, filter_In. reflexivity.
Qed.

Lemma filter_all_or_nothing {A} (b : bool) (l : list A) :
  List.filter (fun _ => b) l = if b then l else [].
Proof.
  induction l as [|x l IH]; simpl; [now destruct b|].
  rewrite IH. now destruct b.
Qed.

End Search_lemmas.

(** X3. [filterData] never invents, changes or reorders rows: its result
    is a sublist of the data; and a query with neither a field nor a
    truthy value returns the data itself. *)
Theorem filterData_sublist (numberToString : JsVal -> string)
    (numberLt : JsVal -> JsVal -> bool)
    (data : list SheetRow) (query : SearchQuery) :
  sublist (filterData numberToString numberLt data query) data
  /\ (truthyString (query_field query) = false ->
      toBooleanJs (query_value query) = false ->
      filterData numberToString numberLt data query = data).
Proof.
  unfold filterData. split.
  - destruct (_ && _); [reflexivity | apply filter_sublist].
  - intros -> ->. reflexivity.
Qed.

Lemma filterData_sublist_witness :
  filterData (fun _ => "0") (fun _ _ => false) [ {[ "h" := VStr "a" ]} ]
    {| query_field := None; query_value := VStr ""; query_operator := None |}
  = [ {[ "h" := VStr "a" ]} ].
Proof.
  apply (filterData_sublist (fun _ => "0") (fun _ _ => false) [ {[ "h" := VStr "a" ]} ]
           {| query_field := None; query_value := VStr "";
              query_operator := None |}); reflexivity.
Defined.

(** X4. A search with the operator [equals] on a field, the value of the
    field being what [row[field]] reads: for a truthy search value the
    rows kept are exactly those whose value of the field is strictly equal
    to it; for a falsy search value ([''], [false], [0], [null], none) the
    rows kept are exactly those whose value of the field is falsy, equal
    or not. *)
Theorem filterData_equals (numberToString : JsVal -> string)
    (numberLt : JsVal -> JsVal -> bool)
    (data : list SheetRow) (f : string) (v : JsVal) (row : SheetRow) :
  f ≠ "" ->
  let query := {| query_field := Some f; query_value := v;
                  query_operator := Some Equals |} in
  (toBooleanJs v = true ->
   (row ∈ filterData numberToString numberLt data query
    <-> row ∈ data /\ getProp row f = v))
  /\ (toBooleanJs v = false ->
      (row ∈ filterData numberToString numberLt data query
       <-> row ∈ data /\ toBooleanJs (getProp row f) = false)).
Proof.
  intros Hf query. apply String.eqb_neq in Hf.
  unfold filterData, query. simpl. rewrite Hf. simpl.
  rewrite elem_of_List_filter. unfold rowPasses. simpl. rewrite Hf.
  split; intros Hv; rewrite Hv; simpl.
  - rewrite andb_false_r. rewrite strict_eq_true. reflexivity.
  - rewrite andb_true_r.
    destruct (toBooleanJs (getProp row f)) eqn:Efield; simpl.
    + split; [|intros [_ H]; discriminate H].
      intros [_ Heq]. apply strict_eq_true in Heq. rewrite Heq in Efield.
      congruence.
    + tauto.
Qed.

Lemma filterData_equals_witness :
  {[ "Done" := VStr "" ]}
  ∈ filterData (fun _ => "0") (fun _ _ => false)
      [ {[ "Done" := VStr "" ]}; {[ "Done" := VBool true ]} ]
      {| query_field := Some "Done"; query_value := VBool false;
         query_operator := Some Equals |}.
Proof.
  apply (filterData_equals (fun _ => "0") (fun _ _ => false)
           [ {[ "Done" := VStr "" ]}; {[ "Done" := VBool true ]} ]
           "Done" (VBool false) {[ "Done" := VStr "" ]}); [discriminate | reflexivity |].
  split; [left | reflexivity].
Defined.

(** X5. A search without a field looks at no row: whatever the operator
    and the value, its result is either all of the data or nothing. With
    the operator [contains] (or none) and a truthy value it is all of the
    data exactly when the lowercased value occurs in the text [null]. *)
Theorem filterData_without_field (numberToString : JsVal -> string)
    (numberLt : JsVal -> JsVal -> bool)
    (data : list SheetRow) (query : SearchQuery) :
  truthyString (query_field query) = false ->
  (filterData numberToString numberLt data query = data
   \/ filterData numberToString numberLt data query = [])
  /\ (toBooleanJs (query_value query) = true ->
      query_operator query = None \/ query_operator query = Some Contains ->
      filterData numberToString numberLt data query
      = if Js.includes "null"
             (Js.toLowerCase (toStringJs numberToString (query_value query)))
        then data else []).
Proof.
  intros Hfield. unfold filterData. rewrite Hfield. simpl.
  assert (Hrow : forall row,
             rowPasses numberToString numberLt query row
             = rowPasses numberToString numberLt query ∅).
  { intros row. unfold rowPasses.
    destruct (query_field query) as [f|]; [|reflexivity].
    simpl in Hfield. apply negb_false_iff in Hfield. now rewrite Hfield. }
  assert (Hall : List.filter (rowPasses numberToString numberLt query) data
                 = if rowPasses numberToString numberLt query ∅ then data else []).
  { rewrite <- filter_all_or_nothing. apply filter_ext. exact Hrow. }
  destruct (toBooleanJs (query_value query)) eqn:Ev; simpl.
  - rewrite Hall. split; [destruct (rowPasses _ _ _); auto|].
    intros _ Hop. f_equal. unfold rowPasses. rewrite Ev.
    assert (Hnull : (match query_field query with
                     | Some f => if String.eqb f "" then VNull else getProp ∅ f
                     | None => VNull
                     end) = VNull).
    { destruct (query_field query) as [f|]; [|reflexivity].
      simpl in Hfield. apply negb_false_iff in Hfield. now rewrite Hfield. }
    rewrite Hnull. simpl. destruct Hop as [-> | ->]; reflexivity.
  - split; [now left | discriminate].
Qed.

Lemma filterData_without_field_witness :
  filterData (fun _ => "0") (fun _ _ => false) [ {[ "h" := VStr "a" ]} ]
    {| query_field := None; query_value := VStr "a"; query_operator := None |}
  = [].
Proof.
  rewrite (proj2 (filterData_without_field (fun _ => "0") (fun _ _ => false)
                    [ {[ "h" := VStr "a" ]} ]
                    {| query_field := None; query_value := VStr "a";
                       query_operator := None |} eq_refl) eq_refl
             (or_introl eq_refl)).
  reflexivity.
Defined.

(** X6. A search with [contains] (or no operator) on a field that a row
    does not have compares the text of what the read of the row falls back
    to. For a field that is not named like a member of [Object.prototype]
    that text is [undefined]: for a non-empty search string such a row is
    kept exactly when the lowercased string occurs in [undefined]. For a
    field named like a member, the text compared is that of the member. *)
Theorem filterData_missing_column (numberToString : JsVal -> string)
    (numberLt : JsVal -> JsVal -> bool)
    (data : list SheetRow) (f v : string) (op : option Operator) (row : SheetRow) :
  f ≠ "" -> v ≠ "" -> op = None \/ op = Some Contains ->
  row !! f = None ->
  let kept :=
    row ∈ filterData numberToString numberLt data
            {| query_field := Some f; query_value := VStr v;
               query_operator := op |} in
  (objectPrototype f = None ->
   (kept <-> row ∈ data /\ contains "undefined" (Js.toLowerCase v)))
  /\ (forall m, objectPrototype f = Some (VBuiltin m) ->
       (kept <-> row ∈ data
                 /\ contains (Js.toLowerCase (builtinText m)) (Js.toLowerCase v))).
Proof.
  intros Hf Hv Hop Hmissing kept. subst kept.
  apply String.eqb_neq in Hf, Hv.
  assert (Hlow : Js.toLowerCase "undefined" = "undefined") by reflexivity.
  assert (Hkept : forall fieldValue,
             getProp row f = fieldValue ->
             toBooleanJs (VStr v) = true ->
             (row ∈ filterData numberToString numberLt data
                      {| query_field := Some f; query_value := VStr v;
                         query_operator := op |}
              <-> row ∈ data
                  /\ contains (Js.toLowerCase (toStringJs numberToString fieldValue))
                               (Js.toLowerCase v))).
  { intros fieldValue Hfield Htruthy.
    unfold filterData. cbn -[Js.includes String.prefix Js.toLowerCase toBooleanJs].
    rewrite Hf, Htruthy. cbn [negb andb].
    rewrite elem_of_List_filter. unfold rowPasses.
    cbn -[Js.includes String.prefix Js.toLowerCase toBooleanJs].
    rewrite Hf, Hfield, Htruthy. cbn [negb]. rewrite andb_false_r.
    destruct Hop as [-> | ->]; rewrite includes_spec; reflexivity. }
  assert (Htruthy : toBooleanJs (VStr v) = true) by (simpl; now rewrite Hv).
  split.
  - intros Hproto. rewrite <- Hlow at 1.
    apply (Hkept VUndef); [|exact Htruthy].
    unfold getProp. now rewrite Hmissing, Hproto.
  - intros m Hproto.
    apply (Hkept (VBuiltin m)); [|exact Htruthy].
    unfold getProp. now rewrite Hmissing, Hproto.
Qed.

Lemma filterData_missing_column_witness :
  ({[ "Name" := VStr "Ann" ]} : SheetRow)
  ∈ filterData (fun _ => "0") (fun _ _ => false) [ {[ "Name" := VStr "Ann" ]} ]
      {| query_field := Some "Email"; query_value := VStr "Fine";
         query_operator := None |}.
Proof.
  apply (filterData_missing_column (fun _ => "0") (fun _ _ => false)
           [ {[ "Name" := VStr "Ann" ]} ] "Email" "Fine" None
           {[ "Name" := VStr "Ann" ]});
    [discriminate | discriminate | now left | reflexivity | reflexivity |].
  split; [left|]. exists "unde", "d". reflexivity.
Defined.

Section Write_lemmas.

Context (config : SheetConfig).

Lemma findIndex_from_first {A} (p : A -> bool) (l : list A) :
  forall (i0 : Z) (k : nat) (x : A),
    l !! k = Some x -> p x = true ->
    (forall (k' : nat) y, (k' < k)%nat -> l !! k' = Some y -> p y = false) ->
    findIndex_from p l i0 = i0 + Z.of_nat k.
Proof.
  induction l as [|a l IH]; intros i0 k x Hk Hp Hfirst; [discriminate|].
  destruct k as [|k]; simpl in *.
  - injection Hk as ->. rewrite Hp. lia.
  - rewrite (Hfirst 0%nat a) by (lia || reflexivity).
    rewrite (IH (i0 + 1) k x Hk Hp); [lia|].
    intros k' y Hlt Hy. apply (Hfirst (S k') y); [lia | exact Hy].
Qed.

Lemma findIndex_first {A} (p : A -> bool) (l : list A) (k : nat) (x : A) :
  l !! k = Some x -> p x = true ->
  (forall (k' : nat) y, (k' < k)%nat -> l !! k' = Some y -> p y = false) ->
  findIndex p l = Z.of_nat k.
Proof. intros. unfold findIndex. now rewrite (findIndex_from_first p l 0 k x). Qed.

(** Among the indices where a predicate holds there is a first one. *)
Lemma first_index {A} (p : A -> bool) (l : list A) :
  forall (i : nat) (x : A),
    l !! i = Some x -> p x = true ->
    exists (k : nat) (y : A),
      (k <= i)%nat /\ l !! k = Some y /\ p y = true
      /\ forall (k' : nat) z, (k' < k)%nat -> l !! k' = Some z -> p z = false.
Proof.
  induction l as [|a l IH]; intros i x Hi Hp; [discriminate|].
  destruct (p a) eqn:Ea.
  - exists 0%nat, a. split; [lia|]. split; [reflexivity|]. split; [exact Ea|].
    intros k' z Hlt. lia.
  - destruct i as [|i]; simpl in Hi; [congruence|].
    destruct (IH i x Hi Hp) as (k & y & Hle & Hk & Hy & Hfirst).
    exists (S k), y. split; [lia|]. split; [exact Hk|]. split; [exact Hy|].
    intros [|k'] z Hlt Hz; simpl in Hz; [congruence|].
    apply (Hfirst k' z); [lia | exact Hz].
Qed.

Lemma getAllData_again (s s1 : ClientState) (rows : list SheetRow) :
  getAllData config s = (Ok rows, s1) -> getAllData config s1 = (Ok rows, s1).
Proof.
  intros Hread. pose proof (getAllData_effect config s) as Heff.
  rewrite Hread in Heff. destruct Heff as [[-> _]|[_ Hcache]]; [exact Hread|].
  unfold getAllData. rewrite Hcache, lookup_insert_eq.
  rewrite Z.sub_diag. reflexivity.
Qed.

Lemma findRowByIdentifier_run (ident : Identifier) (s s1 : ClientState)
    (rows : list SheetRow) :
  getAllData config s = (Ok rows, s1) ->
  findRowByIdentifier config ident s
  = (Ok (findIndex (rowMatchesIdentifier config ident) rows), s1).
Proof.
  intros Hread. unfold findRowByIdentifier. unfold_client. now rewrite Hread.
Qed.

Lemma getCellValue_run (s1 : ClientState) (rows : list SheetRow)
    (i j : nat) (row : SheetRow) (h : string) :
  getAllData config s1 = (Ok rows, s1) ->
  rows !! i = Some row -> headers config !! j = Some h ->
  getCellValue config (Z.of_nat i) (Z.of_nat j) s1 = (Ok (getProp row h), s1).
Proof.
  intros Hread Hrow Hh. unfold getCellValue. unfold_client. rewrite Hread.
  apply lookup_lt_Some in Hrow as Hi. apply lookup_lt_Some in Hh as Hj.
  destruct (Z.leb_spec (Z.of_nat (length rows)) (Z.of_nat i)); [lia|].
  destruct (Z.leb_spec (Z.of_nat (length (headers config))) (Z.of_nat j)); [lia|].
  simpl.
  destruct (Z.ltb_spec (Z.of_nat j) 0); [lia|].
  destruct (Z.ltb_spec (Z.of_nat i) 0); [lia|].
  rewrite !Nat2Z.id, Hrow, Hh. reflexivity.
Qed.

Lemma indexOf_first (l : list string) (j : nat) (x : string) :
  l !! j = Some x -> (forall k : nat, (k < j)%nat -> l !! k ≠ Some x) ->
  indexOf l x = Z.of_nat j.
Proof.
  intros Hj Hfirst. unfold indexOf. apply (findIndex_first _ l j x Hj).
  - apply String.eqb_refl.
  - intros k y Hlt Hy. apply String.eqb_neq. intros <-. now apply (Hfirst k).
Qed.

End Write_lemmas.

(** X7. A successful read is served from the cache, and changes nothing,
    exactly when the cache holds an entry less than 30000 ms old.
    Otherwise the read issues the GET request and stores the rows with
    the time at which the reply arrived as their timestamp. While an entry
    is in the cache, a read less than 30000 ms after its timestamp is
    served from it without a request, and a read 30000 ms or more after
    it issues the GET request again. *)
Theorem getAllData_cache_window (config : SheetConfig) (s s1 : ClientState)
    (rows : list SheetRow) :
  SheetClient.getAllData config s = (Ok rows, s1) ->
  ((exists t, cache s !! "all_data" = Some (rows, t) /\ now s - t < 30000)
   /\ s1 = s
   \/ (forall rows0 t, cache s !! "all_data" = Some (rows0, t) -> 30000 <= now s - t)
      /\ sent s1 = (sent s ++ [dataRequest config])%list
      /\ now s1 = now s + Z.of_N (net s (length (sent s))).1
      /\ cache s1 = <["all_data" := (rows, now s1)]> (cache s))
  /\ forall (s2 : ClientState) (t : Z),
      cache s2 !! "all_data" = Some (rows, t) ->
      (now s2 - t < 30000 -> SheetClient.getAllData config s2 = (Ok rows, s2))
      /\ (30000 <= now s2 - t ->
          sent (SheetClient.getAllData config s2).2
          = (sent s2 ++ [dataRequest config])%list).
Proof.
  intros Hread. split.
  - pose proof (getAllData_effect config s) as Heff. rewrite Hread in Heff.
    assert (Hnow : forall request,
               sent s1 = (sent s ++ [request])%list ->
               SheetClient.getAllData config s = (Ok rows, s1) ->
               (forall rows0 t, cache s !! "all_data" = Some (rows0, t) ->
                                30000 <= now s - t)
               /\ now s1 = now s + Z.of_N (net s (length (sent s))).1).
    { intros request Hsent. unfold getAllData. cbv zeta.
      assert (Hfetch : forall r s',
                 (response ← makeRequest config "GET" (dataEndpoint config) None;
                  match Types.data response ≫= values with
                  | None | Some [] => throw (noDataError)
                  | Some vs =>
                      fun s' : ClientState =>
                        (Ok (transformRawDataToRows config vs),
                         set_cache
                           (<["all_data" := (transformRawDataToRows config vs, now s')]>
                              (cache s')) s')
                  end) s = (Ok r, s') ->
                 now s' = now s + Z.of_N (net s (length (sent s))).1).
      { intros r s'. unfold_client. unfold makeRequest.
        destruct (net s (length (sent s))) as [delay [e|ok statusLine result]]; simpl;
          [discriminate|].
        destruct ok; simpl; [|discriminate].
        destruct (body_success result); simpl; [|discriminate].
        destruct (body_data result) as [[[[|v vs]|]]|]; simpl;
          try discriminate; intros [= _ <-]; reflexivity. }
      destruct (cache s !! "all_data") as [[cached_data cached_timestamp]|] eqn:Ec.
      - destruct (Z.ltb_spec (now s - cached_timestamp) CACHE_TTL) as [Hlt|Hge].
        + intros [= _ <-]. exfalso.
          apply (f_equal (@length _)) in Hsent. rewrite length_app in Hsent.
          simpl in Hsent. lia.
        + intros Hrun. split; [|exact (Hfetch _ _ Hrun)].
          intros rows0 t [= _ <-]. unfold CACHE_TTL in Hge. exact Hge.
      - intros Hrun. split; [discriminate | exact (Hfetch _ _ Hrun)]. }
    destruct Heff as [[-> (t & Ht & Hfresh)]|[Hsent Hcache]].
    + left. split; [exists t; auto | reflexivity].
    + right. destruct (Hnow _ Hsent Hread) as [Hold Htime]. auto.
  - intros s2 t Hs2. split.
    + intros Hlt. unfold getAllData. rewrite Hs2.
      destruct (Z.ltb_spec (now s2 - t) CACHE_TTL) as [_|Hge];
        [reflexivity | unfold CACHE_TTL in Hge; lia].
    + intros Hge. pose proof (getAllData_effect config s2) as Heff2.
      destruct (getAllData config s2) as [[rows2|e] s3]; simpl.
      * destruct Heff2 as [[_ (t2 & Ht2 & Hfresh2)]|[Hsent _]]; [|exact Hsent].
        rewrite Hs2 in Ht2. injection Ht2 as _ <-. unfold CACHE_TTL in Hfresh2. lia.
      * now destruct Heff2.
Qed.

Lemma getAllData_cache_window_witness :
  cache (SheetClient.getAllData config_h cold_client).2 !! "all_data"
  = Some ([row_a], 1050)
  /\ now (SheetClient.getAllData config_h cold_client).2 = 1050.
Proof.
  destruct (getAllData_cache_window config_h cold_client
              (SheetClient.getAllData config_h cold_client).2 [row_a])
    as [[[(t & Ht & _) _]|(_ & _ & Hnow & Hcache)] _].
  - vm_compute. reflexivity.
  - vm_compute in Ht. discriminate Ht.
  - rewrite Hcache, lookup_insert_eq, Hnow. split; reflexivity.
Defined.

(** X8. The row that a write targets is never after the row that
    [getRowById] returns: if the row at index [i] matches the identifier
    by its [_id] or its primary key, [findRowByIdentifier] returns an
    index [j <= i] of a row that has the identifier as one of its values
    (in any column). *)
Theorem findRowByIdentifier_not_after_getRowById (config : SheetConfig)
    (ident : Identifier) (s s1 : ClientState) (rows : list SheetRow)
    (i : nat) (row : SheetRow) :
  SheetClient.getAllData config s = (Ok rows, s1) ->
  rows !! i = Some row ->
  id_matches config ident row ->
  exists (j : nat) (target : SheetRow),
    findRowByIdentifier config ident s = (Ok (Z.of_nat j), s1)
    /\ (j <= i)%nat
    /\ rows !! j = Some target
    /\ row_has_value ident target
    /\ forall (k : nat) r, (k < j)%nat -> rows !! k = Some r ->
                           ~ row_has_value ident r.
Proof.
  intros Hread Hrow Hmatch.
  assert (Hp : rowMatchesIdentifier config ident row = true).
  { unfold rowMatchesIdentifier. apply orb_true_iff. left.
    now apply rowMatchesId_spec. }
  destruct (first_index _ rows i row Hrow Hp) as (j & target & Hle & Hj & Ht & Hfirst).
  exists j, target. rewrite (findRowByIdentifier_run config ident s s1 rows Hread).
  rewrite (findIndex_first _ rows j target Hj Ht Hfirst).
  split; [reflexivity|]. split; [exact Hle|]. split; [exact Hj|].
  split; [now apply (rowMatchesIdentifier_spec config)|].
  intros k r Hlt Hr Hv. apply (rowMatchesIdentifier_spec config) in Hv.
  rewrite (Hfirst k r Hlt Hr) in Hv. discriminate.
Qed.

Lemma findRowByIdentifier_not_after_getRowById_witness :
  exists (j : nat) (target : SheetRow),
    findRowByIdentifier config_h (IdStr "a") cold_client
    = (Ok (Z.of_nat j), (SheetClient.getAllData config_h cold_client).2)
    /\ (j <= 0)%nat.
Proof.
  destruct (findRowByIdentifier_not_after_getRowById config_h (IdStr "a")
              cold_client (SheetClient.getAllData config_h cold_client).2
              [ {[ "_id" := VStr "a"; "_rowIndex" := VNum 1; "h" := VStr "a" ]} ]
              0 {[ "_id" := VStr "a"; "_rowIndex" := VNum 1; "h" := VStr "a" ]})
    as (j & target & Hrun & Hle & _).
  - vm_compute. reflexivity.
  - reflexivity.
  - left. vm_compute. reflexivity.
  - exists j, target. split; [exact Hrun | exact Hle].
Defined.

Section Update_lemmas.

Lemma getA1Notation_run (row col : Z) :
  0 <= col ->
  exists letters,
    numberToColumnLetter col = Some letters
    /\ upper_letters letters
    /\ bijective26_value letters = col + 1
    /\ getA1Notation row col = Some (letters +:+ pretty row).
Proof.
  intros Hcol.
  destruct (numberToColumnLetter_loop_spec (Z.to_nat (col + 1)) col "")
    as (letters & Hrun & Hup & Hval); [lia | lia |].
  assert (Hnil : letters +:+ "" = letters).
  { clear. induction letters as [|a s IH]; simpl_append;
      [reflexivity | f_equal; exact IH]. }
  rewrite Hnil in Hrun. exists letters.
  unfold getA1Notation, numberToColumnLetter. rewrite Hrun. simpl. auto.
Qed.

(** The part of [updateField] up to the optimistic lock, for a target that
    exists: the lock is checked against the current value of the cell. *)
Lemma updateField_target_found
    (numberToString : JsVal -> string) (dateToISODate : JsVal -> Result string)
    (config : SheetConfig) (params : UpdateOperation) (s s1 : ClientState)
    (rows : list SheetRow) (i j : nat) (row : SheetRow) :
  SheetClient.getAllData config s = (Ok rows, s1) ->
  rows !! i = Some row ->
  row_has_value (identifier params) row ->
  (forall (k : nat) r, (k < i)%nat -> rows !! k = Some r ->
                       ~ row_has_value (identifier params) r) ->
  headers config !! j = Some (field params) ->
  (forall k : nat, (k < j)%nat -> headers config !! k ≠ Some (field params)) ->
  findRowByIdentifier config (identifier params) s = (Ok (Z.of_nat i), s1)
  /\ indexOf (headers config) (field params) = Z.of_nat j
  /\ getCellValue config (Z.of_nat i) (Z.of_nat j) s1
     = (Ok (getProp row (field params)), s1).
Proof.
  intros Hread Hrow Hval Hfirst Hj Hjfirst.
  split; [|split].
  - rewrite (findRowByIdentifier_run config _ s s1 rows Hread).
    rewrite (findIndex_first _ rows i row Hrow); [reflexivity | |].
    + now apply rowMatchesIdentifier_spec.
    + intros k r Hlt Hr. apply not_true_is_false. intros Hp.
      apply (Hfirst k r Hlt Hr). now apply rowMatchesIdentifier_spec in Hp.
  - now apply indexOf_first.
  - apply (getCellValue_run config s1 rows i j row _); [|exact Hrow | exact Hj].
    now apply (getAllData_again config s).
Qed.

End Update_lemmas.

(** X9. The write that [updateField] sends. When the identifier is a
    value of some row, the first such row having the 0-based index [i]
    among the data rows, the field is the configured header of column [j]
    (its first occurrence), the optimistic lock passes (no old value, or
    the old value is the current value of the cell) and the new value can
    be formatted, exactly one POST request follows the read: its range is
    the letters of column [j] followed by [i + 1], its values are the one
    formatted cell. If the exchange does not throw the cache is emptied
    and the response returned; if it throws the error is returned as a
    failure and the cache is kept. *)
Theorem updateField_writes_cell
    (numberToString : JsVal -> string) (dateToISODate : JsVal -> Result string)
    (config : SheetConfig) (params : UpdateOperation) (s s1 : ClientState)
    (rows : list SheetRow) (i j : nat) (row : SheetRow) (formatted : string) :
  SheetClient.getAllData config s = (Ok rows, s1) ->
  rows !! i = Some row ->
  row_has_value (identifier params) row ->
  (forall (k : nat) r, (k < i)%nat -> rows !! k = Some r ->
                       ~ row_has_value (identifier params) r) ->
  headers config !! j = Some (field params) ->
  (forall k : nat, (k < j)%nat -> headers config !! k ≠ Some (field params)) ->
  oldValue params = VUndef \/ getProp row (field params) = oldValue params ->
  formatValue numberToString dateToISODate (newValue params)
              (dataTypes config !! field params) = Ok formatted ->
  exists letters : string,
    numberToColumnLetter (Z.of_nat j) = Some letters
    /\ bijective26_value letters = Z.of_nat j + 1
    /\ let body := {| range := letters +:+ pretty (Z.of_nat i + 1);
                      update_values := [[formatted]];
                      valueInputOption := "USER_ENTERED" |} in
       updateField numberToString dateToISODate config params s
       = match makeRequest config "POST" (updateEndpoint config) (Some body) s1 with
         | (Ok response, s2) => (Ok response, set_cache ∅ s2)
         | (Throw e, s2) => (Ok (failure e), s2)
         end.
Proof.
  intros Hread Hrow Hval Hfirst Hj Hjfirst Hlock Hformat.
  destruct (updateField_target_found numberToString dateToISODate config params
              s s1 rows i j row Hread Hrow Hval Hfirst Hj Hjfirst)
    as (Hfind & Hindex & Hcell).
  destruct (getA1Notation_run (Z.of_nat i + 1) (Z.of_nat j))
    as (letters & Hletters & _ & Hvalue & Hrange); [lia|].
  exists letters. split; [exact Hletters|]. split; [exact Hvalue|].
  cbv zeta. unfold updateField, invalidateCache. unfold_client.
  rewrite Hfind, Hindex.
  destruct (Z.eqb_spec (Z.of_nat i) (-1)); [lia|].
  destruct (Z.eqb_spec (Z.of_nat j) (-1)); [lia|].
  rewrite Hrange, Hformat.
  destruct (strict_eq (oldValue params) VUndef) eqn:Eold; simpl.
  - destruct (makeRequest config "POST" (updateEndpoint config) _ s1)
      as [[response|e] s2]; reflexivity.
  - rewrite Hcell.
    destruct Hlock as [Hundef|Hsame];
      [rewrite Hundef in Eold; discriminate Eold|].
    assert (strict_eq (getProp row (field params)) (oldValue params) = true) as ->
        by now apply strict_eq_true.
    simpl.
    destruct (makeRequest config "POST" (updateEndpoint config) _ s1)
      as [[response|e] s2]; reflexivity.
Qed.

(** X10. The optimistic lock. When the target row and field exist, an old
    value is given and it is not strictly equal to the current value of
    the cell as the client holds it (a string trimmed on reading, or a
    boolean), [updateField] resolves to the failure ['Optimistic lock
    failed: ...'] and sends no write: it leaves the state that the read
    left. *)
Theorem updateField_optimistic_lock
    (numberToString : JsVal -> string) (dateToISODate : JsVal -> Result string)
    (config : SheetConfig) (params : UpdateOperation) (s s1 : ClientState)
    (rows : list SheetRow) (i j : nat) (row : SheetRow) :
  SheetClient.getAllData config s = (Ok rows, s1) ->
  rows !! i = Some row ->
  row_has_value (identifier params) row ->
  (forall (k : nat) r, (k < i)%nat -> rows !! k = Some r ->
                       ~ row_has_value (identifier params) r) ->
  headers config !! j = Some (field params) ->
  (forall k : nat, (k < j)%nat -> headers config !! k ≠ Some (field params)) ->
  oldValue params ≠ VUndef ->
  getProp row (field params) ≠ oldValue params ->
  updateField numberToString dateToISODate config params s
  = (Ok {| success := false; data := None;
           error := Some "Optimistic lock failed: value was changed by another user";
           message := None; timestamp := None |}, s1).
Proof.
  intros Hread Hrow Hval Hfirst Hj Hjfirst Hold Hdiff.
  destruct (updateField_target_found numberToString dateToISODate config params
              s s1 rows i j row Hread Hrow Hval Hfirst Hj Hjfirst)
    as (Hfind & Hindex & Hcell).
  unfold updateField. unfold_client. rewrite Hfind, Hindex.
  destruct (Z.eqb_spec (Z.of_nat i) (-1)); [lia|].
  destruct (Z.eqb_spec (Z.of_nat j) (-1)); [lia|].
  assert (strict_eq (oldValue params) VUndef = false) as ->
      by (apply not_true_is_false; intros H; now apply strict_eq_true in H).
  simpl. rewrite Hcell.
  assert (strict_eq (getProp row (field params)) (oldValue params) = false) as ->
      by (apply not_true_is_false; intros H; now apply strict_eq_true in H).
  reflexivity.
Qed.

Lemma updateField_writes_cell_witness :
  exists letters : string,
    numberToColumnLetter 0 = Some letters
    /\ bijective26_value letters = 0 + 1
    /\ updateField (fun _ => "0") (fun _ => Ok "") config_h update_cell cold_client
       = match makeRequest config_h "POST" (updateEndpoint config_h)
                 (Some {| range := letters +:+ pretty (0 + 1);
                          update_values := [["x"]];
                          valueInputOption := "USER_ENTERED" |})
                 (SheetClient.getAllData config_h cold_client).2 with
         | (Ok response, s2) => (Ok response, set_cache ∅ s2)
         | (Throw e, s2) => (Ok (failure e), s2)
         end.
Proof.
  apply (updateField_writes_cell (fun _ => "0") (fun _ => Ok "") config_h
           update_cell cold_client
           (SheetClient.getAllData config_h cold_client).2
           [row_a] 0 0 row_a "x").
  - vm_compute. reflexivity.
  - reflexivity.
  - exists "h". vm_compute. reflexivity.
  - intros k r Hlt. lia.
  - reflexivity.
  - intros k Hlt. lia.
  - now left.
  - reflexivity.
Defined.

Lemma updateField_optimistic_lock_witness :
  updateField (fun _ => "0") (fun _ => Ok "") config_h update_cell_locked cold_client
  = (Ok {| success := false; data := None;
           error := Some "Optimistic lock failed: value was changed by another user";
           message := None; timestamp := None |},
     (SheetClient.getAllData config_h cold_client).2).
Proof.
  apply (updateField_optimistic_lock (fun _ => "0") (fun _ => Ok "") config_h
           update_cell_locked cold_client
           (SheetClient.getAllData config_h cold_client).2
           [row_a] 0 0 row_a).
  - vm_compute. reflexivity.
  - reflexivity.
  - exists "h". vm_compute. reflexivity.
  - intros k r Hlt. lia.
  - reflexivity.
  - intros k Hlt. lia.
  - discriminate.
  - vm_compute. discriminate.
Defined.

(** ** The shape of the records *)

Section Record_lemmas.

Lemma trimStart_id t :
  (forall a u, t = String a u -> Js.is_ws a = false) -> Js.trimStart t = t.
Proof.
  destruct t as [|a u]; simpl; [reflexivity|].
  intros H. now rewrite (H a u eq_refl).
Qed.

Lemma trimEnd_id t :
  (forall u a, t = u +:+ String a "" -> Js.is_ws a = false) -> Js.trimEnd t = t.
Proof.
  induction t as [|b t IH]; intros Hlast; simpl; [reflexivity|].
  destruct t as [|c t'].
  - simpl. now rewrite (Hlast "" b eq_refl).
  - rewrite IH; [reflexivity|].
    intros u a Hu. apply (Hlast (String b u) a).
    simpl_append. now rewrite <- Hu.
Qed.

Lemma trim_idempotent s : Js.trim (Js.trim s) = Js.trim s.
Proof.
  destruct (trim_decompose s) as (_ & Hfirst & Hlast).
  unfold Js.trim at 1. rewrite (trimStart_id (Js.trim s)).
  - apply trimEnd_id. intros u a Hu. now apply (Hlast a u).
  - intros a u Hu. now apply (Hfirst a u).
Qed.



End Record_lemmas.



(** X12. The conversion looks at the column name only up to letter case,
    and a string that it returns is stable: converting that string again,
    for the same column, returns it unchanged. *)
Theorem smartTypeConversion_stable (value columnName : string) :
  smartTypeConversion value (Js.toLowerCase columnName)
  = smartTypeConversion value columnName
  /\ forall t, smartTypeConversion value columnName = VStr t ->
               smartTypeConversion t columnName = VStr t.
Proof.
  assert (Hlow : forall s, Js.toLowerCase (Js.toLowerCase s) = Js.toLowerCase s).
  { induction s as [|a s IH]; simpl; [reflexivity|]. f_equal; [|exact IH].
    destruct a as [[] [] [] [] [] [] [] []]; reflexivity. }
  unfold smartTypeConversion. split.
  - cbv zeta. now rewrite Hlow.
  - intros t.
    destruct (String.eqb value "" || String.eqb (Js.trim value) "") eqn:Eempty.
    + intros [= <-]. reflexivity.
    + cbv zeta.
      destruct (isBooleanColumn _ _) eqn:Ebool; [discriminate|].
      intros [= <-]. rewrite trim_idempotent.
      apply orb_false_iff in Eempty as [_ Etrim].
      assert (String.eqb (Js.trim value) "" || String.eqb (Js.trim value) "" = false)
        as -> by (rewrite Etrim; reflexivity).
      now rewrite Ebool.
Qed.

(** ** Regular expressions and the e-mail pattern *)

Section Regex_lemmas.

Import Regex.

Lemma append_empty_inv s1 s2 : s1 +:+ s2 = "" -> s1 = "" /\ s2 = "".
Proof. destruct s1; [simpl_append; auto | discriminate]. Qed.

Lemma append_nil_r s : s +:+ "" = s.
Proof. induction s as [|a s IH]; simpl_append; [reflexivity | now f_equal]. Qed.

Lemma append_assoc s1 s2 s3 : (s1 +:+ s2) +:+ s3 = s1 +:+ (s2 +:+ s3).
Proof. induction s1 as [|a s1 IH]; simpl_append; [reflexivity | now f_equal]. Qed.

Lemma nullable_spec r : nullable r = true <-> lang r "".
Proof.
  split.
  - induction r as [| |p|r1 IH1 r2 IH2|r1 IH1 r2 IH2|r IH]; simpl; intros H;
      try discriminate.
    + constructor.
    + apply andb_true_iff in H as [H1 H2].
      change "" with ("" +:+ ""). constructor; auto.
    + apply orb_true_iff in H as [H|H];
        [apply lang_alt_l | apply lang_alt_r]; auto.
    + constructor.
  - intros H. remember "" as s eqn:Hs.
    induction H as [|p a Hp|r1 r2 s1 s2 H1 IH1 H2 IH2|r1 r2 s H IH|r1 r2 s H IH
                   |r|r s1 s2 H1 IH1 H2 IH2]; simpl; try reflexivity.
    + discriminate.
    + apply append_empty_inv in Hs as [-> ->]. now rewrite IH1, IH2.
    + now rewrite IH.
    + rewrite IH by exact Hs. apply orb_true_r.
Qed.

Lemma deriv_complete r s0 :
  lang r s0 -> forall a s, s0 = String a s -> lang (deriv a r) s.
Proof.
  induction 1 as [|p b Hp|r1 r2 s1 s2 H1 IH1 H2 IH2|r1 r2 s' H IH|r1 r2 s' H IH
                 |r|r s1 s2 H1 IH1 H2 IH2]; intros a s Hs; simpl.
  - discriminate.
  - injection Hs as -> <-. rewrite Hp. constructor.
  - destruct s1 as [|b s1'].
    + revert Hs. simpl_append. intros ->.
      apply nullable_spec in H1. rewrite H1.
      apply lang_alt_r. now apply IH2.
    + revert Hs. simpl_append. intros [= -> <-].
      assert (lang (Cat (deriv a r1) r2) (s1' +:+ s2))
        by (constructor; [now apply IH1 | exact H2]).
      destruct (nullable r1); [now apply lang_alt_l | assumption].
  - apply lang_alt_l. now apply IH.
  - apply lang_alt_r. now apply IH.
  - discriminate.
  - destruct s1 as [|b s1'].
    + revert Hs. simpl_append. intros ->. now apply IH2.
    + revert Hs. simpl_append. intros [= -> <-].
      constructor; [now apply IH1 | exact H2].
Qed.

Lemma lang_never s : ~ lang Never s.
Proof. intros H. inversion H. Qed.

Lemma deriv_sound r : forall a s, lang (deriv a r) s -> lang r (String a s).
Proof.
  induction r as [| |p|r1 IH1 r2 IH2|r1 IH1 r2 IH2|r IH]; intros a s H; simpl in H.
  - now apply lang_never in H.
  - now apply lang_never in H.
  - destruct (p a) eqn:Hp; [|now apply lang_never in H].
    inversion H; subst. now constructor.
  - assert (Hcat : forall s', lang (Cat (deriv a r1) r2) s' ->
                              lang (Cat r1 r2) (String a s')).
    { intros s' Hc. inversion Hc as [| |? ? s1 s2 Hd H2| | | |]; subst.
      change (String a (s1 +:+ s2)) with (String a s1 +:+ s2).
      constructor; [now apply IH1 | exact H2]. }
    destruct (nullable r1) eqn:Hn; [|now apply Hcat].
    inversion H as [| | |? ? ? Hl|? ? ? Hr| |]; subst; [now apply Hcat|].
    change (String a s) with ("" +:+ String a s).
    constructor; [now apply nullable_spec | now apply IH2].
  - inversion H as [| | |? ? ? Hl|? ? ? Hr| |]; subst;
      [apply lang_alt_l; now apply IH1 | apply lang_alt_r; now apply IH2].
  - inversion H as [| |? ? s1 s2 Hd H2| | | |]; subst.
    change (String a (s1 +:+ s2)) with (String a s1 +:+ s2).
    constructor; [now apply IH | exact H2].
Qed.

(** [test] decides membership in the language of the expression. *)
Lemma test_spec s : forall r, test r s = true <-> lang r s.
Proof.
  induction s as [|a s IH]; intros r; simpl.
  - apply nullable_spec.
  - rewrite IH. split; [apply deriv_sound|].
    intros H. now apply (deriv_complete r (String a s)).
Qed.

Lemma lang_star_class p s : lang (Star (Class p)) s <-> all_chars p s.
Proof.
  split.
  - intros H. remember (Star (Class p)) as r eqn:Hr.
    induction H as [| | | | |r'|r' s1 s2 H1 _ H2 IH2]; try discriminate.
    + exact I.
    + injection Hr as ->. inversion H1; subst. simpl_append.
      split; [assumption | now apply IH2].
  - induction s as [|a s IH]; simpl; [constructor|].
    intros [Ha Hs]. change (String a s) with (String a "" +:+ s).
    constructor; [now constructor | now apply IH].
Qed.

Lemma lang_plus_class p s :
  lang (Plus (Class p)) s <-> s ≠ "" /\ all_chars p s.
Proof.
  unfold Plus. split.
  - intros H. inversion H as [| |? ? s1 s2 H1 H2| | | |]; subst.
    inversion H1; subst. simpl_append. split; [discriminate|].
    split; [assumption | now apply lang_star_class].
  - intros [Hne Hall]. destruct s as [|a s]; [contradiction|].
    destruct Hall as [Ha Hs]. change (String a s) with (String a "" +:+ s).
    constructor; [now constructor | now apply lang_star_class].
Qed.

Lemma lang_char c s :
  lang (Class (Ascii.eqb c)) s <-> s = String c "".
Proof.
  split.
  - intros H. inversion H as [|p a Hp| | | | |]; subst.
    apply Ascii.eqb_eq in Hp. now subst.
  - intros ->. constructor. apply Ascii.eqb_refl.
Qed.

End Regex_lemmas.

(** X13. The e-mail check of [isValidType]: a value is accepted as an
    e-mail exactly when its text, trimmed, reads [local@domain.tld] where
    each of the three parts is non-empty and holds neither white space nor
    [@] (the domain and the last part may themselves hold dots). *)
Theorem isValidType_email (numberToString : JsVal -> string)
    (isValidNumber isValidDate isValidUrl : string -> bool) (value : JsVal) :
  SheetApi.isValidType numberToString isValidNumber isValidDate isValidUrl
    value "email" = true
  <-> exists local domain tld : string,
        Js.trim (toStringJs numberToString value)
        = local +:+ "@" +:+ domain +:+ "." +:+ tld
        /\ email_part local /\ email_part domain /\ email_part tld.
Proof.
  unfold SheetApi.isValidType. cbn [String.eqb Ascii.eqb Bool.eqb].
  cbv zeta. rewrite test_spec. unfold SheetApi.emailPattern, SheetApi.emailAtom.
  split.
  - intros H.
    inversion H as [| |? ? local s1 Hlocal Hrest1| | | |]; subst.
    inversion Hrest1 as [| |? ? at_ s2 Hat Hrest2| | | |]; subst.
    inversion Hrest2 as [| |? ? domain s3 Hdomain Hrest3| | | |]; subst.
    inversion Hrest3 as [| |? ? dot tld Hdot Htld| | | |]; subst.
    apply lang_char in Hat, Hdot. subst at_ dot.
    apply lang_plus_class in Hlocal, Hdomain, Htld.
    exists local, domain, tld. split; [congruence | auto].
  - intros (local & domain & tld & -> & Hl & Hd & Ht).
    constructor; [now apply lang_plus_class|].
    change ("@" +:+ domain +:+ "." +:+ tld)
      with (String "@" "" +:+ (domain +:+ "." +:+ tld)).
    constructor; [now apply lang_char|].
    constructor; [now apply lang_plus_class|].
    change ("." +:+ tld) with (String "." "" +:+ tld).
    constructor; [now apply lang_char | now apply lang_plus_class].
Qed.

Example isValidType_email_examples :
  SheetApi.isValidType (fun _ => "0") (fun _ => true) (fun _ => true)
      (fun _ => true)
    (VStr " john@example.com ") "email" = true
  /\ SheetApi.isValidType (fun _ => "0") (fun _ => true) (fun _ => true)
      (fun _ => true)
       (VStr "john@example") "email" = false
  /\ SheetApi.isValidType (fun _ => "0") (fun _ => true) (fun _ => true)
      (fun _ => true)
       (VStr "john doe@example.com") "email" = false
  /\ SheetApi.isValidType (fun _ => "0") (fun _ => true) (fun _ => true)
      (fun _ => true)
       (VStr "a@b@c.d") "email" = false.
Proof. vm_compute. repeat split. Qed.

(** ** Validation and the wrappers of [SheetApi] *)

Section SheetApi_lemmas.

Lemma str_or_nonempty (a : option string) (b : string) :
  b ≠ "" -> Js.str_or a b ≠ "".
Proof.
  intros Hb. unfold Js.str_or. destruct a as [x|]; [|exact Hb].
  destruct (String.eqb_spec x ""); [exact Hb | assumption].
Qed.

Lemma toLowerCase_empty s : Js.toLowerCase s = "" -> s = "".
Proof. destruct s; [reflexivity | discriminate]. Qed.

(** The client's [updateField] and [addRow] catch whatever is thrown. *)
Lemma client_updateField_resolves
    (numberToString : JsVal -> string) (dateToISODate : JsVal -> Result string)
    (config : SheetConfig) (params : UpdateOperation) (s : ClientState) :
  exists r, (SheetClient.updateField numberToString dateToISODate config params s).1
            = Ok r.
Proof.
  unfold SheetClient.updateField, try_catch.
  match goal with
  | |- context [match ?m s with _ => _ end] => destruct (m s) as [[r|e] s']
  end; simpl; eauto.
Qed.

Lemma client_addRow_resolves
    (numberToString : JsVal -> string) (dateToISODate : JsVal -> Result string)
    (config : SheetConfig) (data : RowData) (s : ClientState) :
  exists r, (SheetClient.addRow numberToString dateToISODate config data s).1 = Ok r.
Proof.
  unfold SheetClient.addRow, try_catch.
  match goal with
  | |- context [match ?m s with _ => _ end] => destruct (m s) as [[r|e] s']
  end; simpl; eauto.
Qed.

End SheetApi_lemmas.

(** X14. Validation and reading agree on booleans in one direction only:
    every string that [isValidType] accepts as a boolean is converted to a
    boolean by [smartTypeConversion], whatever the column, and to [true]
    exactly for [true], [yes] and [1]; but [y], [n], [done] and
    [completed], which reading converts to booleans, are rejected by the
    validation. *)
Theorem isValidType_boolean_converts (numberToString : JsVal -> string)
    (isValidNumber isValidDate isValidUrl : string -> bool)
    (s columnName : string) :
  (SheetApi.isValidType numberToString isValidNumber isValidDate isValidUrl
     (VStr s) "boolean" = true ->
   exists b, smartTypeConversion s columnName = VBool b
             /\ (b = true <->
                 In (Js.toLowerCase (Js.trim s)) ["true"; "yes"; "1"]))
  /\ (In s ["y"; "n"; "done"; "completed"] ->
      SheetApi.isValidType numberToString isValidNumber isValidDate isValidUrl
        (VStr s) "boolean" = false
      /\ is_boolean (smartTypeConversion s columnName)).
Proof.
  split.
  - unfold SheetApi.isValidType. cbn [String.eqb Ascii.eqb Bool.eqb toStringJs].
    cbv zeta. intros Hvalid. apply arr_includes_spec in Hvalid.
    assert (Hne : Js.trim s ≠ "").
    { intros Hempty. rewrite Hempty in Hvalid. simpl in Hvalid.
      repeat destruct Hvalid as [Hvalid|Hvalid]; try discriminate Hvalid.
      exact Hvalid. }
    unfold smartTypeConversion.
    assert (String.eqb s "" = false) as ->.
    { apply String.eqb_neq. intros ->. now apply Hne. }
    assert (String.eqb (Js.trim s) "" = false) as -> by now apply String.eqb_neq.
    cbn [orb]. cbv zeta.
    simpl in Hvalid.
    repeat destruct Hvalid as [Hvalid|Hvalid]; try contradiction;
      rewrite <- Hvalid; unfold isBooleanColumn;
      (assert (Hb : forall x, x || true = true) by (intros; apply orb_true_r));
      cbn [Js.arr_includes booleanValues existsb String.eqb Ascii.eqb Bool.eqb
           orb andb];
      rewrite ?Hb; eexists; (split; [reflexivity|]);
      vm_compute; split; intros H; try discriminate H; auto;
      repeat destruct H as [H|H]; try discriminate H; try contradiction.
  - intros Hin. simpl in Hin.
    repeat destruct Hin as [Hin|Hin]; try contradiction; subst s;
      (split; [vm_compute; reflexivity|]);
      unfold smartTypeConversion, isBooleanColumn;
      cbn -[Js.includes existsb]; rewrite orb_true_r; eexists; reflexivity.
Qed.

Lemma isValidType_boolean_converts_witness :
  exists b, smartTypeConversion " YES " "Name" = VBool b
            /\ (b = true <-> In (Js.toLowerCase (Js.trim " YES ")) ["true"; "yes"; "1"]).
Proof.
  apply (isValidType_boolean_converts (fun _ => "0") (fun _ => true)
           (fun _ => true) (fun _ => true) " YES " "Name").
  reflexivity.
Defined.

(** X15. [SheetApi.search] never rejects, and it succeeds exactly when the
    data can be read: its data is then the filtered rows, also when there
    are none. In particular, on a sheet that has no data rows [search]
    resolves to [success = true] with an empty array, where [getAllData]
    resolves to [success = false]. *)
Theorem SheetApi_search_outcome (numberToString : JsVal -> string)
    (numberLt : JsVal -> JsVal -> bool)
    (config : SheetConfig) (query : SearchQuery) (s : ClientState) :
  exists (resp : ApiResponse (list SheetRow)),
    SheetApi.search numberToString numberLt config query s
    = (Ok resp, (SheetClient.getAllData config s).2)
    /\ timestamp resp = Some (now (SheetClient.getAllData config s).2)
    /\ (forall rows, (SheetClient.getAllData config s).1 = Ok rows ->
          success resp = true
          /\ data resp = Some (filterData numberToString numberLt rows query))
    /\ (forall e, (SheetClient.getAllData config s).1 = Throw e ->
          success resp = false
          /\ error resp = Some (errorMessage e "Search failed"))
    /\ ((SheetClient.getAllData config s).1 = Ok [] ->
        data resp = Some []
        /\ exists resp', (SheetApi.getAllData config s).1 = Ok resp'
                         /\ success resp' = false).
Proof.
  unfold SheetApi.search, SheetApi.getAllData, SheetApi.currentTime,
    SheetClient.search.
  unfold_client.
  destruct (SheetClient.getAllData config s) as [[rows|e] s1]; simpl.
  - eexists. split; [reflexivity|]. simpl. split; [reflexivity|].
    split; [intros rows0 [= <-]; split; reflexivity|].
    split; [intros e [=]|].
    intros [= ->]. split.
    + unfold filterData. destruct (_ && _); reflexivity.
    + eexists. split; reflexivity.
  - eexists. split; [reflexivity|]. simpl. split; [reflexivity|].
    split; [intros rows [=]|].
    split; [intros e0 [= <-]; split; reflexivity | intros [=]].
Qed.

(** X16. [SheetApi.updateField] never rejects and mirrors the client: the
    client's [updateField] always resolves, and the wrapper leaves the
    state the client left, reports the client's [success], carries
    [data = true] on success and, on failure, the client's error message
    or ['Failed to update field'] when there is none, which is never
    empty. *)
Theorem SheetApi_updateField_mirrors_client
    (numberToString : JsVal -> string) (dateToISODate : JsVal -> Result string)
    (config : SheetConfig) (params : UpdateOperation) (s : ClientState) :
  let client := SheetClient.updateField numberToString dateToISODate config params s in
  exists (result : ApiResponse Payload) (resp : ApiResponse bool),
    client.1 = Ok result
    /\ SheetApi.updateField numberToString dateToISODate config params s
       = (Ok resp, client.2)
    /\ success resp = success result
    /\ timestamp resp = Some (now client.2)
    /\ (success result = true -> data resp = Some true /\ error resp = None)
    /\ (success result = false ->
        data resp = None
        /\ error resp = Some (Js.str_or (error result) "Failed to update field")
        /\ error resp ≠ Some "").
Proof.
  intros client.
  destruct (client_updateField_resolves numberToString dateToISODate config params s)
    as [result Hresult].
  fold client in Hresult.
  unfold SheetApi.updateField, SheetApi.currentTime. unfold_client. fold client.
  destruct client as [r s1]. simpl in Hresult. subst r. simpl.
  exists result. destruct (success result) eqn:Es; simpl.
  - eexists. split; [reflexivity|]. split; [reflexivity|]. simpl.
    split; [reflexivity|]. split; [reflexivity|].
    split; [auto | discriminate].
  - eexists. split; [reflexivity|]. split; [reflexivity|]. simpl.
    split; [reflexivity|]. split; [reflexivity|].
    split; [discriminate|]. intros _. split; [reflexivity|].
    split; [reflexivity|]. intros [= H]. revert H.
    apply str_or_nonempty. discriminate.
Qed.

Section Validation_lemmas.

Lemma isValidType_builtin (numberToString : JsVal -> string)
    (isValidNumber isValidDate isValidUrl : string -> bool)
    (value : JsVal) (m : ProtoMember) :
  SheetApi.isValidType numberToString isValidNumber isValidDate isValidUrl
    value (builtinText m) = true.
Proof. destruct m; reflexivity. Qed.

End Validation_lemmas.

(** X17. What passes [validateRowData]: the data is valid exactly when
    the primary field (the first configured header, if there is one) has
    a truthy value whose text is not blank, and every entry whose value is
    neither [null] nor [undefined] nor blank has the type of its field. A
    primary value of [0] or [false] counts as missing; the value of the
    primary field is read as [data[primaryField]], so that for a primary
    field named like a member of [Object.prototype] data without an entry
    of that name passes. A field without a configured type accepts every
    value. *)
Theorem validateRowData_valid (numberToString : JsVal -> string)
    (isValidNumber isValidDate isValidUrl : string -> bool)
    (config : SheetConfig) (data : RowData) :
  let isValid value fieldName :=
    SheetApi.isValidType numberToString isValidNumber isValidDate isValidUrl
      value (toStringJs numberToString (getFieldType config fieldName)) in
  ((SheetApi.validateRowData numberToString isValidNumber isValidDate isValidUrl
      config data).1 = true
   <-> (forall primaryField rest,
          headers config = primaryField :: rest ->
          toBooleanJs (dataGet data primaryField) = true
          /\ Js.trim (toStringJs numberToString (dataGet data primaryField)) ≠ "")
       /\ (forall fieldName value,
             (fieldName, value) ∈ data ->
             value ≠ VNull -> value ≠ VUndef ->
             Js.trim (toStringJs numberToString value) ≠ "" ->
             isValid value fieldName = true))
  /\ (forall fieldName value,
        dataTypes config !! fieldName = None -> isValid value fieldName = true)
  /\ (forall primaryField rest m,
        headers config = primaryField :: rest ->
        objectPrototype primaryField = Some (VBuiltin m) ->
        (forall value, (primaryField, value) ∉ data) ->
        SheetApi.requiredErrors numberToString config data = []).
Proof.
  intros isValid. subst isValid. cbv beta. split; [|split].
  2:{ intros fieldName value Htype. unfold getFieldType. rewrite Htype.
      destruct (objectPrototype_cases fieldName) as [->|[m ->]]; simpl;
        [reflexivity | apply isValidType_builtin]. }
  2:{ intros primaryField rest m Hheaders Hproto Habsent.
      unfold SheetApi.requiredErrors, getHeaders. rewrite Hheaders.
      assert (Hget : dataGet data primaryField = VBuiltin m).
      { unfold dataGet.
        destruct (find (fun kv : string * JsVal => String.eqb kv.1 primaryField) data)
          as [[k v]|] eqn:Efind; [|now rewrite Hproto].
        apply find_some in Efind as [Hin Hk]. simpl in Hk.
        apply String.eqb_eq in Hk. subst k.
        exfalso. apply (Habsent v). now apply list_elem_of_In. }
      rewrite Hget. simpl.
      destruct (String.eqb_spec (Js.trim (builtinText m)) "") as [Hblank|_];
        [|reflexivity].
      destruct m; vm_compute in Hblank; discriminate Hblank. }
  unfold SheetApi.validateRowData. cbn [fst].
  rewrite bool_decide_eq_true, length_zero_iff_nil.
  assert (Happ : forall (l1 l2 : list SheetApi.ValidationError),
             (l1 ++ l2)%list = [] <-> l1 = [] /\ l2 = []).
  { intros l1 l2. split; [apply app_eq_nil | intros [-> ->]; reflexivity]. }
  rewrite Happ.
  assert (Hreq : SheetApi.requiredErrors numberToString config data = [] <->
                 forall primaryField rest,
                   headers config = primaryField :: rest ->
                   toBooleanJs (dataGet data primaryField) = true
                   /\ Js.trim (toStringJs numberToString
                                 (dataGet data primaryField)) ≠ "").
  { unfold SheetApi.requiredErrors, getHeaders.
    destruct (headers config) as [|primaryField rest].
    - split; [intros _ p r [=] | reflexivity].
    - destruct (toBooleanJs (dataGet data primaryField)) eqn:Et; simpl.
      + destruct (String.eqb_spec
                    (Js.trim (toStringJs numberToString
                                (dataGet data primaryField))) "")
          as [Hblank|Hfull].
        * split; [discriminate|]. intros H.
          destruct (H primaryField rest eq_refl) as [_ Hne]. contradiction.
        * split; [|reflexivity]. intros _ p r [= <- <-]. rewrite Et. auto.
      + split; [discriminate|]. intros H.
        destruct (H primaryField rest eq_refl) as [Htrue _]. congruence. }
  assert (Htypes :
    flat_map (SheetApi.typeErrors numberToString isValidNumber isValidDate
                isValidUrl config) data
    = [] <->
    forall fieldName value,
      (fieldName, value) ∈ data ->
      value ≠ VNull -> value ≠ VUndef ->
      Js.trim (toStringJs numberToString value) ≠ "" ->
      SheetApi.isValidType numberToString isValidNumber isValidDate isValidUrl
        value (toStringJs numberToString (getFieldType config fieldName)) = true).
  { clear Hreq. induction data as [|[f v] data IH]; simpl.
    - split; [intros _ f v H; inversion H | reflexivity].
    - rewrite Happ, IH. clear IH.
      assert (Hone :
        (if negb (strict_eq v VNull) && negb (strict_eq v VUndef)
            && negb (String.eqb (Js.trim (toStringJs numberToString v)) "")
         then if negb (SheetApi.isValidType numberToString isValidNumber
                         isValidDate isValidUrl v
                         (toStringJs numberToString (getFieldType config f)))
              then [ {| SheetApi.error_field := f;
                        SheetApi.error_message :=
                          f +:+ " must be a valid "
                          +:+ toStringJs numberToString (getFieldType config f);
                        SheetApi.error_code := "INVALID_TYPE" |} ]
              else []
         else []) = [] <->
        (v ≠ VNull -> v ≠ VUndef ->
         Js.trim (toStringJs numberToString v) ≠ "" ->
         SheetApi.isValidType numberToString isValidNumber isValidDate isValidUrl
           v (toStringJs numberToString (getFieldType config f)) = true)).
      { unfold strict_eq.
        destruct (decide (v = VNull)) as [->|Hn];
          [rewrite bool_decide_eq_true_2 by reflexivity; simpl;
           split; [intros _ H; contradiction | reflexivity]|].
        rewrite (bool_decide_eq_false_2 _ Hn).
        destruct (decide (v = VUndef)) as [->|Hu];
          [rewrite bool_decide_eq_true_2 by reflexivity; simpl;
           split; [intros _ _ H; contradiction | reflexivity]|].
        rewrite (bool_decide_eq_false_2 _ Hu). simpl.
        destruct (String.eqb_spec (Js.trim (toStringJs numberToString v)) "")
          as [Hb|Hb]; simpl;
          [split; [intros _ _ _ H; contradiction | reflexivity]|].
        destruct (SheetApi.isValidType _ _ _ _ v _); simpl;
          [split; auto
          | split; [discriminate | intros H; specialize (H Hn Hu Hb); discriminate H]]. }
      rewrite Hone. split.
      + intros [Hhead Htail] f' v' Hin.
        apply elem_of_cons in Hin as [[= -> ->]|Hin]; [exact Hhead|].
        now apply Htail.
      + intros H. split; [apply H; left|].
        intros f' v' Hin. apply H. now right. }
  rewrite Hreq, Htypes. reflexivity.
Qed.

Section AddRow_lemmas.

Lemma join_cons (sep x : string) (l : list string) :
  exists tail, join sep (x :: l) = x +:+ tail.
Proof.
  destruct l as [|y l]; simpl.
  - exists "". now rewrite append_nil_r.
  - eexists. reflexivity.
Qed.

Lemma filter_partition_length {A} (p : A -> bool) (l : list A) :
  (length (List.filter p l) + length (List.filter (fun x => negb (p x)) l)
   = length l)%nat.
Proof.
  induction l as [|x l IH]; simpl; [reflexivity|].
  destruct (p x); simpl; lia.
Qed.

End AddRow_lemmas.

(** X18. [SheetApi.addRow] never rejects and reaches the network only with
    valid data. When the validation fails it resolves to
    ['Validation failed: ...'] and the state is unchanged (nothing is
    sent, the cache is kept); when what [data[primary]] reads is falsy or
    blank that message starts with ['<primary> is required']. When the
    validation passes, the client's [addRow] runs, and the response
    reports the client's [success]. *)
Theorem SheetApi_addRow_outcome
    (numberToString : JsVal -> string) (dateToISODate : JsVal -> Result string)
    (isValidNumber isValidDate isValidUrl : string -> bool)
    (config : SheetConfig) (data : RowData) (s : ClientState) :
  let validation :=
    SheetApi.validateRowData numberToString isValidNumber isValidDate isValidUrl
      config data in
  let client := SheetClient.addRow numberToString dateToISODate config data s in
  let run := SheetApi.addRow numberToString dateToISODate isValidNumber
               isValidDate isValidUrl config data s in
  (validation.1 = false ->
   exists resp : ApiResponse bool,
     run = (Ok resp, s)
     /\ success resp = false
     /\ (exists messages, error resp = Some ("Validation failed: " +:+ messages))
     /\ forall primaryField rest,
         headers config = primaryField :: rest ->
         toBooleanJs (dataGet data primaryField) = false
         \/ Js.trim (toStringJs numberToString (dataGet data primaryField)) = ""
         ->
         exists tail,
           error resp = Some ("Validation failed: " +:+ primaryField
                              +:+ " is required" +:+ tail))
  /\ (validation.1 = true ->
      exists (result : ApiResponse Payload) (resp : ApiResponse bool),
        client.1 = Ok result
        /\ run = (Ok resp, client.2)
        /\ success resp = success result
        /\ (success result = true -> Types.data resp = Some true)
        /\ (success result = false ->
            error resp = Some (Js.str_or (error result) "Failed to add row"))).
Proof.
  intros validation client run. subst run. unfold SheetApi.addRow.
  fold validation. unfold SheetApi.currentTime. unfold_client. split.
  - intros Hinvalid. rewrite Hinvalid. simpl.
    eexists. split; [reflexivity|]. simpl. split; [reflexivity|].
    split; [eexists; reflexivity|].
    intros primaryField rest Hheaders Hmissing.
    assert (Hreq : SheetApi.requiredErrors numberToString config data
                   = [ {| SheetApi.error_field := primaryField;
                          SheetApi.error_message := primaryField +:+ " is required";
                          SheetApi.error_code := "REQUIRED_FIELD" |} ]).
    { unfold SheetApi.requiredErrors, getHeaders. rewrite Hheaders.
      destruct Hmissing as [Hfalsy|Hblank].
      - now rewrite Hfalsy.
      - rewrite Hblank. rewrite orb_true_r. reflexivity. }
    unfold validation, SheetApi.validateRowData. cbn [snd].
    rewrite Hreq. cbn [app map SheetApi.error_message].
    destruct (join_cons ", " (primaryField +:+ " is required")
                (map SheetApi.error_message
                   (flat_map (SheetApi.typeErrors numberToString isValidNumber
                                isValidDate isValidUrl config) data)))
      as [tail Htail].
    exists tail. rewrite Htail. f_equal. f_equal.
    now rewrite append_assoc.
  - intros Hvalid. rewrite Hvalid. simpl.
    destruct (client_addRow_resolves numberToString dateToISODate config data s)
      as [result Hresult].
    fold client in Hresult. fold client.
    destruct client as [r s1]. simpl in Hresult. subst r. simpl.
    exists result. destruct (success result) eqn:Es; simpl.
    + eexists. split; [reflexivity|]. split; [reflexivity|]. simpl.
      split; [reflexivity|]. split; [reflexivity | discriminate].
    + eexists. split; [reflexivity|]. split; [reflexivity|]. simpl.
      split; [reflexivity|]. split; [discriminate | reflexivity].
Qed.

(** X19. [SheetApi.bulkUpdate] resolves to [success = true] whenever the
    client's bulk update resolves, however many of the updates failed:
    the counts of successful and failed updates add up to the number of
    results, there is one error message per failed update and none of
    them is empty. It resolves to [success = false] only if the client's
    call rejects. *)
Theorem SheetApi_bulkUpdate_summary
    (clientBulkUpdate : M (list (ApiResponse Payload))) (s : ClientState) :
  exists resp : ApiResponse SheetApi.BulkSummary,
    SheetApi.bulkUpdate clientBulkUpdate s = (Ok resp, (clientBulkUpdate s).2)
    /\ (forall results,
          (clientBulkUpdate s).1 = Ok results ->
          success resp = true
          /\ exists summary,
              data resp = Some summary
              /\ (SheetApi.successful summary + SheetApi.failed summary
                  = length results)%nat
              /\ length (SheetApi.errors summary) = SheetApi.failed summary
              /\ (forall e, e ∈ SheetApi.errors summary -> e ≠ "")
              /\ (SheetApi.failed summary = 0%nat
                  <-> forall r, r ∈ results -> success r = true))
    /\ (forall e, (clientBulkUpdate s).1 = Throw e ->
          success resp = false
          /\ error resp = Some (errorMessage e "Bulk update failed")).
Proof.
  unfold SheetApi.bulkUpdate, SheetApi.currentTime. unfold_client.
  destruct (clientBulkUpdate s) as [[results|e] s1]; simpl.
  - eexists. split; [reflexivity|]. simpl. split; [|intros e [=]].
    intros results0 [= <-]. split; [reflexivity|].
    eexists. split; [reflexivity|]. simpl.
    split; [apply filter_partition_length|].
    split; [apply length_map|]. split.
    + intros e He. apply list_elem_of_fmap in He as (r & -> & _).
      apply str_or_nonempty. discriminate.
    + rewrite length_zero_iff_nil. split.
      * intros Hnil r Hr. destruct (success r) eqn:Er; [reflexivity|].
        assert (r ∈ List.filter (fun r => negb (success r)) results) as Hin
            by (apply elem_of_List_filter; split; [exact Hr | now rewrite Er]).
        rewrite Hnil in Hin. inversion Hin.
      * intros Hall. destruct (List.filter _ results) as [|r l] eqn:Ef;
          [reflexivity|].
        assert (r ∈ List.filter (fun r => negb (success r)) results) as Hin
            by (rewrite Ef; left).
        apply elem_of_List_filter in Hin as [Hr Hneg].
        rewrite (Hall r Hr) in Hneg. discriminate.
  - eexists. split; [reflexivity|]. simpl. split; [intros results [=]|].
    intros e0 [= <-]. split; reflexivity.
Qed.

(** ** The API manager *)

Import ApiManager.
Import ManagerSpec.

Section Manager_lemmas.

Lemma run_reachable (evs : list Event) :
  forall s s', reachable s -> run evs s = Some s' -> reachable s'.
Proof.
  induction evs as [|ev evs IH]; intros s s' Hs Hrun; simpl in Hrun.
  - now injection Hrun as <-.
  - destruct (step ev s) as [s1|] eqn:E; [|discriminate].
    apply (IH s1); [|exact Hrun]. now apply (reachable_step s s1 ev).
Qed.

Lemma state_after_reachable (trace : list Event) : reachable (state_after trace).
Proof.
  unfold state_after. destruct (run trace (init 5000)) as [s|] eqn:E; simpl.
  - apply (run_reachable trace (init 5000)); [constructor | exact E].
  - constructor.
Qed.

Lemma step_invoke (e : Endpoint) (s : State) :
  step (Invoke e) s = Some (invoke e s).
Proof. destruct e; reflexivity. Qed.

Lemma resume_after_rate_limit (c : nat) (e : Endpoint) (s : State) :
  calls s !! c = Some {| endpoint := e; continuation := AwaitRateLimit |} ->
  resume c s = Some (startRequest c e s).
Proof. intros H. unfold resume. rewrite H. destruct e; reflexivity. Qed.

Lemma invoke_cache_change (e : Endpoint) (s : State) :
  cache_change (Invoke e) s (invoke e s).
Proof.
  unfold invoke, getCachedResponse.
  destruct (cache (manager s) !! cacheKey e) as [cached|] eqn:Ec.
  - destruct (Z.ltb_spec (effectiveTtl (customTtl e) cached)
                         (clock s - timestamp cached)) as [Hexp|Hfresh].
    + apply (cache_expired_on_read _ _ _ e cached); [reflexivity | exact Ec | lia |].
      simpl. destruct (pendingRequests (manager s) !! cacheKey e); [reflexivity|].
      unfold enforceRateLimit. simpl. destruct (_ <? _); reflexivity.
    + apply cache_same. reflexivity.
  - apply cache_same.
    destruct (pendingRequests (manager s) !! cacheKey e); [reflexivity|].
    unfold enforceRateLimit. simpl. destruct (_ <? _); reflexivity.
Qed.

Lemma resume_cache_change (c : nat) (s s' : State) :
  resume c s = Some s' -> cache_change (Resume c) s s'.
Proof.
  unfold resume. destruct (calls s !! c) as [[e k]|]; [|discriminate]. simpl.
  destruct k as [p|wake| |p|[d|err]].
  - destruct (promiseOutcome (settled s) p); [|discriminate].
    intros [= <-]. now apply cache_same.
  - destruct (wake <=? clock s); [|discriminate].
    intros [= <-]. now apply cache_same.
  - intros [= <-]. destruct e; now apply cache_same.
  - destruct (promiseOutcome (settled s) p) as [[d|err]|]; [| |discriminate].
    + intros [= <-]. destruct e; simpl.
      * destruct d as [r|st]; simpl; [|now apply cache_same].
        destruct (success r) eqn:Er; [|now apply cache_same].
        now apply (cache_store_data _ _ _ c r).
      * now apply (cache_store_status _ _ _ c d).
    + intros [= <-]. now apply cache_same.
  - intros [= <-]. now apply cache_same.
  - intros [= <-]. now apply cache_same.
Qed.

Lemma step_cache_change (ev : Event) (s s' : State) :
  step ev s = Some s' -> cache_change ev s s'.
Proof.
  destruct ev as [t|e|c|r o| |key| |]; [simpl|rewrite step_invoke|simpl..].
  - destruct (clock s <=? t); [|discriminate]. intros [= <-]. now apply cache_same.
  - intros [= <-]. apply invoke_cache_change.
  - apply resume_cache_change.
  - case_bool_decide; [|discriminate].
    destruct (settled s !! r); [discriminate|]. intros [= <-]. now apply cache_same.
  - intros [= <-]. now apply cache_cleared.
  - intros [= <-]. now apply (cache_entry_cleared _ _ _ key).
  - intros [= <-]. now apply cache_same.
  - intros [= <-]. now apply cache_cleaned.
Qed.

Lemma cache_invariant (s : State) :
  reachable s ->
  forall key cached, cache (manager s) !! key = Some cached -> cache_entry_ok key cached.
Proof.
  induction 1 as [t0|s s' ev Hreach IH Hstep]; intros key cached Hlook.
  - simpl in Hlook. rewrite lookup_empty in Hlook. discriminate.
  - destruct (step_cache_change ev s s' Hstep)
      as [Heq|e old _ _ _ Heq|c r _ Hr Heq|c d _ Heq|_ Heq|k _ Heq|_ Heq];
      rewrite Heq in Hlook.
    + now apply IH.
    + apply lookup_delete_Some in Hlook as [_ Hlook]. now apply IH.
    + apply lookup_insert_Some in Hlook as [[<- <-]|[_ Hlook]]; [|now apply IH].
      left. simpl. eauto.
    + apply lookup_insert_Some in Hlook as [[<- <-]|[_ Hlook]]; [|now apply IH].
      right. simpl. eauto.
    + rewrite lookup_empty in Hlook. discriminate.
    + apply lookup_delete_Some in Hlook as [_ Hlook]. now apply IH.
    + apply map_lookup_filter_Some in Hlook as [Hlook _]. now apply IH.
Qed.

(** A call that reads nothing from the cache and finds no pending request
    passes the rate limiter, at once or when its timer fires, and then
    starts a request. *)
Lemma invoke_fresh_request (e : Endpoint) (s : State) :
  (getCachedResponse (cacheKey e) (customTtl e) (clock s) (manager s)).1 = None ->
  pendingRequests (manager s) !! cacheKey e = None ->
  let c := nextCall s in
  exists evs s2,
    (evs = [Resume c] \/ exists wake, evs = [Tick wake; Resume c; Resume c])
    /\ run evs (invoke e s) = Some s2
    /\ started s2 = S (started s)
    /\ pendingRequests (manager s2) !! cacheKey e
       = Some {| promise := {| kind := e; request := started s |};
                 pending_timestamp := clock s2 |}.
Proof.
  intros Hmiss Hpending c. subst c. unfold invoke.
  destruct (getCachedResponse (cacheKey e) (customTtl e) (clock s) (manager s))
    as [cached m'] eqn:Eread.
  simpl in Hmiss. subst cached.
  assert (Hm' : pendingRequests m' = pendingRequests (manager s)
                /\ lastRequestTime m' = lastRequestTime (manager s)).
  { unfold getCachedResponse in Eread.
    destruct (cache (manager s) !! cacheKey e) as [old|].
    - destruct (_ <? _);
        [injection Eread as <-; split; reflexivity | discriminate Eread].
    - injection Eread as <-. split; reflexivity. }
  destruct Hm' as [Hp Hl]. simpl. rewrite Hp, Hpending.
  unfold enforceRateLimit. simpl. rewrite Hl.
  destruct (Z.ltb_spec (clock s - lastRequestTime (manager s)) MIN_REQUEST_INTERVAL)
    as [Hwait|Hgo]; simpl.
  - eexists [Tick (clock s + (MIN_REQUEST_INTERVAL
                               - (clock s - lastRequestTime (manager s))));
             Resume (nextCall s); Resume (nextCall s)], _.
    split; [right; eexists; reflexivity|].
    simpl. unfold MIN_REQUEST_INTERVAL in *.
    destruct (Z.leb_spec (clock s)
                (clock s + (1000 - (clock s - lastRequestTime (manager s)))));
      [|lia].
    unfold resume at 1. simpl. rewrite lookup_insert_eq. simpl.
    rewrite Z.leb_refl. simpl.
    rewrite (resume_after_rate_limit _ e) by apply lookup_insert_eq.
    split; [reflexivity|]. simpl. split; [reflexivity|].
    apply lookup_insert_eq.
  - eexists [Resume (nextCall s)], _.
    split; [left; reflexivity|].
    simpl. rewrite (resume_after_rate_limit _ e) by apply lookup_insert_eq.
    split; [reflexivity|]. simpl. split; [reflexivity|].
    apply lookup_insert_eq.
Qed.

End Manager_lemmas.

(** C9 (as corrected). In every reachable state the cache entry under
    ['getAllData'], if there is one, is a response with [success = true],
    and so is what a [getAllData()] call reads from the cache. A request
    that settles with [success = false], or that rejects, stores nothing:
    it leaves the cache as it was and removes the pending entry, so that
    the failure is never replayed. The next call contacts the API again
    when its read of the cache returns nothing (no entry, or an expired
    one) and no request is pending: it passes the rate limiter and starts
    a request. When an earlier successful response is still in the cache
    and has not expired, the next call is served from it and starts no
    request. *)
Theorem getAllData_caches_only_success (s : State) :
  reachable s ->
  (forall cached,
      cache (manager s) !! "getAllData" = Some cached ->
      exists r, data cached = CData r /\ success r = true)
  /\ (forall c p o,
        calls s !! c
        = Some {| endpoint := GetAllData; continuation := AwaitRequest p |} ->
        promiseOutcome (settled s) p = Some o ->
        (exists r, o = Ok (CData r) /\ success r = false) \/ (exists err, o = Throw err) ->
        exists s', step (Resume c) s = Some s'
                   /\ cache (manager s') = cache (manager s)
                   /\ pendingRequests (manager s') !! "getAllData" = None
                   /\ started s' = started s)
  /\ (forall d,
        (getCachedResponse (cacheKey GetAllData) (customTtl GetAllData) (clock s)
                           (manager s)).1 = Some d ->
        (exists r cached,
            d = CData r /\ success r = true
            /\ cache (manager s) !! "getAllData" = Some cached
            /\ data cached = d
            /\ clock s - timestamp cached <= DEFAULT_TTL)
        /\ returned (getAllData s) !! nextCall s = Some (Ok d)
        /\ started (getAllData s) = started s)
  /\ ((getCachedResponse (cacheKey GetAllData) (customTtl GetAllData) (clock s)
                          (manager s)).1 = None ->
      pendingRequests (manager s) !! "getAllData" = None ->
      exists evs s2,
        (evs = [Resume (nextCall s)]
         \/ exists wake, evs = [Tick wake; Resume (nextCall s); Resume (nextCall s)])
        /\ run evs (getAllData s) = Some s2
        /\ started s2 = S (started s)).
Proof.
  intros Hreach.
  assert (Hentry : forall cached,
             cache (manager s) !! "getAllData" = Some cached ->
             ttl cached = DEFAULT_TTL
             /\ exists r, data cached = CData r /\ success r = true).
  { intros cached Hlook.
    destruct (cache_invariant s Hreach _ _ Hlook) as [(_ & Httl & Hr)|[Hkey _]];
      [split; [exact Httl | exact Hr] | discriminate Hkey]. }
  split; [intros cached Hlook; now apply Hentry|]. split; [|split].
  - intros c p o Hcall Hout Hfailed. simpl. unfold resume.
    rewrite Hcall. simpl. rewrite Hout.
    destruct Hfailed as [(r & -> & Hfail)|(err & ->)]; simpl.
    + rewrite Hfail. eexists. split; [reflexivity|]. simpl.
      split; [reflexivity|]. split; [apply lookup_delete_eq | reflexivity].
    + eexists. split; [reflexivity|]. simpl.
      split; [reflexivity|]. split; [apply lookup_delete_eq | reflexivity].
  - intros d Hread. unfold getAllData, invoke.
    unfold getCachedResponse in *. simpl in *.
    destruct (cache (manager s) !! "getAllData") as [cached|] eqn:Ec;
      [|discriminate Hread].
    destruct (Hentry cached eq_refl) as (Httl & r & Hd & Hs).
    rewrite Httl in *.
    destruct (Z.ltb_spec DEFAULT_TTL (clock s - timestamp cached)) as [|Hfresh];
      [discriminate Hread|].
    simpl in Hread. injection Hread as <-. simpl.
    split; [exists r, cached; auto|].
    split; [apply lookup_insert_eq | reflexivity].
  - intros Hmiss Hpending.
    destruct (invoke_fresh_request GetAllData s Hmiss Hpending)
      as (evs & s2 & Hevs & Hrun & Hstarted & _).
    exists evs, s2. auto.
Qed.

Lemma getAllData_caches_only_success_witness :
  exists r,
    data <$> (cache (manager (state_after both_endpoints_trace)) !! "getAllData")
    = Some (CData r)
    /\ success r = true.
Proof.
  destruct (cache (manager (state_after both_endpoints_trace)) !! "getAllData")
    as [cached|] eqn:Ec; [|vm_compute in Ec; discriminate Ec].
  destruct (getAllData_caches_only_success (state_after both_endpoints_trace)
              (state_after_reachable both_endpoints_trace))
    as [Hentry _].
  destruct (Hentry cached Ec) as (r & Hd & Hs).
  exists r. simpl. rewrite Hd. split; [reflexivity | exact Hs].
Defined.

(** The claim as stated fails after the race of two simultaneous calls:
    request 0 succeeds and is cached at 5500, request 1 fails at 6200, and
    call 1 resolves to that failure. The failure is not cached; yet the
    next [getAllData()], at 6300, does not contact the API: it is served
    the response of request 0 from the cache, and the number of requests
    started stays at 2. *)
Lemma failed_fetch_then_cache_hit :
  let s := state_after failed_second_request_trace in
  reachable s
  /\ run failed_second_request_trace (init 5000) = Some s
  /\ returned s !! 1%nat = Some (Ok (CData failedResponse))
  /\ success failedResponse = false
  /\ (exists cached,
        cache (manager s) !! "getAllData" = Some cached
        /\ data cached = CData okResponse /\ timestamp cached = 5500)
  /\ pendingRequests (manager s) !! "getAllData" = None
  /\ started s = 2%nat
  /\ exists s',
      run [Tick 6300; Invoke GetAllData] s = Some s'
      /\ returned s' !! 2%nat = Some (Ok (CData okResponse))
      /\ started s' = 2%nat.
Proof.
  cbv zeta. split; [apply state_after_reachable|].
  split; [vm_compute; reflexivity|].
  split; [vm_compute; reflexivity|].
  split; [reflexivity|].
  split; [eexists; split; [vm_compute; reflexivity | split; reflexivity]|].
  split; [vm_compute; reflexivity|].
  split; [vm_compute; reflexivity|].
  eexists. split; [vm_compute; reflexivity|].
  split; vm_compute; reflexivity.
Qed.

(** C4 (as corrected). In every reachable state the cache holds at most
    two entries, keyed by ['getAllData'] and ['quickTest']; and an entry
    leaves the cache only because [clearCache] or [clearCacheEntry] of its
    key is called, or because its TTL has expired and a read of its key or
    [cleanup] finds it so. Nothing is evicted for size. *)
Theorem cache_two_keys_no_eviction (s : State) :
  reachable s ->
  dom (cache (manager s)) ⊆ {["getAllData"; "quickTest"]}
  /\ (size (cache (manager s)) <= 2)%nat
  /\ forall ev s' key cached,
      step ev s = Some s' ->
      cache (manager s) !! key = Some cached ->
      cache (manager s') !! key = None ->
      ev = ClearCache
      \/ ev = ClearCacheEntry key
      \/ (isExpired (clock s) cached
          /\ (ev = Cleanup \/ exists e, ev = Invoke e /\ key = cacheKey e)).
Proof.
  intros Hreach.
  assert (Hdom : dom (cache (manager s)) ⊆ ({["getAllData"; "quickTest"]} : gset string)).
  { intros key Hkey. apply elem_of_dom in Hkey as [cached Hlook].
    destruct (cache_invariant s Hreach _ _ Hlook) as [[-> _]|[-> _]]; set_solver. }
  split; [exact Hdom|]. split.
  - rewrite <- size_dom. apply subseteq_size in Hdom.
    rewrite size_union in Hdom by set_solver.
    rewrite !size_singleton in Hdom. exact Hdom.
  - intros ev s' key cached Hstep Hlook Hgone.
    destruct (step_cache_change ev s s' Hstep)
      as [Heq|e old Hev Hold Hexp Heq|c r _ _ Heq|c d _ Heq|Hev _|k Hev Heq|Hev Heq];
      try subst ev; try rewrite Heq in Hgone.
    + congruence.
    + destruct (decide (key = cacheKey e)) as [->|Hne].
      * right; right. assert (old = cached) as -> by congruence.
        split; [|right; eauto]. unfold isExpired.
        destruct (cache_invariant s Hreach _ _ Hlook) as [(Hk & Httl & _)|[Hk Httl]];
          destruct e; try discriminate Hk; simpl in Hexp; lia.
      * rewrite lookup_delete_ne in Hgone by congruence. congruence.
    + apply lookup_insert_None in Hgone as [Hgone _]. congruence.
    + apply lookup_insert_None in Hgone as [Hgone _]. congruence.
    + now left.
    + destruct (decide (key = k)) as [->|Hne]; [right; now left|].
      rewrite lookup_delete_ne in Hgone by congruence. congruence.
    + right; right. split; [|now left].
      destruct (decide (isExpired (clock s) cached)) as [Hexp|Hfresh]; [exact Hexp|].
      exfalso.
      assert (filter (fun kv : string * CachedResponse => ~ isExpired (clock s) kv.2)
                     (cache (manager s)) !! key = Some cached) as Hkeep
          by (apply map_lookup_filter_Some; split; [exact Hlook | exact Hfresh]).
      congruence.
Qed.

Lemma cache_two_keys_no_eviction_witness :
  dom (cache (manager (state_after both_endpoints_trace)))
    ⊆ ({["getAllData"; "quickTest"]} : gset string)
  /\ (size (cache (manager (state_after both_endpoints_trace))) <= 2)%nat.
Proof.
  destruct (cache_two_keys_no_eviction (state_after both_endpoints_trace)
              (state_after_reachable both_endpoints_trace))
    as (Hdom & Hsize & _).
  split; [exact Hdom | exact Hsize].
Defined.

(** After one [getAllData()] and one [quickConnectionTest()], both served
    by the network, the cache holds two entries. *)
Lemma cache_holds_two_entries :
  reachable (state_after both_endpoints_trace)
  /\ size (cache (manager (state_after both_endpoints_trace))) = 2%nat
  /\ dom (cache (manager (state_after both_endpoints_trace)))
     = {["getAllData"; "quickTest"]}.
Proof.
  split; [apply state_after_reachable|]. split.
  - vm_compute. reflexivity.
  - apply set_eq. intros key. rewrite elem_of_dom.
    split.
    + intros [cached Hlook].
      destruct (cache_invariant _ (state_after_reachable both_endpoints_trace)
                  _ _ Hlook) as [[-> _]|[-> _]]; set_solver.
    + intros Hkey. apply elem_of_union in Hkey as [Hkey|Hkey];
        apply elem_of_singleton in Hkey; subst key; vm_compute; eauto.
Qed.

(** X25. The part of the deduplication that holds: a call that misses the cache
    and finds a pending request under its key starts no request; it awaits
    that promise and settles with its outcome. *)
Lemma invoke_awaits_pending (e : Endpoint) (s : State) (pending : PendingRequest) :
  cache (manager s) !! cacheKey e = None ->
  pendingRequests (manager s) !! cacheKey e = Some pending ->
  let s1 := invoke e s in
  started s1 = started s
  /\ manager s1 = manager s
  /\ calls s1 !! nextCall s
     = Some {| endpoint := e; continuation := AwaitPending (promise pending) |}
  /\ forall s2 o,
      calls s2 !! nextCall s
      = Some {| endpoint := e; continuation := AwaitPending (promise pending) |} ->
      promiseOutcome (settled s2) (promise pending) = Some o ->
      exists s3, step (Resume (nextCall s)) s2 = Some s3
                 /\ started s3 = started s2
                 /\ manager s3 = manager s2
                 /\ returned s3 !! nextCall s = Some o.
Proof.
  intros Hmiss Hpending. unfold invoke, getCachedResponse.
  rewrite Hmiss, Hpending. simpl.
  split; [reflexivity|]. split; [destruct (manager s); reflexivity|].
  split; [apply lookup_insert_eq|].
  intros s2 o Hcall Hout. simpl. unfold resume. rewrite Hcall. simpl.
  rewrite Hout. eexists. split; [reflexivity|]. simpl.
  split; [reflexivity|]. split; [reflexivity|]. apply lookup_insert_eq.
Qed.

(** C3 (where the code departs from it). From the state that
    [two_callers_trace] leads to, request 0 is registered as pending under
    ['getAllData'] and has not settled, and resuming call 1, whose
    rate-limit wait is over, starts request 1 and overwrites the pending
    entry: a second underlying request for the same key while the first is
    pending. *)
Theorem duplicate_request_while_pending :
  let s := state_after two_callers_trace in
  reachable s
  /\ run two_callers_trace (init 5000) = Some s
  /\ pendingRequests (manager s) !! "getAllData"
     = Some {| promise := {| kind := GetAllData; request := 0 |};
               pending_timestamp := 5000 |}
  /\ settled s !! 0%nat = None
  /\ started s = 1%nat
  /\ calls s !! 1%nat = Some {| endpoint := GetAllData; continuation := AwaitRateLimit |}
  /\ exists s',
      step (Resume 1) s = Some s'
      /\ started s' = 2%nat
      /\ pendingRequests (manager s') !! "getAllData"
         = Some {| promise := {| kind := GetAllData; request := 1 |};
                   pending_timestamp := 6000 |}
      /\ calls s' !! 0%nat
         = Some {| endpoint := GetAllData;
                   continuation := AwaitRequest {| kind := GetAllData; request := 0 |} |}
      /\ calls s' !! 1%nat
         = Some {| endpoint := GetAllData;
                   continuation := AwaitRequest {| kind := GetAllData; request := 1 |} |}.
Proof.
  cbv zeta. split; [apply state_after_reachable|].
  split; [vm_compute; reflexivity|].
  split; [vm_compute; reflexivity|].
  split; [vm_compute; reflexivity|].
  split; [vm_compute; reflexivity|].
  split; [vm_compute; reflexivity|].
  eexists. split; [vm_compute; reflexivity|].
  repeat split; vm_compute; reflexivity.
Qed.

(** C2 (as corrected). Let the manager hold under a key the entry that
    [setCacheEntry] stored at time [t] with time-to-live [ttl]. A read at
    time [now] returns the stored response exactly when [now - t] is at
    most the TTL of the read, which is the custom TTL that the reading
    method passes ([customTtl || cached.ttl]: 10000 ms in
    [quickConnectionTest], none in [getAllData]) and the stored TTL
    otherwise; when [now - t] exceeds it the read deletes the entry and
    returns [null]. The [getAllData()] or [quickConnectionTest()] call
    that makes such a read then starts no request of its own if a request
    is pending under its key (it awaits that one); otherwise it passes the
    rate limiter and issues a fresh underlying request. *)
Theorem cache_ttl_staleness (key : string) (custom : option Z) (now t ttl : Z)
    (d : CachedData) (m0 m : Manager) :
  cache m !! key = cache (setCacheEntry key d ttl t m0) !! key ->
  let entry := {| data := d; timestamp := t; ttl := ttl |} in
  let age := now - t in
  (age <= read_ttl custom entry ->
   getCachedResponse key custom now m = (Some d, m)
   /\ forall e s,
       key = cacheKey e -> custom = customTtl e -> manager s = m -> clock s = now ->
       returned (invoke e s) !! nextCall s = Some (Ok d)
       /\ started (invoke e s) = started s
       /\ manager (invoke e s) = m)
  /\ (age > read_ttl custom entry ->
      getCachedResponse key custom now m = (None, clearCacheEntry key m)
      /\ forall e s,
          key = cacheKey e -> custom = customTtl e -> manager s = m -> clock s = now ->
          let c := nextCall s in
          let s1 := invoke e s in
          cache (manager s1) !! key = None
          /\ started s1 = started s
          /\ match pendingRequests m !! key with
             | Some pending =>
                 calls s1 !! c
                 = Some {| endpoint := e;
                           continuation := AwaitPending (promise pending) |}
             | None =>
                 exists evs s2,
                   (evs = [Resume c]
                    \/ exists wake, evs = [Tick wake; Resume c; Resume c])
                   /\ run evs s1 = Some s2
                   /\ started s2 = S (started s)
                   /\ pendingRequests (manager s2) !! key
                      = Some {| promise := {| kind := e; request := started s |};
                                pending_timestamp := clock s2 |}
             end).
Proof.
  intros Hstored entry age.
  assert (Hentry : cache m !! key = Some entry).
  { rewrite Hstored. unfold setCacheEntry. simpl. apply lookup_insert_eq. }
  clear Hstored.
  assert (Httl : effectiveTtl custom entry = read_ttl custom entry).
  { unfold effectiveTtl, read_ttl. destruct custom as [c|]; [|reflexivity].
    case_bool_decide as Hc; [subst c; reflexivity|].
    destruct (Z.eqb_spec c 0); [contradiction | reflexivity]. }
  split.
  - intros Hfresh.
    assert (Hread : getCachedResponse key custom now m = (Some d, m)).
    { unfold getCachedResponse. rewrite Hentry, Httl. cbv zeta.
      destruct (Z.ltb_spec (read_ttl custom entry) (now - timestamp entry));
        [unfold age in Hfresh; simpl in *; lia | reflexivity]. }
    split; [exact Hread|].
    intros e s -> -> Hm Hnow. unfold invoke. rewrite Hm, Hnow, Hread. simpl.
    split; [apply lookup_insert_eq|]. split; reflexivity.
  - intros Hstale.
    assert (Hread : getCachedResponse key custom now m = (None, clearCacheEntry key m)).
    { unfold getCachedResponse. rewrite Hentry, Httl. cbv zeta.
      destruct (Z.ltb_spec (read_ttl custom entry) (now - timestamp entry));
        [reflexivity | unfold age in Hstale; simpl in *; lia]. }
    split; [exact Hread|].
    intros e s Hkey Hcustom Hm Hnow c s1. subst s1 c.
    assert (Hmiss : (getCachedResponse (cacheKey e) (customTtl e) (clock s)
                                       (manager s)).1 = None).
    { rewrite <- Hkey, <- Hcustom, Hm, Hnow, Hread. reflexivity. }
    destruct (pendingRequests m !! key) as [pending|] eqn:Ep.
    + unfold invoke. rewrite <- Hkey, <- Hcustom, Hm, Hnow, Hread. simpl.
      rewrite Ep. simpl. split; [apply lookup_delete_eq|]. split; [reflexivity|].
      apply lookup_insert_eq.
    + assert (Hnone : pendingRequests (manager s) !! cacheKey e = None)
        by (rewrite Hm, <- Hkey; exact Ep).
      destruct (invoke_fresh_request e s Hmiss Hnone)
        as (evs & s2 & Hevs & Hrun & Hstarted & Hp2).
      split; [|split].
      * unfold invoke. rewrite <- Hkey, <- Hcustom, Hm, Hnow, Hread. simpl.
        rewrite Ep. unfold enforceRateLimit. simpl.
        destruct (_ <? _); simpl; apply lookup_delete_eq.
      * unfold invoke. rewrite <- Hkey, <- Hcustom, Hm, Hnow, Hread. simpl.
        rewrite Ep. unfold enforceRateLimit. simpl.
        destruct (_ <? _); reflexivity.
      * exists evs, s2. rewrite Hkey. auto.
Qed.

Lemma cache_ttl_staleness_witness :
  let m := setCacheEntry "getAllData" (CData okResponse) 30000 0
             {| cache := ∅; pendingRequests := ∅; lastRequestTime := 0 |} in
  getCachedResponse "getAllData" None 30000 m = (Some (CData okResponse), m)
  /\ getCachedResponse "getAllData" None 30001 m
     = (None, clearCacheEntry "getAllData" m).
Proof.
  cbv zeta.
  destruct (cache_ttl_staleness "getAllData" None 30000 0 30000 (CData okResponse)
              {| cache := ∅; pendingRequests := ∅; lastRequestTime := 0 |}
              (setCacheEntry "getAllData" (CData okResponse) 30000 0
                 {| cache := ∅; pendingRequests := ∅; lastRequestTime := 0 |})
              eq_refl) as [Hfresh _].
  destruct (cache_ttl_staleness "getAllData" None 30001 0 30000 (CData okResponse)
              {| cache := ∅; pendingRequests := ∅; lastRequestTime := 0 |}
              (setCacheEntry "getAllData" (CData okResponse) 30000 0
                 {| cache := ∅; pendingRequests := ∅; lastRequestTime := 0 |})
              eq_refl) as [_ Hstale].
  split.
  - apply Hfresh. simpl. lia.
  - apply Hstale. simpl. lia.
Defined.

(** The claim as stated fails when a request is pending while the entry
    expires. In the state after [slow_second_request_trace] the entry that
    request 0 stored at 5500 has expired at 35501, and request 1, started
    in the race of the first two calls, is still pending. The third
    [getAllData()] reads [null], the entry is deleted, and the call awaits
    request 1 instead of issuing a fresh request: when request 1 has
    settled and the three calls have run to their end, call 2 has resolved
    to the response of request 1 and the number of requests started is
    still 2. *)
Lemma stale_read_without_fresh_request :
  let s := state_after slow_second_request_trace in
  reachable s
  /\ run slow_second_request_trace (init 5000) = Some s
  /\ (exists cached,
        cache (manager s) !! "getAllData" = Some cached
        /\ timestamp cached = 5500 /\ ttl cached = 30000 /\ clock s = 35501)
  /\ started s = 2%nat
  /\ getCachedResponse "getAllData" None (clock s) (manager s)
     = (None, clearCacheEntry "getAllData" (manager s))
  /\ calls (invoke GetAllData s) !! 2%nat
     = Some {| endpoint := GetAllData;
               continuation := AwaitPending {| kind := GetAllData; request := 1 |} |}
  /\ exists s',
      run third_caller_events s = Some s'
      /\ returned s' !! 2%nat = Some (Ok (CData okResponse))
      /\ calls s' = ∅
      /\ started s' = 2%nat.
Proof.
  cbv zeta. split; [apply state_after_reachable|].
  split; [vm_compute; reflexivity|].
  split; [eexists; split; [vm_compute; reflexivity | repeat split]|].
  split; [vm_compute; reflexivity|].
  split; [vm_compute; reflexivity|].
  split; [vm_compute; reflexivity|].
  eexists. split; [vm_compute; reflexivity|].
  split; [vm_compute; reflexivity|].
  split; [vm_compute; reflexivity|].
  vm_compute; reflexivity.
Qed.

(** ** More on the API manager *)

Import ManagerInv.

Section Typing_lemmas.

Lemma cacheKey_inj e1 e2 : cacheKey e1 = cacheKey e2 -> e1 = e2.
Proof. destruct e1, e2; simpl; intros H; (reflexivity || discriminate H). Qed.

Lemma promise_ok_mono n m e p : promise_ok n e p -> (n <= m)%nat -> promise_ok m e p.
Proof. intros [Hk Hr] Hle. split; [exact Hk | lia]. Qed.

Lemma continuation_ok_mono n m e k :
  continuation_ok n e k -> (n <= m)%nat -> continuation_ok m e k.
Proof. destruct k; simpl; eauto using promise_ok_mono. Qed.

Lemma promiseOutcome_ok settled p o :
  promiseOutcome settled p = Some o -> outcome_ok (kind p) o.
Proof.
  unfold promiseOutcome. destruct (settled !! request p) as [r|]; [|discriminate].
  intros [= <-]. destruct (kind p); simpl.
  - destruct r; [left | right]; eauto.
  - eauto.
Qed.

Lemma well_typed_init t0 : well_typed (init t0).
Proof.
  constructor; simpl; intros; rewrite lookup_empty in *; discriminate.
Qed.

Lemma well_typed_invoke e s : well_typed s -> well_typed (invoke e s).
Proof.
  intros [Hcache Hpending Hcalls Hreturned].
  assert (Hread : forall d m',
             getCachedResponse (cacheKey e) (customTtl e) (clock s) (manager s)
             = (d, m') ->
             (forall e' cached, cache m' !! cacheKey e' = Some cached ->
                                data_ok e' (data cached))
             /\ pendingRequests m' = pendingRequests (manager s)
             /\ forall x, d = Some x -> data_ok e x).
  { intros d m'. unfold getCachedResponse.
    destruct (cache (manager s) !! cacheKey e) as [cached|] eqn:Ec.
    - destruct (_ <? _).
      + intros [= <- <-]. simpl. split; [|split; [reflexivity | discriminate]].
        intros e' c' Hl. apply lookup_delete_Some in Hl as [_ Hl]. eauto.
      + intros [= <- <-]. split; [exact Hcache|]. split; [reflexivity|].
        intros x [= <-]. eauto.
    - intros [= <- <-]. split; [exact Hcache|]. split; [reflexivity | discriminate]. }
  unfold invoke.
  destruct (getCachedResponse (cacheKey e) (customTtl e) (clock s) (manager s))
    as [d m'] eqn:Eread.
  destruct (Hread d m' eq_refl) as (Hcache' & Hpend' & Hd).
  destruct d as [x|].
  - constructor; simpl.
    + exact Hcache'.
    + intros e' p. rewrite Hpend'. apply Hpending.
    + intros c call Hl. apply lookup_delete_Some in Hl as [_ Hl].
      destruct (Hcalls c call Hl). split; [lia | assumption].
    + intros c o Hl. apply lookup_insert_Some in Hl as [[<- _]|[_ Hl]]; [lia|].
      apply Hreturned in Hl. lia.
  - destruct (pendingRequests m' !! cacheKey e) as [pending|] eqn:Ep.
    + constructor; simpl.
      * exact Hcache'.
      * intros e' p. rewrite Hpend'. apply Hpending.
      * intros c call Hl.
        apply lookup_insert_Some in Hl as [[<- <-]|[_ Hl]]; simpl.
        -- split; [lia|]. rewrite Hpend' in Ep. eauto.
        -- destruct (Hcalls c call Hl). split; [lia | assumption].
      * intros c o Hl. apply Hreturned in Hl. lia.
    + unfold enforceRateLimit. simpl. destruct (_ <? _); constructor; simpl;
        try exact Hcache';
        try (intros e' p; rewrite Hpend'; apply Hpending);
        try (intros c o Hl; apply Hreturned in Hl; lia);
        intros c call Hl;
        (apply lookup_insert_Some in Hl as [[<- <-]|[_ Hl]]; simpl;
         [split; [lia | exact I]
         | destruct (Hcalls c call Hl); split; [lia | assumption]]).
Qed.

Lemma well_typed_resume c s s' : well_typed s -> resume c s = Some s' -> well_typed s'.
Proof.
  intros [Hcache Hpending Hcalls Hreturned]. unfold resume.
  destruct (calls s !! c) as [[e k]|] eqn:Ecall; [|discriminate].
  destruct (Hcalls c _ Ecall) as [Hc Hk]. simpl in *.
  assert (Hother : forall c' call', calls s !! c' = Some call' ->
                     (c' < nextCall s)%nat
                     /\ continuation_ok (S (started s)) (endpoint call')
                                        (continuation call')).
  { intros c' call' Hl. destruct (Hcalls c' call' Hl) as [Hlt Hok].
    split; [exact Hlt|]. eapply continuation_ok_mono; [exact Hok | lia]. }
  destruct k as [p|wake| |p|o].
  - (* the pending promise has settled *)
    destruct (promiseOutcome (settled s) p) as [o|]; [|discriminate].
    intros [= <-]. constructor; simpl; auto.
    + intros c' call' Hl. apply lookup_delete_Some in Hl as [_ Hl]. auto.
    + intros c' o' Hl. apply lookup_insert_Some in Hl as [[<- _]|[_ Hl]]; eauto.
  - (* the timer has fired *)
    destruct (wake <=? clock s); [|discriminate].
    intros [= <-]. constructor; simpl; auto.
    intros c' call' Hl. apply lookup_insert_Some in Hl as [[<- <-]|[_ Hl]]; simpl; auto.
  - (* the request starts *)
    intros [= <-].
    assert (well_typed (startRequest c e s)); [|destruct e; assumption].
    constructor; simpl; auto.
    + intros e' p Hl. apply lookup_insert_Some in Hl as [[He <-]|[_ Hl]]; simpl.
      * apply cacheKey_inj in He. subst e'. split; simpl; [reflexivity | lia].
      * eapply promise_ok_mono; [eauto | lia].
    + intros c' call' Hl.
      apply lookup_insert_Some in Hl as [[<- <-]|[_ Hl]]; simpl; auto.
      split; [exact Hc|]. split; simpl; [reflexivity | lia].
  - (* the request has settled *)
    destruct Hk as [Hkind Hreq].
    destruct (promiseOutcome (settled s) p) as [[d|err]|] eqn:Eout; [| |discriminate].
    + apply promiseOutcome_ok in Eout. rewrite Hkind in Eout.
      assert (Hp : pendingRequests
                     (deletePending (cacheKey e)
                        (cacheResult e (cacheKey e) d (clock s) (manager s)))
                   = delete (cacheKey e) (pendingRequests (manager s))).
      { destruct e; simpl; [|reflexivity].
        destruct d as [r|st]; simpl; [|reflexivity].
        destruct (success r); reflexivity. }
      assert (Hc' : forall e' cached,
                 cache (deletePending (cacheKey e)
                          (cacheResult e (cacheKey e) d (clock s) (manager s)))
                 !! cacheKey e' = Some cached -> data_ok e' (data cached)).
      { intros e' cached. destruct e; simpl.
        - destruct d as [r|st]; simpl; [|apply Hcache].
          destruct (success r); simpl; [|apply Hcache].
          intros Hl. apply lookup_insert_Some in Hl as [[He <-]|[_ Hl]]; eauto.
          destruct e'; [simpl; eauto | discriminate He].
        - intros Hl. apply lookup_insert_Some in Hl as [[He <-]|[_ Hl]]; eauto.
          destruct e'; [discriminate He|]. simpl in *.
          destruct Eout as [st [= ->]]. eauto. }
      intros [= <-].
      constructor; cbn [manager started calls nextCall returned suspend withManager].
      * exact Hc'.
      * intros e' p'. rewrite Hp. intros Hl.
        apply lookup_delete_Some in Hl as [_ Hl]. eauto.
      * intros c' call' Hl.
        apply lookup_insert_Some in Hl as [[<- <-]|[_ Hl]]; simpl; auto.
      * auto.
    + apply promiseOutcome_ok in Eout. rewrite Hkind in Eout.
      intros [= <-]. constructor; simpl; auto.
      * intros e' p' Hl. apply lookup_delete_Some in Hl as [_ Hl]. eauto.
      * intros c' call' Hl.
        apply lookup_insert_Some in Hl as [[<- <-]|[_ Hl]]; simpl; auto.
  - (* the inner method has settled *)
    destruct o as [d|err]; intros [= <-]; constructor; simpl; auto.
    + intros c' call' Hl. apply lookup_delete_Some in Hl as [_ Hl]. auto.
    + intros c' o' Hl. apply lookup_insert_Some in Hl as [[<- _]|[_ Hl]]; eauto.
    + intros e' p' Hl. apply lookup_delete_Some in Hl as [_ Hl]. eauto.
    + intros c' call' Hl. apply lookup_delete_Some in Hl as [_ Hl]. auto.
    + intros c' o' Hl. apply lookup_insert_Some in Hl as [[<- _]|[_ Hl]]; eauto.
Qed.

Lemma well_typed_step ev s s' : well_typed s -> step ev s = Some s' -> well_typed s'.
Proof.
  intros Hwt. pose proof Hwt as [Hcache Hpending Hcalls Hreturned].
  destruct ev as [t|e|c|r o| |key| |]; [simpl|rewrite step_invoke|simpl..].
  - destruct (clock s <=? t); [|discriminate]. intros [= <-].
    constructor; simpl; auto.
  - intros [= <-]. now apply well_typed_invoke.
  - now apply well_typed_resume.
  - case_bool_decide; [|discriminate].
    destruct (settled s !! r); [discriminate|]. intros [= <-].
    constructor; simpl; auto.
  - intros [= <-]. constructor; simpl; auto.
    intros e cached Hl. rewrite lookup_empty in Hl. discriminate.
  - intros [= <-]. constructor; simpl; auto.
    intros e cached Hl. apply lookup_delete_Some in Hl as [_ Hl]. eauto.
  - intros [= <-]. exact Hwt.
  - intros [= <-]. constructor; simpl; auto.
    + intros e cached Hl. apply map_lookup_filter_Some in Hl as [Hl _]. eauto.
    + intros e p Hl. apply map_lookup_filter_Some in Hl as [Hl _]. eauto.
Qed.

Lemma reachable_well_typed s : reachable s -> well_typed s.
Proof.
  induction 1 as [t0|s s' ev _ IH Hstep]; [apply well_typed_init|].
  now apply (well_typed_step ev s).
Qed.

End Typing_lemmas.

Section Settling_lemmas.

Lemma unsettled_step ev s s' :
  well_typed s -> unsettled s -> step ev s = Some s' -> unsettled s'.
Proof.
  intros [_ _ _ Hreturned] Hun.
  assert (Hfresh : returned s !! nextCall s = None).
  { destruct (returned s !! nextCall s) as [o|] eqn:E; [|reflexivity].
    apply Hreturned in E. lia. }
  destruct ev as [t|e|c|r o| |key| |]; [simpl|rewrite step_invoke|simpl..].
  - destruct (clock s <=? t); [|discriminate]. intros [= <-]. exact Hun.
  - intros [= <-]. unfold invoke.
    destruct (getCachedResponse _ _ _ _) as [[d|] m'].
    + intros c call. simpl. intros Hl.
      apply lookup_delete_Some in Hl as [Hne Hl].
      rewrite lookup_insert_ne by congruence. eauto.
    + destruct (pendingRequests m' !! cacheKey e).
      * intros c call. simpl. intros Hl.
        apply lookup_insert_Some in Hl as [[<- _]|[_ Hl]]; eauto.
      * unfold enforceRateLimit. simpl. destruct (_ <? _);
          intros c call; simpl; intros Hl;
          (apply lookup_insert_Some in Hl as [[<- _]|[_ Hl]]; eauto).
  - unfold resume. destruct (calls s !! c) as [[e k]|] eqn:Ecall; [|discriminate].
    simpl.
    assert (Hfinish : forall o m, unsettled (finish c o (withManager m s))).
    { intros o m c' call'. simpl. intros Hl.
      apply lookup_delete_Some in Hl as [Hne Hl].
      rewrite lookup_insert_ne by congruence. eauto. }
    assert (Hsuspend : forall k' m, unsettled (suspend c e k' (withManager m s))).
    { intros k' m c' call'. simpl. intros Hl.
      apply lookup_insert_Some in Hl as [[<- _]|[_ Hl]]; eauto. }
    destruct k as [p|wake| |p|[d|err]].
    + destruct (promiseOutcome (settled s) p); [|discriminate]. intros [= <-].
      intros c' call'. simpl. intros Hl.
      apply lookup_delete_Some in Hl as [Hne Hl].
      rewrite lookup_insert_ne by congruence. eauto.
    + destruct (wake <=? clock s); [|discriminate]. intros [= <-]. apply Hsuspend.
    + intros [= <-].
      assert (unsettled (startRequest c e s)); [|destruct e; assumption].
      intros c' call'. simpl. intros Hl.
      apply lookup_insert_Some in Hl as [[<- _]|[_ Hl]]; eauto.
    + destruct (promiseOutcome (settled s) p) as [[d|err]|]; [| |discriminate];
        intros [= <-]; apply Hsuspend.
    + intros [= <-]. intros c' call'. simpl. intros Hl.
      apply lookup_delete_Some in Hl as [Hne Hl].
      rewrite lookup_insert_ne by congruence. eauto.
    + intros [= <-]. apply Hfinish.
  - case_bool_decide; [|discriminate].
    destruct (settled s !! r); [discriminate|]. intros [= <-]. exact Hun.
  - intros [= <-]. exact Hun.
  - intros [= <-]. exact Hun.
  - intros [= <-]. exact Hun.
  - intros [= <-]. exact Hun.
Qed.

Lemma reachable_unsettled s : reachable s -> unsettled s.
Proof.
  induction 1 as [t0|s s' ev Hreach IH Hstep].
  - intros c call Hl. simpl in Hl. rewrite lookup_empty in Hl. discriminate.
  - apply (unsettled_step ev s); [now apply reachable_well_typed | exact IH | exact Hstep].
Qed.

End Settling_lemmas.

(** X20. The casts of the untyped cache are sound. In every reachable
    state, what a read of the cache returns to a method has the type of
    that method; a call that is answered at once is answered well; and a
    step that settles a suspended call settles a [getAllData()] call with
    a data response or a rejection, never with a connection status, and a
    [quickConnectionTest()] call with a connection status: that method
    never rejects. *)
Theorem calls_settle_well_typed (s : State) :
  reachable s ->
  (forall e d m',
      getCachedResponse (cacheKey e) (customTtl e) (clock s) (manager s)
      = (Some d, m') -> data_ok e d)
  /\ (forall e o,
        returned (invoke e s) !! nextCall s = Some o -> outcome_ok e o)
  /\ (forall c call s' o,
        calls s !! c = Some call ->
        step (Resume c) s = Some s' ->
        returned s' !! c = Some o ->
        outcome_ok (endpoint call) o
        /\ (endpoint call = QuickTest -> exists status, o = Ok (CStatus status))).
Proof.
  intros Hreach.
  pose proof (reachable_well_typed s Hreach) as Hwt.
  pose proof (reachable_unsettled s Hreach) as Hun.
  destruct Hwt as [Hcache Hpending Hcalls Hreturned].
  assert (Hread : forall e d m',
             getCachedResponse (cacheKey e) (customTtl e) (clock s) (manager s)
             = (Some d, m') -> data_ok e d).
  { intros e d m'. unfold getCachedResponse.
    destruct (cache (manager s) !! cacheKey e) as [cached|] eqn:Ec; [|discriminate].
    destruct (_ <? _); [discriminate|]. intros [= <- _]. eauto. }
  assert (Hdata : forall e d, data_ok e d -> outcome_ok e (Ok d)).
  { intros [] d [x ->]; simpl; [left|]; eauto. }
  split; [exact Hread|]. split.
  - intros e o. unfold invoke.
    destruct (getCachedResponse (cacheKey e) (customTtl e) (clock s) (manager s))
      as [[d|] m'] eqn:Eread.
    + simpl. rewrite lookup_insert_eq. intros [= <-]. apply Hdata. eauto.
    + assert (Hfresh : returned s !! nextCall s = None).
      { destruct (returned s !! nextCall s) as [o'|] eqn:E; [|reflexivity].
        apply Hreturned in E. lia. }
      destruct (pendingRequests m' !! cacheKey e); simpl.
      * rewrite Hfresh. discriminate.
      * unfold enforceRateLimit. simpl. destruct (_ <? _); simpl;
          rewrite Hfresh; discriminate.
  - intros c call s' o Hcall Hstep Hret.
    assert (Hok : outcome_ok (endpoint call) o).
    { pose proof (Hun c call Hcall) as Hnone.
      destruct (Hcalls c call Hcall) as [_ Hk].
      simpl in Hstep. unfold resume in Hstep. rewrite Hcall in Hstep.
      destruct call as [e k]. simpl in *.
      destruct k as [p|wake| |p|[d|err]].
      - destruct (promiseOutcome (settled s) p) as [o'|] eqn:Eout; [|discriminate].
        injection Hstep as <-. simpl in Hret. rewrite lookup_insert_eq in Hret.
        injection Hret as <-. destruct Hk as [<- _].
        now apply promiseOutcome_ok in Eout.
      - destruct (wake <=? clock s); [|discriminate].
        injection Hstep as <-. simpl in Hret. congruence.
      - injection Hstep as <-. destruct e; simpl in Hret; congruence.
      - destruct (promiseOutcome (settled s) p) as [[d|err]|]; [| |discriminate];
          injection Hstep as <-; simpl in Hret; congruence.
      - injection Hstep as <-. simpl in Hret. rewrite lookup_insert_eq in Hret.
        now injection Hret as <-.
      - injection Hstep as <-. simpl in Hret. rewrite lookup_insert_eq in Hret.
        now injection Hret as <-. }
    split; [exact Hok|]. intros He. rewrite He in Hok. exact Hok.
Qed.

Lemma calls_settle_well_typed_witness :
  exists status,
    returned (invoke QuickTest (state_after both_endpoints_trace))
    !! nextCall (state_after both_endpoints_trace)
    = Some (Ok (CStatus status)).
Proof.
  destruct (calls_settle_well_typed (state_after both_endpoints_trace)
              (state_after_reachable both_endpoints_trace))
    as (_ & Hinvoke & _).
  destruct (returned (invoke QuickTest (state_after both_endpoints_trace))
            !! nextCall (state_after both_endpoints_trace)) as [o|] eqn:E;
    [|vm_compute in E; discriminate E].
  destruct (Hinvoke QuickTest o E) as [status ->].
  exists status. reflexivity.
Defined.

Section Cleanup_lemmas.

Lemma map_filter_idempotent {A} (P : string * A -> Prop)
    `{!forall x, Decision (P x)} (m : gmap string A) :
  filter P (filter P m) = filter P m.
Proof.
  apply map_eq. intros key. rewrite !map_lookup_filter.
  destruct (m !! key) as [x|]; simpl; [|reflexivity].
  destruct (decide (P (key, x))) as [Hp|Hn].
  - rewrite option_guard_True by exact Hp. simpl.
    now rewrite option_guard_True by exact Hp.
  - now rewrite option_guard_False by exact Hn.
Qed.

End Cleanup_lemmas.

(** X21. [cleanup] removes exactly the cache entries whose own TTL has
    expired and the pending entries older than 30 seconds, and nothing
    else; running it twice at the same instant changes nothing more; and
    it agrees with the reads: right after a cleanup, a read without a
    custom TTL of any key that is still in the cache is a hit, and
    deletes nothing. *)
Theorem cleanup_removes_expired (now : Z) (m : Manager) :
  (forall key,
      cache (cleanup now m) !! key
      = match cache m !! key with
        | Some cached => if decide (isExpired now cached) then None else Some cached
        | None => None
        end)
  /\ (forall key,
        pendingRequests (cleanup now m) !! key
        = match pendingRequests m !! key with
          | Some pending => if decide (isStale now pending) then None else Some pending
          | None => None
          end)
  /\ lastRequestTime (cleanup now m) = lastRequestTime m
  /\ cleanup now (cleanup now m) = cleanup now m
  /\ (forall key cached,
        cache (cleanup now m) !! key = Some cached ->
        getCachedResponse key None now (cleanup now m)
        = (Some (data cached), cleanup now m)).
Proof.
  assert (Hcache : forall key,
             cache (cleanup now m) !! key
             = match cache m !! key with
               | Some cached =>
                   if decide (isExpired now cached) then None else Some cached
               | None => None
               end).
  { intros key. simpl. rewrite map_lookup_filter.
    destruct (cache m !! key) as [cached|]; simpl; [|reflexivity].
    destruct (decide (isExpired now cached)) as [Hexp|Hfresh].
    - rewrite option_guard_False by (simpl; tauto). reflexivity.
    - rewrite option_guard_True by exact Hfresh. reflexivity. }
  assert (Hpending : forall key,
             pendingRequests (cleanup now m) !! key
             = match pendingRequests m !! key with
               | Some pending =>
                   if decide (isStale now pending) then None else Some pending
               | None => None
               end).
  { intros key. simpl. rewrite map_lookup_filter.
    destruct (pendingRequests m !! key) as [pending|]; simpl; [|reflexivity].
    destruct (decide (isStale now pending)) as [Hst|Hfresh].
    - rewrite option_guard_False by (simpl; tauto). reflexivity.
    - rewrite option_guard_True by exact Hfresh. reflexivity. }
  split; [exact Hcache|]. split; [exact Hpending|]. split; [reflexivity|].
  split.
  - unfold cleanup. simpl. f_equal; apply map_filter_idempotent.
  - intros key cached Hl. unfold getCachedResponse. rewrite Hl.
    rewrite Hcache in Hl.
    destruct (cache m !! key) as [c0|]; [|discriminate].
    destruct (decide (isExpired now c0)) as [Hexp|Hfresh]; [discriminate|].
    injection Hl as <-. simpl.
    unfold isExpired in Hfresh.
    destruct (Z.ltb_spec (ttl c0) (now - timestamp c0)); [lia | reflexivity].
Qed.

Lemma invoke_awaits_pending_witness :
  let s := state_after one_request_trace in
  let pending := {| promise := {| kind := GetAllData; request := 0 |};
                    pending_timestamp := 5000 |} in
  let s1 := invoke GetAllData s in
  started s1 = started s
  /\ manager s1 = manager s
  /\ calls s1 !! nextCall s
     = Some {| endpoint := GetAllData;
               continuation := AwaitPending (promise pending) |}
  /\ forall s2 o,
      calls s2 !! nextCall s
      = Some {| endpoint := GetAllData;
                continuation := AwaitPending (promise pending) |} ->
      promiseOutcome (settled s2) (promise pending) = Some o ->
      exists s3, step (Resume (nextCall s)) s2 = Some s3
                 /\ started s3 = started s2
                 /\ manager s3 = manager s2
                 /\ returned s3 !! nextCall s = Some o.
Proof.
  apply (invoke_awaits_pending GetAllData (state_after one_request_trace)
           {| promise := {| kind := GetAllData; request := 0 |};
              pending_timestamp := 5000 |}).
  - vm_compute. reflexivity.
  - vm_compute. reflexivity.
Defined.

(** X22. [clearCache] does not cancel a request in flight: when a request
    is pending under the key of an endpoint, a call of that endpoint made
    right after [clearCache()] finds the cache empty, starts no request
    and awaits the pending one. *)
Theorem clearCache_keeps_pending (e : Endpoint) (s : State)
    (pending : PendingRequest) :
  pendingRequests (manager s) !! cacheKey e = Some pending ->
  exists s',
    run [ClearCache; Invoke e] s = Some s'
    /\ cache (manager s') = ∅
    /\ pendingRequests (manager s') = pendingRequests (manager s)
    /\ started s' = started s
    /\ calls s' !! nextCall s
       = Some {| endpoint := e; continuation := AwaitPending (promise pending) |}.
Proof.
  intros Hpending. unfold run.
  change (step ClearCache s) with (Some (withManager (clearCache (manager s)) s)).
  cbv iota beta. rewrite step_invoke. eexists. split; [reflexivity|].
  unfold invoke, getCachedResponse. simpl. rewrite lookup_empty. simpl.
  rewrite Hpending. simpl.
  split; [reflexivity|]. split; [reflexivity|]. split; [reflexivity|].
  apply lookup_insert_eq.
Qed.

Lemma clearCache_keeps_pending_witness :
  exists s',
    run [ClearCache; Invoke GetAllData] (state_after one_request_trace) = Some s'
    /\ cache (manager s') = ∅
    /\ pendingRequests (manager s')
       = pendingRequests (manager (state_after one_request_trace))
    /\ started s' = started (state_after one_request_trace)
    /\ calls s' !! nextCall (state_after one_request_trace)
       = Some {| endpoint := GetAllData;
                 continuation :=
                   AwaitPending {| kind := GetAllData; request := 0 |} |}.
Proof.
  apply (clearCache_keeps_pending GetAllData (state_after one_request_trace)
           {| promise := {| kind := GetAllData; request := 0 |};
              pending_timestamp := 5000 |}).
  vm_compute. reflexivity.
Defined.

(** X23. The wait of the rate limiter. A call that finds neither a cache
    entry nor a pending request starts no request at once. If the last
    request is less than 1000 ms old, the call sets a timer for exactly
    1000 ms after the last request, leaves [lastRequestTime] alone, and
    cannot be resumed before that instant; otherwise it records the
    present time as the time of the last request and goes on. *)
Theorem rate_limit_wait (e : Endpoint) (s : State) :
  cache (manager s) !! cacheKey e = None ->
  pendingRequests (manager s) !! cacheKey e = None ->
  let c := nextCall s in
  let last := lastRequestTime (manager s) in
  let s1 := invoke e s in
  started s1 = started s
  /\ (clock s - last < 1000 ->
      calls s1 !! c
      = Some {| endpoint := e; continuation := AwaitTimer (last + 1000) |}
      /\ lastRequestTime (manager s1) = last
      /\ forall s2,
          calls s2 !! c
          = Some {| endpoint := e; continuation := AwaitTimer (last + 1000) |} ->
          clock s2 < last + 1000 ->
          step (Resume c) s2 = None)
  /\ (1000 <= clock s - last ->
      calls s1 !! c = Some {| endpoint := e; continuation := AwaitRateLimit |}
      /\ lastRequestTime (manager s1) = clock s).
Proof.
  intros Hcache Hpending c last s1. subst s1 c last.
  unfold invoke, getCachedResponse. rewrite Hcache. cbv iota beta.
  rewrite Hpending. unfold enforceRateLimit, MIN_REQUEST_INTERVAL. simpl.
  destruct (Z.ltb_spec (clock s - lastRequestTime (manager s)) 1000) as [Hwait|Hgo];
    simpl.
  - split; [reflexivity|]. split; [|lia]. intros _.
    split; [|split; [reflexivity|]].
    + rewrite lookup_insert_eq. do 3 f_equal. lia.
    + intros s2 Hcall Hearly. unfold resume. rewrite Hcall. simpl.
      destruct (Z.leb_spec (lastRequestTime (manager s) + 1000) (clock s2));
        [lia | reflexivity].
  - split; [reflexivity|]. split; [lia|]. intros _.
    split; [apply lookup_insert_eq | reflexivity].
Qed.

Lemma rate_limit_wait_witness :
  let s := state_after [Invoke GetAllData] in
  started (invoke QuickTest s) = started s
  /\ calls (invoke QuickTest s) !! nextCall s
     = Some {| endpoint := QuickTest; continuation := AwaitTimer (5000 + 1000) |}.
Proof.
  destruct (rate_limit_wait QuickTest (state_after [Invoke GetAllData]))
    as (Hstarted & Hwait & _).
  - vm_compute. reflexivity.
  - vm_compute. reflexivity.
  - cbv zeta. split; [exact Hstarted|].
    apply Hwait. vm_compute. reflexivity.
Defined.

(** X24. The rate limiter does not space out calls that wait together.
    Whenever two suspended calls are both waiting on rate-limit timers
    that are due, resuming them starts two underlying requests at the
    same instant of the clock. *)
Theorem timers_fire_together (s : State) (c1 c2 : nat) (e1 e2 : Endpoint)
    (w1 w2 : Z) :
  c1 ≠ c2 ->
  calls s !! c1 = Some {| endpoint := e1; continuation := AwaitTimer w1 |} ->
  calls s !! c2 = Some {| endpoint := e2; continuation := AwaitTimer w2 |} ->
  w1 <= clock s -> w2 <= clock s ->
  exists s',
    run [Resume c1; Resume c2; Resume c1; Resume c2] s = Some s'
    /\ clock s' = clock s
    /\ started s' = S (S (started s))
    /\ calls s' !! c1
       = Some {| endpoint := e1;
                 continuation := AwaitRequest {| kind := e1; request := started s |} |}
    /\ calls s' !! c2
       = Some {| endpoint := e2;
                 continuation :=
                   AwaitRequest {| kind := e2; request := S (started s) |} |}.
Proof.
  intros Hne Hc1 Hc2 Hw1 Hw2.
  assert (Hresume_timer : forall st c e w,
             calls st !! c = Some {| endpoint := e; continuation := AwaitTimer w |} ->
             w <= clock st ->
             resume c st
             = Some (suspend c e AwaitRateLimit
                       (withManager (setLastRequestTime (clock st) (manager st)) st))).
  { intros st c e w Hc Hw. unfold resume. rewrite Hc. simpl.
    destruct (Z.leb_spec w (clock st)); [reflexivity | lia]. }
  unfold run. cbn [step].
  rewrite (Hresume_timer s c1 e1 w1 Hc1 Hw1).
  rewrite (Hresume_timer _ c2 e2 w2);
    [|simpl; rewrite lookup_insert_ne by exact Hne; exact Hc2 | exact Hw2].
  rewrite (resume_after_rate_limit c1 e1);
    [|simpl; rewrite lookup_insert_ne by congruence; apply lookup_insert_eq].
  rewrite (resume_after_rate_limit c2 e2);
    [|simpl; rewrite lookup_insert_ne by exact Hne; apply lookup_insert_eq].
  eexists. split; [reflexivity|]. simpl.
  split; [reflexivity|]. split; [reflexivity|]. split.
  - rewrite lookup_insert_ne by congruence. apply lookup_insert_eq.
  - apply lookup_insert_eq.
Qed.

Lemma timers_fire_together_witness :
  exists s',
    run [Resume 1; Resume 2; Resume 1; Resume 2] (state_after two_timers_trace)
    = Some s'
    /\ clock s' = clock (state_after two_timers_trace)
    /\ started s' = S (S (started (state_after two_timers_trace)))
    /\ calls s' !! 1%nat
       = Some {| endpoint := QuickTest;
                 continuation :=
                   AwaitRequest {| kind := QuickTest;
                                   request := started (state_after two_timers_trace) |} |}
    /\ calls s' !! 2%nat
       = Some {| endpoint := GetAllData;
                 continuation :=
                   AwaitRequest {| kind := GetAllData;
                                   request := S (started (state_after two_timers_trace)) |} |}.
Proof.
  apply (timers_fire_together (state_after two_timers_trace) 1 2
           QuickTest GetAllData 6000 6000).
  - discriminate.
  - vm_compute. reflexivity.
  - vm_compute. reflexivity.
  - vm_compute. discriminate.
  - vm_compute. discriminate.
Defined.

(** ** The connection test of the manager *)

(** X26. [quickConnectionTest] remembers failures. When the request of a
    connection test settles, with whatever outcome, the call resolves (it
    never rejects) to the status computed from that outcome, the status is
    stored under ['quickTest'], the pending request is removed, and every
    connection test made within the next 10 seconds resolves to the same
    status without a request, also when that status reports a failed
    connection. *)
Theorem quickConnectionTest_caches_every_result (s : State) (c r : nat)
    (o : Result DataResponse) :
  calls s !! c
  = Some {| endpoint := QuickTest;
            continuation := AwaitRequest {| kind := QuickTest; request := r |} |} ->
  settled s !! r = Some o ->
  let status := CStatus (performQuickTest o) in
  exists s',
    run [Resume c; Resume c] s = Some s'
    /\ returned s' !! c = Some (Ok status)
    /\ cache (manager s') !! "quickTest"
       = Some {| data := status; timestamp := clock s; ttl := 10000 |}
    /\ pendingRequests (manager s') !! "quickTest" = None
    /\ started s' = started s
    /\ forall t, clock s <= t <= clock s + 10000 ->
       exists s'',
         run [Tick t; Invoke QuickTest] s' = Some s''
         /\ started s'' = started s'
         /\ returned s'' !! nextCall s' = Some (Ok status).
Proof.
  intros Hcall Hsettled status. unfold run. cbn [step].
  unfold resume at 1. rewrite Hcall. cbn [continuation endpoint].
  unfold promiseOutcome. cbn [request kind]. rewrite Hsettled.
  cbv iota beta.
  unfold resume. cbn [calls suspend withManager]. rewrite lookup_insert_eq.
  cbn [continuation endpoint].
  eexists. split; [reflexivity|].
  cbn [returned finish suspend withManager manager started clock nextCall
       cacheResult deletePending setCacheEntry cache pendingRequests cacheKey].
  split; [apply lookup_insert_eq|].
  split; [apply lookup_insert_eq|].
  split; [apply lookup_delete_eq|].
  split; [reflexivity|].
  intros t [Hlo Hhi]. simpl.
  destruct (Z.leb_spec (clock s) t) as [_|]; [|lia].
  eexists. split; [reflexivity|].
  unfold quickConnectionTest, invoke, getCachedResponse. simpl.
  rewrite lookup_insert_eq. simpl.
  destruct (Z.ltb_spec 10000 (t - clock s)) as [|_]; [lia|]. simpl.
  split; [reflexivity | apply lookup_insert_eq].
Qed.

Lemma quickConnectionTest_caches_every_result_witness :
  exists s',
    run [Resume 0; Resume 0] (state_after quick_test_failed_trace) = Some s'
    /\ returned s' !! 0%nat
       = Some (Ok (CStatus {| connected := false;
                              connection_error := Some "Connection failed";
                              rowCount := None |}))
    /\ cache (manager s') !! "quickTest"
       = Some {| data := CStatus {| connected := false;
                                    connection_error := Some "Connection failed";
                                    rowCount := None |};
                 timestamp := 5000; ttl := 10000 |}.
Proof.
  destruct (quickConnectionTest_caches_every_result
              (state_after quick_test_failed_trace) 0 0 (Throw NonError))
    as (s' & Hrun & Hret & Hcache & _).
  - vm_compute. reflexivity.
  - vm_compute. reflexivity.
  - exists s'. split; [exact Hrun|]. split; [exact Hret | exact Hcache].
Defined.

(** ** Writing and reading booleans *)

(** X27. A value written by [formatValue] as a boolean is read back by
    [smartTypeConversion] as the same boolean, whatever the column is
    called; [null] and [undefined] are written as the empty cell, which is
    read back as the empty string. *)
Theorem formatValue_boolean_round_trip (numberToString : JsVal -> string)
    (dateToISODate : JsVal -> Result string) (value : JsVal)
    (columnName : string) :
  exists cell,
    formatValue numberToString dateToISODate value (Some "boolean") = Ok cell
    /\ smartTypeConversion cell columnName
       = match value with
         | VNull | VUndef => VStr ""
         | _ => VBool (toBooleanJs value)
         end.
Proof.
  assert (Htrue : smartTypeConversion "true" columnName = VBool true).
  { unfold smartTypeConversion, isBooleanColumn.
    change (Js.trim "true") with "true".
    change (Js.toLowerCase "true") with "true".
    change (Js.arr_includes booleanValues "true") with true.
    rewrite orb_true_r. reflexivity. }
  assert (Hfalse : smartTypeConversion "false" columnName = VBool false).
  { unfold smartTypeConversion, isBooleanColumn.
    change (Js.trim "false") with "false".
    change (Js.toLowerCase "false") with "false".
    change (Js.arr_includes booleanValues "false") with true.
    rewrite orb_true_r. reflexivity. }
  assert (Hcell : forall b : bool,
             smartTypeConversion (if b then "true" else "false") columnName
             = VBool b).
  { intros []; assumption. }
  destruct value as [| |b|n|str|m]; unfold formatValue; simpl;
    eexists; (split; [reflexivity|]); try reflexivity;
    first [apply Hcell | exact Htrue].
Qed.

(** ** The configuration test *)

Section Configuration_lemmas.

Lemma length_app_one_nonzero {A} (l : list A) (x : A) :
  (length (l ++ [x]) =? 0)%nat = false.
Proof. rewrite length_app. simpl. apply Nat.eqb_neq. lia. Qed.

(** The configuration test passes exactly for a well-formed
    configuration. *)
Lemma testConfiguration_success_iff (config : SheetConfig) :
  ConnectionTester.success (ConnectionTester.testConfiguration config) = true
  <-> String.prefix "http" (apiBaseUrl config) = true
      /\ String.prefix "sk_" (apiKey config) = true
      /\ sheetId config <> ""
      /\ headers config <> [].
Proof.
  unfold ConnectionTester.testConfiguration.
  cbn [ConnectionTester.success].
  destruct (String.eqb_spec (apiBaseUrl config) "") as [Hu|Hu].
  { rewrite Hu. split; [|intros [H _]; discriminate H].
    repeat match goal with
           | |- context [if ?b then _ else _] => destruct b
           end; rewrite ?length_app_one_nonzero; discriminate. }
  destruct (String.prefix "http" (apiBaseUrl config)) eqn:Ehttp; cbn [negb];
    [|split; [|intros [H _]; discriminate H];
      repeat match goal with
             | |- context [if ?b then _ else _] => destruct b
             end; rewrite ?length_app_one_nonzero; discriminate].
  destruct (String.eqb_spec (apiKey config) "") as [Hk|Hk].
  { rewrite Hk. split; [|intros (_ & H & _); discriminate H].
    repeat match goal with
           | |- context [if ?b then _ else _] => destruct b
           end; rewrite ?length_app_one_nonzero; discriminate. }
  destruct (String.prefix "sk_" (apiKey config)) eqn:Esk; cbn [negb];
    [|split; [|intros (_ & H & _); discriminate H];
      repeat match goal with
             | |- context [if ?b then _ else _] => destruct b
             end; rewrite ?length_app_one_nonzero; discriminate].
  destruct (String.eqb_spec (sheetId config) "") as [Hs|Hs].
  { split; [|intros (_ & _ & H & _); contradiction].
    repeat match goal with
           | |- context [if ?b then _ else _] => destruct b
           end; rewrite ?length_app_one_nonzero; discriminate. }
  destruct (headers config) as [|h hs]; simpl.
  - split; [discriminate | intros (_ & _ & _ & H); contradiction].
  - split; [intros _; repeat split; congruence | reflexivity].
Qed.

Lemma filter_count_all {A} (p : A -> bool) (l : list A) :
  length (List.filter p l) = length l <-> forall x, In x l -> p x = true.
Proof.
  induction l as [|a l IH]; simpl.
  - split; [intros _ x [] | reflexivity].
  - destruct (p a) eqn:Ea; simpl.
    + split.
      * intros Hlen x [<-|Hin]; [exact Ea|]. apply IH; [lia | exact Hin].
      * intros Hall. f_equal. apply IH. intros x Hin. apply Hall. now right.
    + split.
      * intros Hlen. pose proof (List.filter_length_le p l). lia.
      * intros Hall. specialize (Hall a (or_introl eq_refl)). congruence.
Qed.

Lemma filter_count_split {A} (p : A -> bool) (l : list A) :
  (length (List.filter p l) + length (List.filter (fun x => negb (p x)) l)
   = length l)%nat.
Proof.
  induction l as [|a l IH]; simpl; [reflexivity|].
  destruct (p a); simpl; lia.
Qed.

End Configuration_lemmas.

(** X28. [testConfiguration] passes exactly when the API URL starts with
    [http], the API key starts with [sk_], the sheet id is not empty and
    there is at least one header. It reports an [error] exactly when it
    fails, and on success its message is the fixed text. *)
Theorem testConfiguration_outcome (config : SheetConfig) :
  let result := ConnectionTester.testConfiguration config in
  (ConnectionTester.success result = true
   <-> String.prefix "http" (apiBaseUrl config) = true
       /\ String.prefix "sk_" (apiKey config) = true
       /\ sheetId config <> ""
       /\ headers config <> [])
  /\ (ConnectionTester.error result = None
      <-> ConnectionTester.success result = true)
  /\ (ConnectionTester.success result = true ->
      ConnectionTester.message result = "All configuration variables are present")
  /\ ConnectionTester.name result = "Configuration Validation".
Proof.
  intros result. split; [apply testConfiguration_success_iff|].
  subst result.
  cbv beta iota zeta delta
    [ConnectionTester.testConfiguration ConnectionTester.success
     ConnectionTester.error ConnectionTester.message ConnectionTester.name].
  match goal with
  | |- context [(0 <? length ?l)%nat] => generalize l
  end.
  intros issues. destruct issues as [|i issues]; simpl.
  - split; [split; reflexivity|]. split; reflexivity.
  - split; [split; discriminate|]. split; [discriminate | reflexivity].
Qed.

(** X29. The report of [runFullTest]: the five tests are counted once
    each, as passed or as failed; the run succeeds exactly when all five
    tests succeed; with a malformed configuration it fails whatever the
    four tests on the network resolve to; and it warns of a slow response
    exactly when the five tests took more than 5000 ms. *)
Theorem runFullTest_summary (config : SheetConfig)
    (reachability auth access retrieval : ConnectionTester.TestResult)
    (elapsed : Z) :
  let report :=
    ConnectionTester.runFullTest config reachability auth access retrieval
      elapsed in
  let summary := ConnectionTester.summary report in
  ConnectionTester.totalTests summary = 5
  /\ ConnectionTester.passed summary + ConnectionTester.failed summary = 5
  /\ (ConnectionTester.result_success report = true
      <-> ConnectionTester.success (ConnectionTester.testConfiguration config) = true
          /\ ConnectionTester.success reachability = true
          /\ ConnectionTester.success auth = true
          /\ ConnectionTester.success access = true
          /\ ConnectionTester.success retrieval = true)
  /\ (~ (String.prefix "http" (apiBaseUrl config) = true
         /\ String.prefix "sk_" (apiKey config) = true
         /\ sheetId config <> ""
         /\ headers config <> []) ->
      ConnectionTester.result_success report = false)
  /\ (In "Slow API response time detected" (ConnectionTester.warnings summary)
      <-> 5000 < elapsed).
Proof.
  intros report summary. subst summary report.
  unfold ConnectionTester.runFullTest.
  cbn [ConnectionTester.summary ConnectionTester.totalTests
       ConnectionTester.passed ConnectionTester.failed
       ConnectionTester.result_success ConnectionTester.warnings].
  set (tests := ConnectionTester.values _).
  assert (Hlen : length tests = 5%nat) by reflexivity.
  assert (Hall : ConnectionTester.result_success
                   (ConnectionTester.runFullTest config reachability auth access
                      retrieval elapsed) = true
                 <-> ConnectionTester.success
                       (ConnectionTester.testConfiguration config) = true
                     /\ ConnectionTester.success reachability = true
                     /\ ConnectionTester.success auth = true
                     /\ ConnectionTester.success access = true
                     /\ ConnectionTester.success retrieval = true).
  { unfold ConnectionTester.runFullTest.
    cbn [ConnectionTester.result_success]. fold tests.
    rewrite Z.eqb_eq, Nat2Z.inj_iff, filter_count_all.
    subst tests. unfold ConnectionTester.values.
    cbn [ConnectionTester.configValidation ConnectionTester.apiReachability
         ConnectionTester.authentication ConnectionTester.sheetAccess
         ConnectionTester.dataRetrieval].
    split.
    - intros H. repeat split; apply H; simpl; tauto.
    - intros (H1 & H2 & H3 & H4 & H5) x Hin. simpl in Hin.
      destruct Hin as [<-|[<-|[<-|[<-|[<-|[]]]]]]; assumption. }
  split; [rewrite Hlen; reflexivity|].
  split.
  { pose proof (filter_count_split (fun t => ConnectionTester.success t) tests).
    lia. }
  split.
  { unfold ConnectionTester.runFullTest in Hall.
    cbn [ConnectionTester.result_success] in Hall. exact Hall. }
  split.
  { intros Hbad.
    unfold ConnectionTester.runFullTest in Hall.
    cbn [ConnectionTester.result_success] in Hall. fold tests in Hall.
    destruct (_ =? _) eqn:E; [|reflexivity].
    exfalso. apply Hbad. apply testConfiguration_success_iff.
    apply Hall. reflexivity. }
  destruct (Z.ltb_spec 5000 elapsed) as [Hslow|Hfast]; simpl.
  - split; [intros _; exact Hslow|]. intros _.
    destruct (_ =? _)%nat; simpl; tauto.
  - split; [|lia].
    destruct (_ =? _)%nat; simpl; intros H;
      repeat (destruct H as [H|H]; try discriminate H); contradiction.
Qed.
